(** * word-cloud-email.js: the SSR audit pipeline

    A shallow embedding of [src/word-cloud-email.js]: link discovery
    ([fetchSitemap], [scrapeInternalLinks]), page selection ([selectPages]),
    the SSR percentage ([calculateSSRPercentage]), the word diff of
    [createEmailWithWordCloud] and the per-site orchestrator
    ([analyzeWebsite]).

    Conventions.
    - A JavaScript string is a [string]: one [ascii] per code unit, so the
      model covers the strings whose code units are below 256.
    - [undefined] is [None]; an array is a [list].
    - A JavaScript Number is a binary64 value, [spec_float] with the
      operations of [SpecFloat] at [prec = 53], [emax = 1024].
    - Everything the script reaches through puppeteer, axios, xml2js,
      cheerio, csv-writer, the URL class or the file system is a field of
      [Env]; the calls that touch the outside world take and return a world
      [W] and leave an [event] in the trace of the run.
    - [console.log] and [console.error] are not modelled. *)

From Stdlib Require Import ZArith List String Ascii Bool Lia.
From Stdlib Require Import Floats.SpecFloat.
Import ListNotations.

Local Open Scope string_scope.
Local Open Scope list_scope.

(* ===================================================================== *)
(** * Strings and arrays *)

(** Classes of code units below 256. *)
Definition is_upper (c : ascii) : bool :=
  let n := nat_of_ascii c in (65 <=? n)%nat && (n <=? 90)%nat.

Definition is_lower (c : ascii) : bool :=
  let n := nat_of_ascii c in (97 <=? n)%nat && (n <=? 122)%nat.

Definition is_digit (c : ascii) : bool :=
  let n := nat_of_ascii c in (48 <=? n)%nat && (n <=? 57)%nat.

(** The capital letters of Latin-1 above ASCII: U+00C0 to U+00DE without
    the multiplication sign U+00D7. *)
Definition is_upper_latin1 (c : ascii) : bool :=
  let n := nat_of_ascii c in
  (192 <=? n)%nat && (n <=? 222)%nat && negb (n =? 215)%nat.

(** The lower case of one code unit. A code unit of 128 or more never
    becomes an ASCII letter, so it passes neither [/^[a-z]+$/] after
    [toLowerCase] nor a letter of a regular expression with the [i] flag. *)
Definition lower_char (c : ascii) : ascii :=
  if is_upper c || is_upper_latin1 c
  then ascii_of_nat (nat_of_ascii c + 32) else c.

(** [String.prototype.toLowerCase]. *)
Fixpoint toLowerCase (s : string) : string :=
  match s with
  | EmptyString => EmptyString
  | String c r => String (lower_char c) (toLowerCase r)
  end.

(** [p] is a prefix of [s], letters compared without case. *)
Fixpoint prefix_ci (p s : string) : bool :=
  match p, s with
  | EmptyString, _ => true
  | String _ _, EmptyString => false
  | String a p', String b s' =>
      Ascii.eqb (lower_char a) (lower_char b) && prefix_ci p' s'
  end.

(** [p] occurs somewhere in [s], letters compared without case. *)
Fixpoint contains_ci (p s : string) : bool :=
  prefix_ci p s ||
  match s with
  | EmptyString => false
  | String _ s' => contains_ci p s'
  end.

(** [s.endsWith('/')]. *)
Fixpoint endsWithSlash (s : string) : bool :=
  match s with
  | EmptyString => false
  | String c EmptyString => Ascii.eqb c "/"
  | String _ r => endsWithSlash r
  end.

(** [s.slice(0, -1)]. *)
Fixpoint sliceDropLast (s : string) : string :=
  match s with
  | EmptyString => EmptyString
  | String _ EmptyString => EmptyString
  | String c r => String c (sliceDropLast r)
  end.

(** [self.indexOf(value)]: the first position of [value], or [-1]. *)
Fixpoint indexOf (self : list string) (value : string) : Z :=
  match self with
  | [] => (-1)%Z
  | x :: r =>
      if String.eqb x value then 0%Z
      else let i := indexOf r value in
           if (i <? 0)%Z then (-1)%Z else (i + 1)%Z
  end.

(** [arr.filter((value, index, self) => keep value index)] for a callback
    that reads the index, counted from [index]. *)
Fixpoint filter_from {A} (keep : A -> Z -> bool) (index : Z) (arr : list A)
  : list A :=
  match arr with
  | [] => []
  | value :: r =>
      if keep value index then value :: filter_from keep (index + 1)%Z r
      else filter_from keep (index + 1)%Z r
  end.

(** [arr.filter((value, index, self) => self.indexOf(value) === index)],
    lines 59 and 80. *)
Definition uniqueLinks (arr : list string) : list string :=
  filter_from (fun value index => (indexOf arr value =? index)%Z) 0%Z arr.

(* ===================================================================== *)
(** * Page selection (lines 244-261) *)

(** The alternatives of the regular expression of line 246. *)
Definition seoKeywords : list string :=
  ["product"; "blog"; "articles"; "post"; "category"; "news"; "shop";
   "item"; "service"].

(** [/product|blog|articles|post|category|news|shop|item|service/i.test(url)]. *)
Definition isSEORelevantPage (url : string) : bool :=
  existsb (fun k => contains_ci k url) seoKeywords.

(** [selectPages(urls)] for an array [urls]. A slot of the returned array
    is [None] when the index read is out of range ([undefined]). *)
Definition selectPages (urls : list string) : list (option string) :=
  if (List.length urls <? 3)%nat then [nth_error urls 0]
  else
    let homepage := nth_error urls 0 in
    let relevantPages := filter isSEORelevantPage urls in
    let midPage :=
      if (0 <? List.length relevantPages)%nat
      then nth_error relevantPages (List.length relevantPages / 2)
      else nth_error urls (List.length urls / 2) in
    let deepPage :=
      if (1 <? List.length relevantPages)%nat
      then nth_error relevantPages (List.length relevantPages - 1)
      else nth_error urls (List.length urls - 1) in
    [homepage; midPage; deepPage].

(* ===================================================================== *)
(** * Numbers *)

Definition prec : Z := 53.
Definition emax : Z := 1024.

(** A non-negative integer below [2^53] as a Number (exact). *)
Definition numberOfZ (n : Z) : spec_float := binary_normalize prec emax n 0 false.

(** [x / y] and [x * y] on Numbers. *)
Definition numDiv (x y : spec_float) : spec_float := SFdiv prec emax x y.
Definition numMul (x y : spec_float) : spec_float := SFmul prec emax x y.
Definition numLt (x y : spec_float) : bool := SFltb x y.

(** What [x.toFixed(2)] returns. [Decimal s n] is the text made of the sign
    [-] when [s] holds, the decimal digits of [n] (at least three, padded
    with zeros on the left) and a point before the last two: [Decimal false
    40000] is [400.00] and [Decimal false 5] is [0.05]. [NotDecimal x] is
    the text [Number::toString] gives: [NaN], [Infinity], [-Infinity], or
    the exponent form of an [x] of magnitude [10^21] or more. *)
Inductive fixed2 :=
| Decimal (negative : bool) (n : Z)
| NotDecimal (x : spec_float).

(** The integer [n] for which [n / 100] is closest to [m * 2^e], the larger
    one if there are two (step 10 of Number.prototype.toFixed). *)
Definition nearestHundredths (m : positive) (e : Z) : Z :=
  match e with
  | Zneg k => (200 * Zpos m + 2 ^ Zpos k) / 2 ^ (Zpos k + 1)
  | _ => 100 * Zpos m * 2 ^ e
  end.

(** [10^21 <= m * 2^e]. *)
Definition atLeast1e21 (m : positive) (e : Z) : bool :=
  match e with
  | Zneg k => (10 ^ 21 * 2 ^ Zpos k <=? Zpos m)%Z
  | _ => (10 ^ 21 <=? Zpos m * 2 ^ e)%Z
  end.

(** [x.toFixed(2)]. *)
Definition toFixed2 (x : spec_float) : fixed2 :=
  match x with
  | S754_zero _ => Decimal false 0
  | S754_finite s m e =>
      if atLeast1e21 m e then NotDecimal x
      else Decimal s (nearestHundredths m e)
  | _ => NotDecimal x
  end.

(** A value of the [ssrPercentage] variable of [analyzeSSR]: the Number
    [0] of line 238 or the String of line 241. *)
Inductive ssr_value :=
| SsrNumber (x : spec_float)
| SsrString (t : fixed2).

(** [parseFloat(v)]: a Number is read back from its text (itself), a
    decimal text [n / 100] is the Number nearest to it. *)
Definition parseFloat (v : ssr_value) : spec_float :=
  match v with
  | SsrNumber x => x
  | SsrString (NotDecimal x) => x
  | SsrString (Decimal s n) =>
      match n with
      | Zpos p => numDiv (S754_finite s p 0) (S754_finite false 100 0)
      | _ => S754_zero s
      end
  end.

(* ===================================================================== *)
(** * Whitespace (line 212) *)

(** The code units below 256 that [\s] matches and [trim] strips: tab, line
    feed, vertical tab, form feed, carriage return, space, no-break space. *)
Definition is_space (c : ascii) : bool :=
  let n := nat_of_ascii c in
  ((9 <=? n)%nat && (n <=? 13)%nat) || (n =? 32)%nat || (n =? 160)%nat.

(** [s.replace(/\s+/g, ' ')]. *)
Fixpoint collapseSpaces (s : string) : string :=
  match s with
  | EmptyString => EmptyString
  | String c r =>
      if is_space c then
        match r with
        | String d _ =>
            if is_space d then collapseSpaces r
            else String " " (collapseSpaces r)
        | EmptyString => String " " EmptyString
        end
      else String c (collapseSpaces r)
  end.

Fixpoint trimStart (s : string) : string :=
  match s with
  | EmptyString => EmptyString
  | String c r => if is_space c then trimStart r else s
  end.

Fixpoint trimEnd (s : string) : string :=
  match s with
  | EmptyString => EmptyString
  | String c r =>
      match trimEnd r with
      | EmptyString => if is_space c then EmptyString else String c EmptyString
      | r' => String c r'
      end
  end.

(** [s.trim()]. *)
Definition trim (s : string) : string := trimEnd (trimStart s).

(** The shape of a text after [replace(/\s+/g, ' ')] and [trim]: it does
    not start or end with whitespace, and each whitespace character in it
    is a space that no whitespace follows. *)
Definition startsWithSpace (s : string) : bool :=
  match s with
  | String c _ => is_space c
  | EmptyString => false
  end.

Fixpoint endsWithSpace (s : string) : bool :=
  match s with
  | EmptyString => false
  | String c EmptyString => is_space c
  | String _ r => endsWithSpace r
  end.

Fixpoint spaced (s : string) : bool :=
  match s with
  | EmptyString => true
  | String c r =>
      (negb (is_space c) || (Ascii.eqb c " " && negb (startsWithSpace r)))
      && spaced r
  end.

Definition normalized (s : string) : bool :=
  negb (startsWithSpace s) && negb (endsWithSpace s) && spaced s.

(** The characters of [s] that are not whitespace. *)
Fixpoint inkOf (s : string) : string :=
  match s with
  | EmptyString => EmptyString
  | String c r => if is_space c then inkOf r else String c (inkOf r)
  end.

(* ===================================================================== *)
(** * Word frequencies (lines 215-229) and the word diff (lines 406-421) *)

(** The values a property read of a word-count object can give: a count,
    the text that [+ 1] makes of the inherited [Object] function followed by
    [ones] digits [1], an inherited member of [Object.prototype], or
    [undefined]. *)
Inductive jsval :=
| VNum (n : N)
| VText (ones : nat)
| VInherited
| VUndefined.

(** An object created by [{}]: its own properties in insertion order. *)
Definition jsobject := list (string * jsval).

(** The property names of [Object.prototype]. *)
Definition objectPrototypeKeys : list string :=
  ["constructor"; "hasOwnProperty"; "isPrototypeOf"; "propertyIsEnumerable";
   "toLocaleString"; "toString"; "valueOf"; "__defineGetter__";
   "__defineSetter__"; "__lookupGetter__"; "__lookupSetter__"; "__proto__"].

Fixpoint getOwn (o : jsobject) (k : string) : option jsval :=
  match o with
  | [] => None
  | (k', v) :: r => if String.eqb k' k then Some v else getOwn r k
  end.

(** [o[k]]. *)
Definition getProp (o : jsobject) (k : string) : jsval :=
  match getOwn o k with
  | Some v => v
  | None => if existsb (String.eqb k) objectPrototypeKeys then VInherited
            else VUndefined
  end.

(** [o[k] = v]. *)
Fixpoint setProp (o : jsobject) (k : string) (v : jsval) : jsobject :=
  match o with
  | [] => [(k, v)]
  | (k', v') :: r =>
      if String.eqb k' k then (k', v) :: r else (k', v') :: setProp r k v
  end.

(** [Object.keys(o)]. *)
Definition keys (o : jsobject) : list string := map fst o.

(** [v || 0]. *)
Definition orZero (v : jsval) : jsval :=
  match v with
  | VUndefined => VNum 0
  | _ => v
  end.

(** [v + 1]. *)
Definition plusOne (v : jsval) : jsval :=
  match v with
  | VNum n => VNum (n + 1)
  | VText k => VText (S k)
  | VInherited => VText 1
  | VUndefined => VUndefined
  end.

(** [v > 0]: a text or a function converts to NaN, which compares false. *)
Definition gtZero (v : jsval) : bool :=
  match v with
  | VNum n => (0 <? n)%N
  | _ => false
  end.

(** [\w]. *)
Definition is_word_char (c : ascii) : bool :=
  is_upper c || is_lower c || is_digit c || Ascii.eqb c "_".

(** [s.split(/\W+/)], reading [s] from [cur] on; [insep] holds inside a run
    of separators. *)
Fixpoint splitNonWord (insep : bool) (cur s : string) : list string :=
  match s with
  | EmptyString => [cur]
  | String c r =>
      if is_word_char c then splitNonWord false (cur ++ String c EmptyString)%string r
      else if insep then splitNonWord true cur r
      else cur :: splitNonWord true EmptyString r
  end.

(** [/^[a-z]+$/.test(word)]. *)
Fixpoint all_lower (word : string) : bool :=
  match word with
  | EmptyString => true
  | String c r => is_lower c && all_lower r
  end.

Definition onlyLetters (word : string) : bool :=
  match word with
  | EmptyString => false
  | _ => all_lower word
  end.

Definition stopWords : list string :=
  ["the"; "and"; "for"; "with"; "from"; "this"; "that"; "have"; "not";
   "but"; "are"].

Definition keepWord (word : string) : bool :=
  (2 <? String.length word)%nat && (String.length word <? 15)%nat &&
  onlyLetters word &&
  negb (existsb (String.eqb word) stopWords).

(** [generateWordFrequencies(text)]. *)
Definition generateWordFrequencies (text : string) : jsobject :=
  let words := splitNonWord false EmptyString (toLowerCase text) in
  fold_left
    (fun wordCounts word =>
       if keepWord word
       then setProp wordCounts word (plusOne (orZero (getProp wordCounts word)))
       else wordCounts)
    words [].

(** [new Set(items)], in insertion order. *)
Definition setOf (items : list string) : list string :=
  fold_left
    (fun acc x => if existsb (String.eqb x) acc then acc else acc ++ [x])
    items [].

Record word_datum := { word : string; weight : jsval; color : string }.

(** The [wordData] array that [createEmailWithWordCloud] builds. *)
Definition wordData (userWordCounts googleWordCounts : jsobject)
  : list word_datum :=
  let allWords := setOf (keys userWordCounts ++ keys googleWordCounts) in
  flat_map
    (fun word =>
       let userCount := orZero (getProp userWordCounts word) in
       let googleCount := orZero (getProp googleWordCounts word) in
       if gtZero userCount
       then [{| word := word; weight := userCount;
                color := if gtZero googleCount then "#4CAF50" else "#808080" |}]
       else [])
    allWords.

(* ===================================================================== *)
(** * The outside world *)

(** A call returns or throws. *)
Inductive outcome (A : Type) :=
| Ok (a : A)
| Throw (error : string).
Arguments Ok {A} a.
Arguments Throw {A} error.

Definition succeeded {A} (r : outcome A) : bool :=
  match r with Ok _ => true | Throw _ => false end.

(** One [url] element of a parsed sitemap: [u.loc[0]] when [u.loc] exists. *)
Record url_entry := { loc : option string }.

(** What [parseStringPromise] resolves to, as far as line 51 reads it:
    [result.urlset.url] is an array, or is missing ([XmlUrlset None]), or
    [result.urlset] itself is missing ([XmlOther]). *)
Inductive xml_result :=
| XmlUrlset (url : option (list url_entry))
| XmlOther.

(** The two captures of [analyzeSSR] and the title of the first. *)
Record capture :=
  { cap_initialHtml : string; cap_pageTitle : string; cap_finalHtml : string }.

(** The [ssrPercentage] column: a computed value or one of the literal
    markers ['N/A'] and ['Error']. *)
Inductive ssr_field :=
| Pct (v : ssr_value)
| Marker (text : string).

(** A record given to [csvWriter.writeRecords]. *)
Record row :=
  { baseUrl : string; analyzedUrl : string; isReact : bool;
    ssrPercentage : ssr_field; depth : string }.

(** The [lowestSSRPage] object. *)
Record lowest_page :=
  { low_url : string; low_ssrPercentage : ssr_value; low_pageTitle : string;
    low_initialHtml : string; low_finalHtml : string }.

(** What a run does to the outside world, in order. [ok] tells whether the
    call returned; [detected] is what the detection returned or threw. An
    [EvWriteRecords] is a call of [csvWriter.writeRecords] with its records,
    whether the call returns or throws. *)
Inductive event :=
| EvDetect (url : string) (detected : outcome bool)
| EvGet (url : string) (ok : bool)
| EvScrape (url : string) (ok : bool)
| EvAnalyze (url : string) (ok : bool)
| EvWriteRecords (records : list row)
| EvEmail (baseUrl : string) (ok : bool).

(** The collaborators. *)
Record Env := {
  World : Type;
  (** lines 267-272: a browser session on [baseUrl] that runs [detectReact] *)
  detectAt : string -> World -> outcome bool * World;
  (** [new URL(url)]: its [protocol] and [hostname] *)
  parseURL : string -> outcome (string * string);
  (** [new URL(input, base).href] *)
  resolveURL : string -> string -> outcome string;
  (** [http.get(url)]: [response.data] *)
  httpGet : string -> World -> outcome string * World;
  (** [new xml2js.Parser().parseStringPromise(data)] *)
  parseXml : string -> outcome xml_result;
  (** the [href] attribute of each [a[href^="/"]] of [cheerio.load(data)] *)
  anchorsOf : string -> list string;
  (** lines 73-83: for the page rendered at [url], the array that
      [querySelectorAll('a[href^="/"]')] and the [map] of line 79 give *)
  renderedAnchors : string -> World -> outcome (list string) * World;
  (** lines 162-192: the two renderings of [url] *)
  renderTwice : string -> World -> outcome capture * World;
  (** [cheerio.load(html)('body').text()] *)
  bodyText : string -> string;
  (** lines 424-533: the word cloud screenshot and the email file *)
  renderEmail : list word_datum -> string -> string -> ssr_value ->
                World -> outcome unit * World;
  (** [csvWriter.writeRecords(records)] of the writer of lines 14-23:
      appends the records to the report file, or throws when the file
      cannot be written *)
  csvWriter : list row -> World -> outcome unit * World
}.

(** A computation: from a world, an outcome, the world after, and the events
    it caused. *)
Definition M (W A : Type) : Type := W -> outcome A * W * list event.

Definition ret {W A} (a : A) : M W A := fun w => (Ok a, w, []).

Definition bind {W A B} (c : M W A) (k : A -> M W B) : M W B :=
  fun w =>
    match c w with
    | (Ok a, w1, ev1) =>
        let '(r, w2, ev2) := k a w1 in (r, w2, ev1 ++ ev2)
    | (Throw error, w1, ev1) => (Throw error, w1, ev1)
    end.

(** [try { body } catch (error) { handler error }]. *)
Definition tryCatch {W A} (body : M W A) (handler : string -> M W A) : M W A :=
  fun w =>
    match body w with
    | (Ok a, w1, ev1) => (Ok a, w1, ev1)
    | (Throw error, w1, ev1) =>
        let '(r, w2, ev2) := handler error w1 in (r, w2, ev1 ++ ev2)
    end.

(** A call without effect on the world that may throw. *)
Definition pure {W A} (r : outcome A) : M W A := fun w => (r, w, []).

(** A call into the world, recorded by [ev]. *)
Definition call {W A} (f : W -> outcome A * W) (ev : outcome A -> event) : M W A :=
  fun w => let '(r, w1) := f w in (r, w1, [ev r]).

Definition flag {A} (ev : bool -> event) (r : outcome A) : event :=
  ev (succeeded r).

Notation "x <- c ;; k" := (bind c (fun x => k))
  (at level 61, c at next level, right associativity).
Notation "c ;;; k" := (bind c (fun _ => k))
  (at level 61, right associativity).

(** [for (const x of xs) { s = body s x }], stopping at the first throw. *)
Fixpoint forEach {W S A} (body : S -> A -> M W S) (xs : list A) (s : S) : M W S :=
  match xs with
  | [] => ret s
  | x :: r => s1 <- body s x ;; forEach body r s1
  end.

(** [xs.map(f)] for an [f] that may throw. *)
Fixpoint mapOutcome {A B} (f : A -> outcome B) (xs : list A) : outcome (list B) :=
  match xs with
  | [] => Ok []
  | x :: r =>
      match f x with
      | Throw error => Throw error
      | Ok y =>
          match mapOutcome f r with
          | Throw error => Throw error
          | Ok ys => Ok (y :: ys)
          end
      end
  end.

(** The rows a trace handed to the report writer, in order. *)
Definition rowsWritten (evs : list event) : list row :=
  flat_map (fun ev => match ev with EvWriteRecords rs => rs | _ => [] end) evs.

Definition events {W A} (run : outcome A * W * list event) : list event := snd run.
Definition result {W A} (run : outcome A * W * list event) : outcome A := fst (fst run).

Section Pipeline.

Variable E : Env.

Local Abbreviation W := (World E).

(* =================================================================== *)
(** ** Text extraction (lines 210-213) and the SSR percentage (231-242) *)

(** [extractText(html)]. *)
Definition extractText (html : string) : string :=
  trim (collapseSpaces (bodyText E html)).

(** [calculateSSRPercentage(initialHtml, finalHtml)]. A [length] is an
    integer Number. *)
Definition calculateSSRPercentage (initialHtml finalHtml : string) : ssr_value :=
  let initialText := extractText initialHtml in
  let finalText := extractText finalHtml in
  let initialLength := String.length initialText in
  let finalLength := String.length finalText in
  if (finalLength =? 0)%nat then SsrNumber (S754_zero false)
  else
    let percentage :=
      numMul (numDiv (numberOfZ (Z.of_nat initialLength))
                     (numberOfZ (Z.of_nat finalLength)))
             (numberOfZ 100) in
    SsrString (toFixed2 percentage).

(* =================================================================== *)
(** ** Link discovery (lines 32-86) *)

(** [fetchWithJitter(url)]; the sleep is not modelled. *)
Definition fetchWithJitter (url : string) : M W string :=
  call (httpGet E url) (flag (EvGet url)).

(** [scrapeInternalLinks(url)]. *)
Definition scrapeInternalLinks (url : string) : M W (list string) :=
  anchors <- call (renderedAnchors E url) (flag (EvScrape url)) ;;
  ret (uniqueLinks anchors).

(** [result.urlset.url.map(u => u.loc[0])]: a TypeError when a part that
    is read is missing. *)
Definition sitemapLinks (parsed : xml_result) : outcome (list string) :=
  match parsed with
  | XmlUrlset (Some entries) =>
      mapOutcome
        (fun u => match loc u with
                  | Some l => Ok l
                  | None => Throw "TypeError"
                  end)
        entries
  | _ => Throw "TypeError"
  end.

(** The body of the [try] of lines 44-62 for one [path]. *)
Definition trySitemapPath (url baseUrl path : string) : M W (list string) :=
  sitemapUrl <- pure (resolveURL E ("/" ++ path)%string baseUrl) ;;
  data <- fetchWithJitter sitemapUrl ;;
  if String.eqb path "sitemap.xml" then
    parsed <- pure (parseXml E data) ;;
    pure (sitemapLinks parsed)
  else
    links <- pure (mapOutcome (fun href => resolveURL E href url)
                              (anchorsOf E data)) ;;
    ret (uniqueLinks links).

(** The loop of lines 42-66 over the paths left, then lines 68-69. *)
Fixpoint fetchSitemapFrom (url baseUrl : string) (sitemapPaths : list string)
  : M W (list string) :=
  match sitemapPaths with
  | [] => scrapeInternalLinks url
  | path :: rest =>
      tryCatch (trySitemapPath url baseUrl path)
               (fun _ => fetchSitemapFrom url baseUrl rest)
  end.

(** [fetchSitemap(url)]. *)
Definition fetchSitemap (url : string) : M W (list string) :=
  let sitemapPaths := ["sitemap.xml"; "sitemap"; "site-map"] in
  let baseUrl := if endsWithSlash url then sliceDropLast url else url in
  fetchSitemapFrom url baseUrl sitemapPaths.

(* =================================================================== *)
(** ** The analysis of one page (lines 160-208) *)

Definition analyzeSSR (url : string) : M W (capture * ssr_value) :=
  cap <- call (renderTwice E url) (flag (EvAnalyze url)) ;;
  ret (cap, calculateSSRPercentage (cap_initialHtml cap) (cap_finalHtml cap)).

(* =================================================================== *)
(** ** The orchestrator (lines 263-381) *)

(** [getHomepageUrl(url)]. *)
Definition getHomepageUrl (url : string) : M W string :=
  parsedUrl <- pure (parseURL E url) ;;
  ret (fst parsedUrl ++ "//" ++ snd parsedUrl)%string.

(** [await csvWriter.writeRecords(records)]. *)
Definition writeRecords (records : list row) : M W unit :=
  call (csvWriter E records) (fun _ => EvWriteRecords records).

(** The variables [results] and [lowestSSRPage]. *)
Record site_state :=
  { results : list row; lowestSSRPage : option lowest_page }.

(** [if (pageUrl)]: a String that is not empty. *)
Definition truthy (pageUrl : option string) : bool :=
  match pageUrl with
  | Some (String _ _) => true
  | _ => false
  end.

(** The body of the loops of lines 295-316 and 323-344, which are the
    same text. *)
Definition analyzePage (baseUrl : string) (isReact : bool)
    (st : site_state) (entry : option string * string) : M W site_state :=
  let '(slot, depth) := entry in
  match slot with
  | Some pageUrl =>
      if truthy slot then
        r <- analyzeSSR pageUrl ;;
        let '(cap, ssrPercentage) := r in
        let found :=
          {| low_url := pageUrl; low_ssrPercentage := ssrPercentage;
             low_pageTitle := cap_pageTitle cap;
             low_initialHtml := cap_initialHtml cap;
             low_finalHtml := cap_finalHtml cap |} in
        ret {| results :=
                 results st ++
                 [{| baseUrl := baseUrl; analyzedUrl := pageUrl;
                     isReact := isReact; ssrPercentage := Pct ssrPercentage;
                     depth := depth |}];
               lowestSSRPage :=
                 match lowestSSRPage st with
                 | None => Some found
                 | Some lowest =>
                     if numLt (parseFloat ssrPercentage)
                              (parseFloat (low_ssrPercentage lowest))
                     then Some found else Some lowest
                 end |}
      else ret st
  | None => ret st
  end.

(** [const [homePage, midPage, deepPage] = selection]: a slot beyond the
    end of the array is [undefined]. *)
Definition element (selection : list (option string)) (i : nat) : option string :=
  match nth_error selection i with
  | Some slot => slot
  | None => None
  end.

(** Lines 293-316 (and 321-344) after [selectPages] returned [selection]. *)
Definition analyzePages (baseUrl : string) (isReact : bool)
    (selection : list (option string)) (st : site_state) : M W site_state :=
  let homePage := element selection 0 in
  let midPage := element selection 1 in
  let deepPage := element selection 2 in
  forEach (analyzePage baseUrl isReact)
          [(homePage, "Homepage"); (midPage, "Mid"); (deepPage, "Deep")] st.

(** [createEmailWithWordCloud], lines 404-534. *)
Definition createEmailWithWordCloud (userWordCounts googleWordCounts : jsobject)
    (pageTitle baseUrl : string) (ssr : ssr_value) : M W unit :=
  call (renderEmail E (wordData userWordCounts googleWordCounts)
                      pageTitle baseUrl ssr)
       (flag (EvEmail baseUrl)).

Definition notApplicableRow (baseUrl : string) (isReact : bool) : row :=
  {| baseUrl := baseUrl; analyzedUrl := baseUrl; isReact := isReact;
     ssrPercentage := Marker "N/A"; depth := "N/A" |}.

Definition errorRow (inputUrl : string) : row :=
  {| baseUrl := inputUrl; analyzedUrl := inputUrl; isReact := false;
     ssrPercentage := Marker "Error"; depth := "Error" |}.

(** Lines 292-346: the pages of the sitemap when it has more than two, else
    the pages of the links scraped from the homepage when there are any. *)
Definition analyzeSelected (baseUrl : string) (isReact : bool)
    (homepageUrl : string) (sitemapUrls : list string) (start : site_state)
  : M W site_state :=
  if (2 <? List.length sitemapUrls)%nat then
    analyzePages baseUrl isReact (selectPages sitemapUrls) start
  else
    internalLinks <- scrapeInternalLinks homepageUrl ;;
    if (0 <? List.length internalLinks)%nat then
      analyzePages baseUrl isReact (selectPages internalLinks) start
    else ret start.

(** Lines 351-364. The email receives the percentage of the lowest page,
    from which line 360 derives the unreadable percentage. *)
Definition emailLowest (baseUrl : string) (lowestSSRPage : option lowest_page)
  : M W unit :=
  match lowestSSRPage with
  | Some lowest =>
      let userText := extractText (low_finalHtml lowest) in
      let googleText := extractText (low_initialHtml lowest) in
      let userWordCounts := generateWordFrequencies userText in
      let googleWordCounts := generateWordFrequencies googleText in
      createEmailWithWordCloud userWordCounts googleWordCounts
        (low_pageTitle lowest) baseUrl (low_ssrPercentage lowest)
  | None => ret tt
  end.

(** The [try] block of [analyzeWebsite], lines 265-364. *)
Definition analyzeWebsiteBody (inputUrl : string) : M W unit :=
  let baseUrl := inputUrl in
  isReact <- call (detectAt E baseUrl) (EvDetect baseUrl) ;;
  if negb isReact then
    writeRecords [notApplicableRow baseUrl isReact]
  else
    let start := {| results := []; lowestSSRPage := None |} in
    homepageUrl <- getHomepageUrl baseUrl ;;
    sitemapUrls <- fetchSitemap homepageUrl ;;
    st <- analyzeSelected baseUrl isReact homepageUrl sitemapUrls start ;;
    writeRecords (results st) ;;;
    emailLowest baseUrl (lowestSSRPage st).

(** [analyzeWebsite(inputUrl)]. *)
Definition analyzeWebsite (inputUrl : string) : M W unit :=
  tryCatch (analyzeWebsiteBody inputUrl)
           (fun _ => writeRecords [errorRow inputUrl]).

(** The loop of lines 394-396 over the [url] column of the input file. *)
Definition processWebsites (websites : list string) : M W unit :=
  forEach (fun _ website => analyzeWebsite website) websites tt.

End Pipeline.

(* ===================================================================== *)
(** * A scripted site

    A closed [Env] for running the pipeline on examples: one site at
    [https://a.test] whose answers are given by a [script]. The body of a
    response is the address it came from and the text of a page is its
    HTML. *)

Record script := {
  (** what the detection session returns *)
  sc_detect : outcome bool;
  (** [GET /sitemap.xml] and its parse *)
  sc_sitemapXml : outcome xml_result;
  (** the root-relative hrefs of [GET /sitemap] and of [GET /site-map] *)
  sc_sitemapHtml : outcome (list string);
  (** the resolved anchors of the rendered homepage *)
  sc_rendered : outcome (list string);
  (** the pages whose rendering throws *)
  sc_broken : list string;
  (** whether the email step throws *)
  sc_emailFails : bool
}.

Definition scriptedEnv (sc : script) : Env :=
  {| World := unit;
     detectAt := fun _ w => (sc_detect sc, w);
     parseURL := fun _ => Ok ("https:", "a.test");
     resolveURL := fun input base => Ok ("https://a.test" ++ input)%string;
     httpGet := fun url w =>
       if String.eqb url "https://a.test/sitemap.xml" then
         match sc_sitemapXml sc with
         | Ok _ => (Ok url, w)
         | Throw error => (Throw error, w)
         end
       else
         match sc_sitemapHtml sc with
         | Ok _ => (Ok url, w)
         | Throw error => (Throw error, w)
         end;
     parseXml := fun _ => sc_sitemapXml sc;
     anchorsOf := fun _ =>
       match sc_sitemapHtml sc with Ok hrefs => hrefs | Throw _ => [] end;
     renderedAnchors := fun _ w => (sc_rendered sc, w);
     renderTwice := fun url w =>
       if existsb (String.eqb url) (sc_broken sc)
       then (Throw "net::ERR_FAILED", w)
       else (Ok {| cap_initialHtml := "loading"; cap_pageTitle := url;
                   cap_finalHtml := ("loading " ++ url)%string |}, w);
     bodyText := fun html => html;
     renderEmail := fun _ _ _ _ w =>
       if sc_emailFails sc then (Throw "TimeoutError", w) else (Ok tt, w);
     csvWriter := fun _ w => (Ok tt, w) |}.

(** The same site with a report file that cannot be written. *)
Definition readOnlyReport (sc : script) : Env :=
  {| World := unit;
     detectAt := detectAt (scriptedEnv sc);
     parseURL := parseURL (scriptedEnv sc);
     resolveURL := resolveURL (scriptedEnv sc);
     httpGet := httpGet (scriptedEnv sc);
     parseXml := parseXml (scriptedEnv sc);
     anchorsOf := anchorsOf (scriptedEnv sc);
     renderedAnchors := renderedAnchors (scriptedEnv sc);
     renderTwice := renderTwice (scriptedEnv sc);
     bodyText := bodyText (scriptedEnv sc);
     renderEmail := renderEmail (scriptedEnv sc);
     csvWriter := fun _ w => (Throw "EACCES", w) |}.

Definition entry (l : string) : url_entry := {| loc := Some l |}.

(* ===================================================================== *)
(** * The traces of a site *)

Definition discoveryEvent (ev : event) : Prop :=
  match ev with
  | EvGet _ _ | EvScrape _ _ => True
  | _ => False
  end.

Definition notWrite (ev : event) : Prop :=
  match ev with
  | EvWriteRecords _ => False
  | _ => True
  end.

(** A row of an analyzed page of the site [url]. *)
Definition pageRow (url : string) (r : row) : Prop :=
  baseUrl r = url /\ isReact r = true /\
  (exists v, ssrPercentage r = Pct v) /\
  In (depth r) ["Homepage"; "Mid"; "Deep"].

(** The events of the pages whose analysis returned, one per row. *)
Definition analyzedEvents (rows : list row) : list event :=
  map (fun r => EvAnalyze (analyzedUrl r) true) rows.

(** What follows the [writeRecords] of line 348: the row of the [catch]
    when that write throws; else nothing when no page was analyzed, else the
    email, and the row of the [catch] when it throws. *)
Inductive email_trace (url : string) (rows : list row) : list event -> Prop :=
| EmailUnreached : email_trace url rows [EvWriteRecords [errorRow url]]
| EmailNone : rows = [] -> email_trace url rows []
| EmailSent : rows <> [] -> email_trace url rows [EvEmail url true]
| EmailFailed : rows <> [] ->
    email_trace url rows [EvEmail url false; EvWriteRecords [errorRow url]].

(** The shapes of the trace of [analyzeWebsite url]: the site is skipped
    (and the [catch] runs when the write of its row throws), or something
    throws before line 348, or line 348 is reached. *)
Inductive site_trace (url : string) : list event -> Prop :=
| TraceSkipped :
    site_trace url [EvDetect url (Ok false);
                    EvWriteRecords [notApplicableRow url false]]
| TraceSkippedUnwritten :
    site_trace url [EvDetect url (Ok false);
                    EvWriteRecords [notApplicableRow url false];
                    EvWriteRecords [errorRow url]]
| TraceFailed (pre : list event) :
    Forall notWrite pre ->
    site_trace url (pre ++ [EvWriteRecords [errorRow url]])
| TraceAnalyzed (discovery : list event) (rows : list row) (mail : list event) :
    Forall discoveryEvent discovery ->
    Forall (pageRow url) rows ->
    email_trace url rows mail ->
    site_trace url
      (EvDetect url (Ok true) :: discovery ++ analyzedEvents rows ++
       EvWriteRecords rows :: mail).

(** What the analysis of pages adds to [results] and to the trace: a row
    and an event per page analyzed, or, when it throws, the event of the
    page that failed at the end. *)
Definition pages_outcome (E : Env) (url : string) (st : site_state)
    (run : outcome site_state * World E * list event) : Prop :=
  match run with
  | (Ok st', _, evs) =>
      exists rows,
        results st' = results st ++ rows /\
        evs = analyzedEvents rows /\
        Forall (pageRow url) rows /\
        (rows = [] -> st' = st) /\
        (rows <> [] -> lowestSSRPage st' <> None)
  | (Throw _, _, evs) => Forall notWrite evs
  end.

(** Lines 292-346: scrape events, then the events of the pages. *)
Definition selected_outcome (E : Env) (url : string)
    (run : outcome site_state * World E * list event) : Prop :=
  match run with
  | (Ok st, _, evs) =>
      exists discovery,
        evs = discovery ++ analyzedEvents (results st) /\
        Forall discoveryEvent discovery /\
        Forall (pageRow url) (results st) /\
        (results st = [] -> lowestSSRPage st = None) /\
        (results st <> [] -> lowestSSRPage st <> None)
  | (Throw _, _, evs) => Forall notWrite evs
  end.

(* ===================================================================== *)
(** * Rounding: two notions for the proofs *)

(** The round and sticky bits together: something was shifted out. *)
Definition inexact (mrs : shr_record) : bool := shr_r mrs || shr_s mrs.

(** The value the mantissa [m] at exponent [e] with location [l] stands for
    is at most [C * 2^c]: [m * 2^e] is at most that, and below it when some
    more is to be added. *)
Definition below (C c m e : Z) (l : location) : Prop :=
  (0 <= m /\ e <= c /\ m <= C * 2 ^ (c - e))%Z /\
  (l <> loc_Exact -> (m < C * 2 ^ (c - e))%Z).

(* ===================================================================== *)
(** * The frequency of a word in a frequency map

    The count stored under [w] as an own property, [0] when there is none. *)
Definition frequency (counts : jsobject) (w : string) : N :=
  match getOwn counts w with
  | Some (VNum n) => n
  | _ => 0%N
  end.

(* ===================================================================== *)
(** * Deduplication as the specification words it

    "Deduplicate preserving first-seen order": an element is kept when it
    was not seen before. [uniqueLinks] is compared with
    [firstSeen []] below. *)
Fixpoint firstSeen (seen l : list string) : list string :=
  match l with
  | [] => []
  | x :: r =>
      if existsb (String.eqb x) seen then firstSeen (seen ++ [x]) r
      else x :: firstSeen (seen ++ [x]) r
  end.

(* ===================================================================== *)
(** * Example sites *)

Definition staticSite : script :=
  {| sc_detect := Ok false; sc_sitemapXml := Throw "404";
     sc_sitemapHtml := Throw "404"; sc_rendered := Ok [];
     sc_broken := []; sc_emailFails := false |}.

Definition fiveUrlSite : script :=
  {| sc_detect := Ok true;
     sc_sitemapXml :=
       Ok (XmlUrlset (Some [entry "https://a.test/"; entry "https://a.test/a";
                            entry "https://a.test/b"; entry "https://a.test/c";
                            entry "https://a.test/d"]));
     sc_sitemapHtml := Ok ["/x"; "/y"]; sc_rendered := Ok ["https://a.test/z"];
     sc_broken := []; sc_emailFails := false |}.

Definition repeatedLocSite : script :=
  {| sc_detect := Ok true;
     sc_sitemapXml :=
       Ok (XmlUrlset (Some [entry "https://a.test/"; entry "https://a.test/p";
                            entry "https://a.test/p"]));
     sc_sitemapHtml := Throw "404"; sc_rendered := Ok [];
     sc_broken := []; sc_emailFails := false |}.

Definition brokenMidSite : script :=
  {| sc_detect := Ok true; sc_sitemapXml := Throw "404";
     sc_sitemapHtml := Ok ["/a"; "/b"; "/a"; "/c"]; sc_rendered := Ok [];
     sc_broken := ["https://a.test/b"]; sc_emailFails := false |}.

Definition brokenDeepSite : script :=
  {| sc_detect := Ok true;
     sc_sitemapXml :=
       Ok (XmlUrlset (Some [entry "https://a.test/"; entry "https://a.test/docs";
                            entry "https://a.test/faq"]));
     sc_sitemapHtml := Throw "404"; sc_rendered := Ok [];
     sc_broken := ["https://a.test/faq"]; sc_emailFails := false |}.

Definition noLinksSite : script :=
  {| sc_detect := Ok true; sc_sitemapXml := Throw "404";
     sc_sitemapHtml := Throw "404"; sc_rendered := Ok [];
     sc_broken := []; sc_emailFails := false |}.

Definition twoRelevantSite : script :=
  {| sc_detect := Ok true;
     sc_sitemapXml :=
       Ok (XmlUrlset (Some [entry "https://a.test/"; entry "https://a.test/blog/1";
                            entry "https://a.test/about";
                            entry "https://a.test/Shop"]));
     sc_sitemapHtml := Throw "404"; sc_rendered := Ok [];
     sc_broken := []; sc_emailFails := false |}.

Definition sitemapIndexSite : script :=
  {| sc_detect := Ok true; sc_sitemapXml := Ok XmlOther;
     sc_sitemapHtml := Ok ["/a"; "/b"; "/a"]; sc_rendered := Ok [];
     sc_broken := []; sc_emailFails := false |}.

Definition emptyHtmlSitemapSite : script :=
  {| sc_detect := Ok true; sc_sitemapXml := Throw "404";
     sc_sitemapHtml := Ok []; sc_rendered := Ok ["https://a.test/x"];
     sc_broken := []; sc_emailFails := false |}.

(** The state and the events of the page loop on two pages of
    [twoRelevantSite]. *)
Definition twoPagesState : site_state :=
  Eval vm_compute in
    match result (analyzePages (scriptedEnv twoRelevantSite) "https://a.test/" true
                    [Some "https://a.test/"; Some "https://a.test/blog/1"]
                    {| results := []; lowestSSRPage := None |} tt) with
    | Ok st => st
    | Throw _ => {| results := []; lowestSSRPage := None |}
    end.

Definition twoPagesEvents : list event :=
  [EvAnalyze "https://a.test/" true; EvAnalyze "https://a.test/blog/1" true].


Definition emailFailsSite : script :=
  {| sc_detect := Ok true;
     sc_sitemapXml :=
       Ok (XmlUrlset (Some [entry "https://a.test/"; entry "https://a.test/a";
                            entry "https://a.test/b"]));
     sc_sitemapHtml := Throw "404"; sc_rendered := Ok [];
     sc_broken := []; sc_emailFails := true |}.
(* ===================================================================== *)
(** * Rounding: the lower side *)

(** The mantissa [m] at exponent [e] stands for [C * 2^c] at least. *)
Definition above (C c m e : Z) : Prop :=
  ((e <= c -> C * 2 ^ (c - e) <= m) /\ (c < e -> C <= m * 2 ^ (e - c)))%Z.

(* ===================================================================== *)
(** * The occurrences of a word in a text *)

(** How many of the pieces that line 217 makes of [text] are [w]. *)
Definition occurrences (text w : string) : nat :=
  count_occ string_dec (splitNonWord false EmptyString (toLowerCase text)) w.

(** What is stored under an own key after [c] increments: a count, or for
    the name that [Object.prototype] has too the text with [c] digits. *)
Definition storedCount (w : string) (c : nat) : jsval :=
  if String.eqb w "constructor" then VText c else VNum (N.of_nat c).

(* ===================================================================== *)
(** * The page loop: what it analyzes and what it keeps as lowest *)

(** The entries of the loop that the guard of line 296 lets through, with
    their labels, in order. *)
Definition passing (entries : list (option string * string)) : list (string * string) :=
  flat_map
    (fun entry : option string * string =>
       match fst entry with
       | Some pageUrl => if truthy (fst entry) then [(pageUrl, snd entry)] else []
       | None => []
       end)
    entries.

(** The pages the loop analyzes for a selection when nothing throws. *)
Definition analyzable (selection : list (option string)) : list (string * string) :=
  passing [(element selection 0, "Homepage"); (element selection 1, "Mid");
           (element selection 2, "Deep")].

(** [lowestSSRPage] is one of the pages of [results], and no page of
    [results] has a percentage below its percentage. *)
Definition lowestOf (st : site_state) : Prop :=
  match lowestSSRPage st with
  | None => results st = []
  | Some lowest =>
      (exists r, In r (results st) /\ analyzedUrl r = low_url lowest /\
                 ssrPercentage r = Pct (low_ssrPercentage lowest)) /\
      forall r v, In r (results st) -> ssrPercentage r = Pct v ->
                  numLt (parseFloat v) (parseFloat (low_ssrPercentage lowest)) = false
  end.


(* ===================================================================== *)
(** * The name of the email file *)

(** [ch] is not matched by [/[^a-z0-9]/i]: a letter of ASCII in either
    case, or a digit. *)
Definition is_alnum (c : ascii) : bool := is_upper c || is_lower c || is_digit c.

(** [s.replace(/[^a-z0-9]/gi, '_')]. *)
Fixpoint replaceNonAlnum (s : string) : string :=
  match s with
  | EmptyString => EmptyString
  | String c r => String (if is_alnum c then c else "_"%char) (replaceNonAlnum r)
  end.

(** Line 531, with the text of [Date.now()] as [stamp]. *)
Definition fileName (baseUrl stamp : string) : string :=
  ("email_" ++ toLowerCase (replaceNonAlnum baseUrl) ++ "_" ++ stamp ++ ".html")%string.

(** The characters of a file name that no file system treats specially. *)
Definition is_plain (c : ascii) : bool :=
  is_lower c || is_digit c || Ascii.eqb c "_" || Ascii.eqb c ".".

(* ===================================================================== *)
(** * A report that can be written *)

(** Every call of [csvWriter.writeRecords] returns. *)
Definition reportWritable (E : Env) : Prop :=
  forall (records : list row) (w : World E),
    exists w', csvWriter E records w = (Ok tt, w').

(* ===================================================================== *)
(** * A site without a row *)

(** The links the pages are selected from (lines 292-293 and 319-321):
    those of discovery when there are more than two, else those scraped
    from the homepage. *)
Definition candidateLinks (E : Env) (homepageUrl : string)
    (sitemapUrls : list string) : M (World E) (list string) :=
  if (2 <? List.length sitemapUrls)%nat then ret sitemapUrls
  else scrapeInternalLinks E homepageUrl.

(** A run of [analyzeWebsite] in which the detection returns [true], the
    address parses, discovery and the scraping return, none of the selected
    slots holds a non-empty URL, and the report takes the empty list. *)
Definition silent (E : Env) (url : string) (w : World E) : Prop :=
  exists (w1 : World E) (parsedUrl : string * string)
         (sitemapUrls : list string) (w2 : World E) (ev2 : list event)
         (links : list string) (w3 : World E) (ev3 : list event)
         (w4 : World E),
    detectAt E url w = (Ok true, w1) /\
    parseURL E url = Ok parsedUrl /\
    fetchSitemap E (fst parsedUrl ++ "//" ++ snd parsedUrl)%string w1
      = (Ok sitemapUrls, w2, ev2) /\
    candidateLinks E (fst parsedUrl ++ "//" ++ snd parsedUrl)%string
                   sitemapUrls w2 = (Ok links, w3, ev3) /\
    analyzable (selectPages links) = [] /\
    csvWriter E [] w3 = (Ok tt, w4).

(* ===================================================================== *)
(** * Page selection: properties *)

Lemma selectPages_short (urls : list string) :
  (List.length urls < 3)%nat -> selectPages urls = [nth_error urls 0].
Proof.
  intros H. unfold selectPages.
  destruct (Nat.ltb_spec (List.length urls) 3) as [_ | Hge]; [reflexivity | lia].
Qed.

(** C9. When the candidate list has at least three URLs and exactly two of
    them are SEO-relevant, the mid page and the deep page that
    [selectPages] returns are the same URL: the second relevant one. *)
Theorem selectPages_mid_equals_deep (urls : list string) :
  (3 <= List.length urls)%nat ->
  List.length (filter isSEORelevantPage urls) = 2%nat ->
  exists page,
    nth_error (filter isSEORelevantPage urls) 1 = Some page /\
    selectPages urls = [nth_error urls 0; Some page; Some page].
Proof.
  intros Hlen Hrel. unfold selectPages.
  destruct (Nat.ltb_spec (List.length urls) 3) as [Hlt | _]; [lia |].
  rewrite Hrel.
  destruct (filter isSEORelevantPage urls) as [| a [| page [| c rest]]];
    try discriminate Hrel.
  exists page. split; reflexivity.
Qed.

Lemma selectPages_mid_equals_deep_witness :
  let urls := ["https://a.test/"; "https://a.test/blog/1";
               "https://a.test/about"; "https://a.test/Shop"] in
  (3 <= List.length urls)%nat /\
  List.length (filter isSEORelevantPage urls) = 2%nat /\
  exists page,
    nth_error (filter isSEORelevantPage urls) 1 = Some page /\
    selectPages urls = [nth_error urls 0; Some page; Some page].
Proof.
  cbv zeta. split; [simpl; lia |]. split; [reflexivity |].
  apply (selectPages_mid_equals_deep
           ["https://a.test/"; "https://a.test/blog/1";
            "https://a.test/about"; "https://a.test/Shop"]);
    [simpl; lia | reflexivity].
Defined.

(** On such a list the orchestrator analyzes the page twice and writes it
    twice, as the mid row and as the deep row. *)
Example analyzeWebsite_same_page_twice :
  map (fun r => (analyzedUrl r, depth r))
      (rowsWritten
         (events (analyzeWebsite (scriptedEnv twoRelevantSite) "https://a.test/" tt)))
  = [("https://a.test/", "Homepage"); ("https://a.test/Shop", "Mid");
     ("https://a.test/Shop", "Deep")].
Proof. reflexivity. Qed.

(* ===================================================================== *)
(** * The orchestrator: the short paths *)

(** C10. On the empty candidate list [selectPages] returns the one-slot
    array whose slot is [undefined], and the page loop fed with it does no
    analysis: it returns at once, state and world unchanged, no event. *)
Theorem selectPages_empty_no_analysis (E : Env) (baseUrl : string)
    (isReact : bool) (st : site_state) (w : World E) :
  selectPages [] = [None] /\
  analyzePages E baseUrl isReact (selectPages []) st w = (Ok st, w, []).
Proof. split; reflexivity. Qed.

(** C7. When the detection session returns [false] and the report takes
    the row, the run of [analyzeWebsite] consists of that session and one
    [writeRecords] call with a single row whose SSR Percentage and Page
    Depth are both [N/A]: no fetch, no scrape, no page analysis, no
    email. *)
Theorem analyzeWebsite_not_react (E : Env) (inputUrl : string)
    (w w' w'' : World E) :
  detectAt E inputUrl w = (Ok false, w') ->
  csvWriter E
    [{| baseUrl := inputUrl; analyzedUrl := inputUrl; isReact := false;
        ssrPercentage := Marker "N/A"; depth := "N/A" |}] w' = (Ok tt, w'') ->
  analyzeWebsite E inputUrl w =
    (Ok tt, w'',
     [EvDetect inputUrl (Ok false);
      EvWriteRecords
        [{| baseUrl := inputUrl; analyzedUrl := inputUrl; isReact := false;
            ssrPercentage := Marker "N/A"; depth := "N/A" |}]]).
Proof.
  intros Hdetect Hwrite.
  unfold analyzeWebsite, tryCatch, analyzeWebsiteBody, bind, writeRecords, call,
    notApplicableRow.
  rewrite Hdetect. cbn [negb]. rewrite Hwrite. reflexivity.
Qed.

Lemma analyzeWebsite_not_react_witness :
  detectAt (scriptedEnv staticSite) "https://a.test/" tt = (Ok false, tt) /\
  analyzeWebsite (scriptedEnv staticSite) "https://a.test/" tt =
    (Ok tt, tt,
     [EvDetect "https://a.test/" (Ok false);
      EvWriteRecords
        [{| baseUrl := "https://a.test/"; analyzedUrl := "https://a.test/";
            isReact := false; ssrPercentage := Marker "N/A";
            depth := "N/A" |}]]).
Proof.
  split; [reflexivity |].
  apply (analyzeWebsite_not_react (scriptedEnv staticSite) "https://a.test/"
           tt tt tt); reflexivity.
Defined.

(* ===================================================================== *)
(** * Link discovery: properties *)

Lemma mapOutcome_all_ok {A B} (f : A -> outcome B) (xs : list A) (ys : list B) :
  map f xs = map Ok ys -> mapOutcome f xs = Ok ys.
Proof.
  revert ys. induction xs as [| x r IH]; intros [| y ys] H; simpl in *;
    try discriminate; [reflexivity |].
  injection H as Hx Hr. rewrite Hx, (IH _ Hr). reflexivity.
Qed.

Lemma sitemapLinks_all_loc (entries : list url_entry) (links : list string) :
  map loc entries = map Some links ->
  sitemapLinks (XmlUrlset (Some entries)) = Ok links.
Proof.
  intros H. unfold sitemapLinks. apply mapOutcome_all_ok.
  revert links H. induction entries as [| u r IH]; intros [| l ls] H;
    simpl in *; try discriminate; [reflexivity |].
  injection H as Hu Hr. rewrite Hu. f_equal. apply IH, Hr.
Qed.

(** C6. When the address of [/sitemap.xml] resolves, its fetch returns, the
    response parses to a [urlset] whose [url] entries (one at least) all
    have a [loc], then [fetchSitemap] returns exactly those [loc] values in
    order, and the fetch of [/sitemap.xml] is the only thing it did: no
    fetch of [/sitemap] or [/site-map], no rendering of the homepage. *)
Theorem fetchSitemap_xml_first (E : Env) (url sitemapUrl data : string)
    (w w' : World E) (entries : list url_entry) (links : list string) :
  resolveURL E "/sitemap.xml" (if endsWithSlash url then sliceDropLast url else url)
    = Ok sitemapUrl ->
  httpGet E sitemapUrl w = (Ok data, w') ->
  parseXml E data = Ok (XmlUrlset (Some entries)) ->
  entries <> [] ->
  map loc entries = map Some links ->
  fetchSitemap E url w = (Ok links, w', [EvGet sitemapUrl true]).
Proof.
  intros Hurl Hget Hparse _ Hloc.
  unfold fetchSitemap, fetchSitemapFrom, tryCatch, trySitemapPath.
  unfold bind, pure, fetchWithJitter, call.
  change ("/" ++ "sitemap.xml")%string with "/sitemap.xml".
  rewrite Hurl, Hget. simpl. rewrite Hparse.
  rewrite (sitemapLinks_all_loc _ _ Hloc). reflexivity.
Qed.

Lemma fetchSitemap_xml_first_witness :
  fetchSitemap (scriptedEnv fiveUrlSite) "https://a.test" tt =
    (Ok ["https://a.test/"; "https://a.test/a"; "https://a.test/b";
         "https://a.test/c"; "https://a.test/d"],
     tt, [EvGet "https://a.test/sitemap.xml" true]).
Proof.
  apply (fetchSitemap_xml_first (scriptedEnv fiveUrlSite) "https://a.test"
           "https://a.test/sitemap.xml" "https://a.test/sitemap.xml" tt tt
           [entry "https://a.test/"; entry "https://a.test/a";
            entry "https://a.test/b"; entry "https://a.test/c";
            entry "https://a.test/d"]);
    [reflexivity | reflexivity | reflexivity | discriminate | reflexivity].
Defined.

(* ===================================================================== *)
(** * Deduplication *)

Lemma existsb_eqb_In (x : string) (l : list string) :
  existsb (String.eqb x) l = true <-> In x l.
Proof.
  rewrite existsb_exists. split.
  - intros [y [Hy Heq]]. apply String.eqb_eq in Heq. now subst.
  - intros H. exists x. split; [assumption | apply String.eqb_refl].
Qed.

Lemma indexOf_range (l : list string) (v : string) :
  (indexOf l v = (-1)%Z /\ ~ In v l) \/
  (0 <= indexOf l v < Z.of_nat (List.length l) /\ In v l)%Z.
Proof.
  induction l as [| x r IH]; simpl.
  - left. split; [reflexivity | tauto].
  - destruct (String.eqb_spec x v) as [-> | Hne].
    + right. split; [lia | now left].
    + destruct IH as [[Hi Hn] | [Hi Hin]].
      * left. rewrite Hi. simpl. split; [reflexivity | tauto].
      * right. destruct (Z.ltb_spec (indexOf r v) 0); [lia |].
        split; [lia | now right].
Qed.

Lemma indexOf_app_seen (pre l : list string) (v : string) :
  In v pre -> (indexOf (pre ++ l) v < Z.of_nat (List.length pre))%Z.
Proof.
  induction pre as [| x r IH]; simpl; [tauto |].
  intros Hin. destruct (String.eqb_spec x v) as [-> | Hne]; [lia |].
  destruct Hin as [Heq | Hin]; [congruence |].
  specialize (IH Hin).
  destruct (Z.ltb_spec (indexOf (r ++ l) v) 0); lia.
Qed.

Lemma indexOf_app_fresh (pre r : list string) (v : string) :
  ~ In v pre -> indexOf (pre ++ v :: r) v = Z.of_nat (List.length pre).
Proof.
  induction pre as [| x p IH]; simpl; intros Hn.
  - now rewrite String.eqb_refl.
  - destruct (String.eqb_spec x v) as [-> | Hne]; [tauto |].
    rewrite IH by tauto.
    destruct (Z.ltb_spec (Z.of_nat (List.length p)) 0); lia.
Qed.

Lemma filter_from_firstSeen (pre l : list string) :
  filter_from (fun value index => (indexOf (pre ++ l) value =? index)%Z)
              (Z.of_nat (List.length pre)) l
  = firstSeen pre l.
Proof.
  revert pre. induction l as [| x r IH]; intros pre; simpl; [reflexivity |].
  assert (Hstep : filter_from
            (fun value index => (indexOf (pre ++ x :: r) value =? index)%Z)
            (Z.of_nat (List.length pre) + 1) r = firstSeen (pre ++ [x]) r).
  { specialize (IH (pre ++ [x])).
    rewrite <- app_assoc, length_app in IH. simpl in IH.
    rewrite Nat2Z.inj_add in IH. exact IH. }
  rewrite Hstep.
  destruct (existsb (String.eqb x) pre) eqn:Hseen.
  - apply existsb_eqb_In in Hseen.
    pose proof (indexOf_app_seen pre (x :: r) x Hseen).
    destruct (Z.eqb_spec (indexOf (pre ++ x :: r) x) (Z.of_nat (List.length pre)));
      [lia | reflexivity].
  - assert (Hn : ~ In x pre).
    { intros Hin. apply existsb_eqb_In in Hin. congruence. }
    rewrite (indexOf_app_fresh pre r x Hn), Z.eqb_refl. reflexivity.
Qed.

(** The filter of lines 59 and 80 keeps the first occurrence of each
    element, in order. *)
Lemma uniqueLinks_firstSeen (l : list string) : uniqueLinks l = firstSeen [] l.
Proof. exact (filter_from_firstSeen [] l). Qed.

Lemma firstSeen_In (seen l : list string) (x : string) :
  In x (firstSeen seen l) <-> In x l /\ ~ In x seen.
Proof.
  revert seen. induction l as [| y r IH]; intros seen; simpl; [tauto |].
  destruct (existsb (String.eqb y) seen) eqn:Hseen.
  - apply existsb_eqb_In in Hseen. rewrite IH, in_app_iff. simpl.
    split.
    + intros [Hin Hn]. split; [now right | tauto].
    + intros [[-> | Hin] Hn]; [tauto |].
      split; [assumption |]. intros [H | [-> | []]]; tauto.
  - assert (Hn : ~ In y seen).
    { intros Hin. apply existsb_eqb_In in Hin. congruence. }
    simpl. rewrite IH, in_app_iff. simpl.
    destruct (string_dec y x) as [-> | Hne].
    + tauto.
    + split.
      * intros [H | [Hin Hn']]; [congruence | tauto].
      * intros [[H | Hin] Hn']; [congruence |].
        right. split; [assumption |]. intros [H | [H | []]]; tauto.
Qed.

Lemma firstSeen_NoDup (seen l : list string) : NoDup (firstSeen seen l).
Proof.
  revert seen. induction l as [| y r IH]; intros seen; simpl; [constructor |].
  destruct (existsb (String.eqb y) seen); [apply IH |].
  constructor; [| apply IH].
  rewrite firstSeen_In, in_app_iff. simpl. tauto.
Qed.

Lemma uniqueLinks_NoDup (l : list string) : NoDup (uniqueLinks l).
Proof. rewrite uniqueLinks_firstSeen. apply firstSeen_NoDup. Qed.

Lemma uniqueLinks_In (l : list string) (x : string) :
  In x (uniqueLinks l) <-> In x l.
Proof. rewrite uniqueLinks_firstSeen, firstSeen_In. simpl. tauto. Qed.

(** The rendering fallback returns no URL twice. *)
Lemma scrapeInternalLinks_NoDup (E : Env) (url : string) (w w' : World E)
    (links : list string) (evs : list event) :
  scrapeInternalLinks E url w = (Ok links, w', evs) -> NoDup links.
Proof.
  unfold scrapeInternalLinks, bind, call, ret.
  destruct (renderedAnchors E url w) as [[anchors | err] w1]; intros H;
    [| discriminate].
  injection H as <- _ _. apply uniqueLinks_NoDup.
Qed.

(** The HTML sitemap strategies return no URL twice. *)
Lemma trySitemapPath_html_NoDup (E : Env) (url baseUrl path : string)
    (w w' : World E) (links : list string) (evs : list event) :
  path <> "sitemap.xml" ->
  trySitemapPath E url baseUrl path w = (Ok links, w', evs) -> NoDup links.
Proof.
  intros Hpath. unfold trySitemapPath, bind, pure, fetchWithJitter, call, ret.
  destruct (resolveURL E ("/" ++ path)%string baseUrl) as [sitemapUrl | err];
    [| discriminate].
  destruct (httpGet E sitemapUrl w) as [[data | err] w1]; [| discriminate].
  destruct (String.eqb_spec path "sitemap.xml") as [-> | _]; [congruence |].
  destruct (mapOutcome _ (anchorsOf E data)) as [resolved | err];
    [| discriminate].
  intros H. injection H as <- _ _. apply uniqueLinks_NoDup.
Qed.

(** C5. The XML strategy does not deduplicate: for a [/sitemap.xml] that
    lists [https://a.test/p] twice, [fetchSitemap] returns it twice. *)
Theorem fetchSitemap_xml_repeats :
  result (fetchSitemap (scriptedEnv repeatedLocSite) "https://a.test" tt) =
    Ok ["https://a.test/"; "https://a.test/p"; "https://a.test/p"] /\
  ~ NoDup ["https://a.test/"; "https://a.test/p"; "https://a.test/p"].
Proof.
  split; [reflexivity |].
  intros H. inversion H as [| x l Hx Hl]; subst.
  inversion Hl as [| y l' Hy _]; subst.
  apply Hy. now left.
Qed.

(* ===================================================================== *)
(** * The orchestrator: every trace *)

Section Traces.

Variable E : Env.

Ltac no_rows :=
  unfold pages_outcome; simpl; exists []; simpl; rewrite app_nil_r;
  repeat split; try constructor; intros H; now elim H.

Lemma discoveryEvent_notWrite (evs : list event) :
  Forall discoveryEvent evs -> Forall notWrite evs.
Proof.
  apply Forall_impl. intros [] H; simpl in *; tauto.
Qed.

Lemma analyzedEvents_notWrite (rows : list row) :
  Forall notWrite (analyzedEvents rows).
Proof.
  unfold analyzedEvents. apply Forall_forall. intros ev Hin.
  apply in_map_iff in Hin. destruct Hin as [r [<- _]]. exact I.
Qed.

Lemma scrapeInternalLinks_events (url : string) (w : World E) :
  Forall discoveryEvent (events (scrapeInternalLinks E url w)).
Proof.
  unfold scrapeInternalLinks, bind, call, ret, events.
  destruct (renderedAnchors E url w) as [[anchors | err] w1]; simpl;
    repeat constructor.
Qed.

Lemma trySitemapPath_events (url baseUrl path : string) (w : World E) :
  Forall discoveryEvent (events (trySitemapPath E url baseUrl path w)).
Proof.
  unfold trySitemapPath, bind, pure, fetchWithJitter, call, ret, events.
  destruct (resolveURL E ("/" ++ path)%string baseUrl) as [sitemapUrl | err];
    simpl; [| constructor].
  destruct (httpGet E sitemapUrl w) as [[data | err] w1]; simpl;
    [| repeat constructor].
  destruct (String.eqb path "sitemap.xml").
  - destruct (parseXml E data) as [parsed | err]; simpl;
      [| repeat constructor].
    destruct (sitemapLinks parsed); simpl; repeat constructor.
  - destruct (mapOutcome _ (anchorsOf E data)); simpl; repeat constructor.
Qed.

Lemma fetchSitemapFrom_events (url baseUrl : string) (paths : list string)
    (w : World E) :
  Forall discoveryEvent (events (fetchSitemapFrom E url baseUrl paths w)).
Proof.
  revert w. induction paths as [| path rest IH]; intros w; simpl.
  - apply scrapeInternalLinks_events.
  - unfold tryCatch.
    pose proof (trySitemapPath_events url baseUrl path w) as Htry.
    destruct (trySitemapPath E url baseUrl path w) as [[[links | err] w1] ev1];
      unfold events in *; simpl in *; [exact Htry |].
    specialize (IH w1).
    destruct (fetchSitemapFrom E url baseUrl rest w1) as [[r w2] ev2].
    simpl in *. apply Forall_app. split; assumption.
Qed.

Lemma fetchSitemap_events (url : string) (w : World E) :
  Forall discoveryEvent (events (fetchSitemap E url w)).
Proof. unfold fetchSitemap. apply fetchSitemapFrom_events. Qed.

Lemma analyzePage_outcome (url : string) (st : site_state)
    (slot : option string) (depth : string) (w : World E) :
  In depth ["Homepage"; "Mid"; "Deep"] ->
  pages_outcome E url st (analyzePage E url true st (slot, depth) w).
Proof.
  intros Hdepth. unfold analyzePage.
  destruct slot as [pageUrl |]; [| no_rows].
  destruct (truthy (Some pageUrl));
    [| no_rows].
  unfold analyzeSSR. unfold bind, call, ret. cbv beta.
  destruct (renderTwice E pageUrl w) as [[cap | err] w1];
    unfold pages_outcome; simpl; [| repeat constructor].
  eexists [_]. simpl. split; [reflexivity |]. split; [reflexivity |].
  split.
  - constructor; [| constructor]. unfold pageRow. simpl.
    repeat split; eauto.
  - split; [discriminate |]. intros _.
    destruct (lowestSSRPage st) as [lowest |]; [| discriminate].
    destruct (numLt _ _); discriminate.
Qed.

Lemma forEach_pages_outcome (url : string)
    (entries : list (option string * string)) (st : site_state) (w : World E) :
  Forall (fun e => In (snd e) ["Homepage"; "Mid"; "Deep"]) entries ->
  pages_outcome E url st (forEach (analyzePage E url true) entries st w).
Proof.
  revert st w. induction entries as [| [slot depth] rest IH]; intros st w Hd.
  - no_rows.
  - inversion Hd as [| e l Hdepth Hrest]; subst.
    cbn [forEach snd] in *. unfold bind at 1.
    pose proof (analyzePage_outcome url st slot depth w Hdepth) as H1.
    destruct (analyzePage E url true st (slot, depth) w) as [[[st1 | err] w1] ev1];
      [| exact H1].
    specialize (IH st1 w1 Hrest).
    destruct (forEach (analyzePage E url true) rest st1 w1) as [[[st2 | err] w2] ev2].
    + destruct H1 as [rows1 [Hr1 [He1 [Hp1 [Hs1 Hl1]]]]].
      destruct IH as [rows2 [Hr2 [He2 [Hp2 [Hs2 Hl2]]]]].
      exists (rows1 ++ rows2). repeat split.
      * rewrite Hr2, Hr1, app_assoc. reflexivity.
      * rewrite He1, He2. unfold analyzedEvents. now rewrite map_app.
      * apply Forall_app. split; assumption.
      * intros Hnil. apply app_eq_nil in Hnil. destruct Hnil as [-> ->].
        rewrite Hs2, Hs1; reflexivity.
      * intros Hne. destruct rows2 as [| r2 rows2].
        -- rewrite Hs2 by reflexivity. apply Hl1.
           rewrite app_nil_r in Hne. exact Hne.
        -- apply Hl2. discriminate.
    + destruct H1 as [rows1 [_ [He1 _]]]. simpl in IH |- *.
      apply Forall_app. split; [| exact IH].
      rewrite He1. apply analyzedEvents_notWrite.
Qed.

Lemma analyzePages_outcome (url : string) (selection : list (option string))
    (st : site_state) (w : World E) :
  pages_outcome E url st (analyzePages E url true selection st w).
Proof.
  unfold analyzePages. apply forEach_pages_outcome.
  repeat constructor; simpl; tauto.
Qed.

Lemma start_pages_selected (url : string)
    (run : outcome site_state * World E * list event) :
  pages_outcome E url {| results := []; lowestSSRPage := None |} run ->
  selected_outcome E url run.
Proof.
  destruct run as [[[st | err] w1] evs]; simpl; [| tauto].
  intros [rows [Hr [He [Hp [Hs Hl]]]]]. simpl in Hr. subst rows.
  exists []. simpl. repeat split; try assumption; [constructor |].
  intros Hnil. rewrite (Hs Hnil). reflexivity.
Qed.

Lemma analyzeSelected_outcome (url homepageUrl : string)
    (sitemapUrls : list string) (w : World E) :
  selected_outcome E url
    (analyzeSelected E url true homepageUrl sitemapUrls
       {| results := []; lowestSSRPage := None |} w).
Proof.
  unfold analyzeSelected.
  destruct (2 <? List.length sitemapUrls)%nat.
  - apply start_pages_selected, analyzePages_outcome.
  - unfold bind.
    pose proof (scrapeInternalLinks_events homepageUrl w) as Hscrape.
    destruct (scrapeInternalLinks E homepageUrl w) as [[[links | err] w1] ev1];
      unfold events in Hscrape; simpl in Hscrape;
      [| simpl; now apply discoveryEvent_notWrite].
    destruct (0 <? List.length links)%nat.
    + pose proof (start_pages_selected url _
                    (analyzePages_outcome url (selectPages links)
                       {| results := []; lowestSSRPage := None |} w1)) as Hp.
      destruct (analyzePages E url true (selectPages links) _ w1)
        as [[[st | err] w2] ev2]; simpl in *.
      * destruct Hp as [d [He [Hd Hrest]]].
        exists (ev1 ++ d). split; [now rewrite He, app_assoc |].
        split; [now apply Forall_app | exact Hrest].
      * apply Forall_app. split; [now apply discoveryEvent_notWrite | exact Hp].
    + simpl. exists ev1. rewrite app_nil_r.
      repeat split; try assumption; try constructor. intros H. now elim H.
Qed.

Lemma emailLowest_trace (url : string) (st : site_state) (w : World E) :
  (results st = [] -> lowestSSRPage st = None) ->
  (results st <> [] -> lowestSSRPage st <> None) ->
  match emailLowest E url (lowestSSRPage st) w with
  | (Ok _, _, evs) =>
      (results st = [] /\ evs = []) \/
      (results st <> [] /\ evs = [EvEmail url true])
  | (Throw _, _, evs) => results st <> [] /\ evs = [EvEmail url false]
  end.
Proof.
  intros Hnone Hsome. unfold emailLowest.
  destruct (lowestSSRPage st) as [lowest |].
  - assert (Hne : results st <> []).
    { intros Hnil. specialize (Hnone Hnil). discriminate. }
    unfold createEmailWithWordCloud, call.
    destruct (renderEmail E _ _ _ _ w) as [[[] | err] w1]; simpl; auto.
  - simpl. left. split; [| reflexivity].
    destruct (results st) as [| r rs]; [reflexivity |].
    exfalso. apply Hsome; [discriminate | reflexivity].
Qed.

End Traces.

(* ===================================================================== *)
(** * The orchestrator: the page loop and the body of a site *)

Lemma passing_cons (slot : option string) (depth : string)
    (rest : list (option string * string)) :
  passing ((slot, depth) :: rest) =
  match slot with
  | Some pageUrl => if truthy slot then (pageUrl, depth) :: passing rest
                    else passing rest
  | None => passing rest
  end.
Proof.
  unfold passing. cbn [flat_map fst snd].
  destruct slot as [pageUrl |]; [| reflexivity].
  destruct (truthy (Some pageUrl)); reflexivity.
Qed.

(** What the loop over [entries] does: a row per entry let through, in
    order, or the events of the entries before the one that threw. *)
Lemma forEach_rows (E : Env) (site : string) (detected : bool)
    (entries : list (option string * string)) (st : site_state) (w : World E) :
  match forEach (analyzePage E site detected) entries st w with
  | (Ok st', _, evs) =>
      exists rows,
        results st' = results st ++ rows /\
        map (fun r => (analyzedUrl r, depth r)) rows = passing entries /\
        Forall (fun r => baseUrl r = site /\ isReact r = detected /\
                         exists v, ssrPercentage r = Pct v) rows /\
        evs = analyzedEvents rows
  | (Throw _, _, evs) =>
      exists before pageUrl depth after,
        passing entries = before ++ (pageUrl, depth) :: after /\
        evs = map (fun p => EvAnalyze (fst p) true) before ++
              [EvAnalyze pageUrl false]
  end.
Proof.
  revert st w. induction entries as [| [slot depth] rest IH]; intros st w.
  - cbn [forEach]. unfold ret. exists []. rewrite app_nil_r.
    repeat split; constructor.
  - cbn [forEach]. unfold bind at 1. rewrite passing_cons.
    unfold analyzePage at 1.
    destruct slot as [pageUrl |].
    2: { unfold ret at 1. specialize (IH st w).
         destruct (forEach (analyzePage E site detected) rest st w)
           as [[[st2 | err] w2] ev2]; exact IH. }
    destruct (truthy (Some pageUrl)).
    2: { unfold ret at 1. specialize (IH st w).
         destruct (forEach (analyzePage E site detected) rest st w)
           as [[[st2 | err] w2] ev2]; exact IH. }
    unfold analyzeSSR. unfold bind at 1. unfold bind at 1. unfold call, ret.
    cbv beta.
    destruct (renderTwice E pageUrl w) as [[cap | err] w1]; cbv beta iota.
    2: { exists [], pageUrl, depth, (passing rest). split; reflexivity. }
    match goal with
    | |- context [forEach _ rest ?s w1] => specialize (IH s w1);
        destruct (forEach (analyzePage E site detected) rest s w1)
          as [[[st2 | err] w2] ev2]
    end.
    + destruct IH as [rows [Hr [Hm [Hf He]]]]. cbn [results] in Hr.
      eexists (_ :: rows). split; [rewrite Hr, <- app_assoc; reflexivity |].
      split; [cbn [map analyzedUrl]; now rewrite Hm |].
      split; [constructor; [cbn; eauto | exact Hf] |].
      rewrite He. reflexivity.
    + destruct IH as [before [u [d [after [Hp He]]]]].
      exists ((pageUrl, depth) :: before), u, d, after.
      split; [now rewrite Hp | now rewrite He].
Qed.

Lemma discoveryEvent_no_email (evs : list event) (u : string) (ok : bool) :
  Forall discoveryEvent evs -> ~ In (EvEmail u ok) evs.
Proof.
  intros Hd Hin. rewrite Forall_forall in Hd. exact (Hd _ Hin).
Qed.

Lemma analyzePages_no_email (E : Env) (site : string) (detected : bool)
    (selection : list (option string)) (st : site_state) (w : World E)
    (u : string) (ok : bool) :
  ~ In (EvEmail u ok) (events (analyzePages E site detected selection st w)).
Proof.
  unfold analyzePages.
  pose proof (forEach_rows E site detected
                [(element selection 0, "Homepage"); (element selection 1, "Mid");
                 (element selection 2, "Deep")] st w) as Hrows.
  destruct (forEach _ _ st w) as [[[st' | err] w'] evs]; unfold events; simpl.
  - destruct Hrows as [rows [_ [_ [_ ->]]]]. unfold analyzedEvents.
    intros Hin. apply in_map_iff in Hin. destruct Hin as [r [Heq _]]. discriminate.
  - destruct Hrows as [before [pageUrl [label [after [_ ->]]]]].
    intros Hin. apply in_app_or in Hin. destruct Hin as [Hin | [Heq | []]].
    + apply in_map_iff in Hin. destruct Hin as [p [Heq _]]. discriminate.
    + discriminate.
Qed.

Lemma analyzeSelected_no_email (E : Env) (site homepageUrl : string)
    (detected : bool) (sitemapUrls : list string) (st : site_state)
    (w : World E) (u : string) (ok : bool) :
  ~ In (EvEmail u ok)
       (events (analyzeSelected E site detected homepageUrl sitemapUrls st w)).
Proof.
  unfold analyzeSelected.
  destruct (2 <? List.length sitemapUrls)%nat.
  - apply analyzePages_no_email.
  - unfold bind at 1.
    pose proof (scrapeInternalLinks_events E homepageUrl w) as Hd.
    destruct (scrapeInternalLinks E homepageUrl w) as [[[internalLinks | err] w1] ev1];
      unfold events in Hd; simpl in Hd.
    2: { unfold events. simpl. now apply discoveryEvent_no_email. }
    destruct (0 <? List.length internalLinks)%nat.
    + pose proof (analyzePages_no_email E site detected (selectPages internalLinks)
                    st w1 u ok) as Hp.
      destruct (analyzePages E site detected (selectPages internalLinks) st w1)
        as [[r w2] ev2].
      unfold events in *. simpl in *. intros Hin. apply in_app_or in Hin.
      destruct Hin as [Hin | Hin]; [| exact (Hp Hin)].
      exact (discoveryEvent_no_email _ _ _ Hd Hin).
    + unfold events, ret. simpl. rewrite app_nil_r.
      now apply discoveryEvent_no_email.
Qed.


Lemma writeRecords_run (E : Env) (records : list row) (w : World E) :
  exists r w', writeRecords E records w = (r, w', [EvWriteRecords records]).
Proof.
  unfold writeRecords, call.
  destruct (csvWriter E records w) as [r w']. now exists r, w'.
Qed.

(** The [try] block of a site: it skips the site, or it throws before line
    348 having written nothing and sent nothing, or it reaches line 348,
    where the write may throw, and after it the email. *)
Lemma analyzeWebsiteBody_trace (E : Env) (url : string) (w w' : World E)
    (r : outcome unit) (evs : list event) :
  analyzeWebsiteBody E url w = (r, w', evs) ->
  evs = [EvDetect url (Ok false); EvWriteRecords [notApplicableRow url false]] \/
  (succeeded r = false /\ Forall notWrite evs /\
   forall u ok, ~ In (EvEmail u ok) evs) \/
  exists discovery rows mail,
    Forall discoveryEvent discovery /\ Forall (pageRow url) rows /\
    evs = EvDetect url (Ok true) :: discovery ++ analyzedEvents rows ++
          EvWriteRecords rows :: mail /\
    ((mail = [] /\ (succeeded r = true -> rows = [])) \/
     (rows <> [] /\ mail = [EvEmail url (succeeded r)])).
Proof.
  unfold analyzeWebsiteBody.
  unfold bind at 1. unfold call at 1.
  destruct (detectAt E url w) as [[[|] | err] w1]; cbn [negb].
  2: { destruct (writeRecords_run E [notApplicableRow url false] w1)
         as [r2 [w2 ->]].
       intros H. injection H as <- <- <-. left. reflexivity. }
  2: { intros H. injection H as <- <- <-. right. left.
       split; [reflexivity |]. split; [repeat constructor |].
       intros u ok [H | []]. discriminate. }
  unfold bind at 1. unfold getHomepageUrl at 1. unfold bind at 1, pure at 1.
  destruct (parseURL E url) as [parsedUrl | err]; cbn [ret].
  2: { intros H. injection H as <- <- <-. right. left.
       split; [reflexivity |]. split; [repeat constructor |].
       intros u ok [H | []]. discriminate. }
  unfold bind at 1.
  pose proof (fetchSitemap_events E (fst parsedUrl ++ "//" ++ snd parsedUrl)%string w1)
    as Hdisc.
  destruct (fetchSitemap E _ w1) as [[[sitemapUrls | err] w2] ev2];
    unfold events in Hdisc; cbn [snd] in Hdisc.
  2: { intros H. injection H as <- <- <-. right. left.
       split; [reflexivity |]. split.
       - constructor; [exact I |].
         now apply discoveryEvent_notWrite.
       - intros u ok [H | Hin]; [discriminate |].
         exact (discoveryEvent_no_email _ _ _ Hdisc Hin). }
  unfold bind at 1.
  pose proof (analyzeSelected_outcome E url
                (fst parsedUrl ++ "//" ++ snd parsedUrl)%string sitemapUrls w2)
    as Hsel.
  pose proof (analyzeSelected_no_email E url
                (fst parsedUrl ++ "//" ++ snd parsedUrl)%string true sitemapUrls
                {| results := []; lowestSSRPage := None |} w2) as Hquiet.
  destruct (analyzeSelected E url true _ sitemapUrls _ w2)
    as [[[st | err] w3] ev3]; unfold events in Hquiet;
    cbn [snd] in Hquiet; cbn [selected_outcome] in Hsel.
  2: { intros H. injection H as <- <- <-. right. left.
       split; [reflexivity |]. split.
       - constructor; [exact I |]. apply Forall_app.
         split; [now apply discoveryEvent_notWrite | exact Hsel].
       - intros u ok [H | Hin]; [discriminate |].
         apply in_app_or in Hin. destruct Hin as [Hin | Hin].
         + exact (discoveryEvent_no_email _ _ _ Hdisc Hin).
         + exact (Hquiet _ _ Hin). }
  destruct Hsel as [d [He [Hd [Hp [Hnone Hsome]]]]].
  unfold bind at 1.
  destruct (writeRecords_run E (results st) w3) as [[[] | err] [w4 ->]].
  2: { intros H. injection H as <- <- <-. right. right.
       exists (ev2 ++ d), (results st), [].
       split; [now apply Forall_app |]. split; [exact Hp |].
       split; [| left; split; [reflexivity | discriminate]].
       rewrite He. cbn [app]. repeat rewrite <- app_assoc. reflexivity. }
  pose proof (emailLowest_trace E url st w4 Hnone Hsome) as Hmail.
  destruct (emailLowest E url (lowestSSRPage st) w4) as [[[[] | err] w5] ev4].
  - intros H. injection H as <- <- <-. right. right.
    exists (ev2 ++ d), (results st), ev4.
    split; [now apply Forall_app |]. split; [exact Hp |].
    split; [rewrite He; cbn [app]; repeat rewrite <- app_assoc; reflexivity |].
    destruct Hmail as [[Hnil ->] | [Hne ->]].
    + left. split; [reflexivity | intros _; exact Hnil].
    + right. split; [exact Hne | reflexivity].
  - intros H. injection H as <- <- <-. right. right.
    destruct Hmail as [Hne ->].
    exists (ev2 ++ d), (results st), [EvEmail url false].
    split; [now apply Forall_app |]. split; [exact Hp |].
    split; [rewrite He; cbn [app]; repeat rewrite <- app_assoc; reflexivity |].
    right. split; [exact Hne | reflexivity].
Qed.

(** The [catch] of lines 366-375 adds the write of the [Error] row when
    the [try] block threw. *)
Lemma analyzeWebsite_events (E : Env) (url : string) (w : World E) :
  events (analyzeWebsite E url w) =
  events (analyzeWebsiteBody E url w) ++
  (if succeeded (result (analyzeWebsiteBody E url w)) then []
   else [EvWriteRecords [errorRow url]]).
Proof.
  unfold analyzeWebsite, tryCatch.
  destruct (analyzeWebsiteBody E url w) as [[[[] | err] w1] ev1];
    unfold events, result; cbn [fst snd succeeded].
  - now rewrite app_nil_r.
  - destruct (writeRecords_run E [errorRow url] w1) as [r [w2 ->]]. reflexivity.
Qed.

(** Every trace of [analyzeWebsite] has one of the shapes of a site. *)
Lemma analyzeWebsite_trace (E : Env) (url : string) (w : World E) :
  site_trace url (events (analyzeWebsite E url w)).
Proof.
  rewrite analyzeWebsite_events.
  destruct (analyzeWebsiteBody E url w) as [[r w1] evs] eqn:Hrun.
  unfold events, result. cbn [fst snd].
  destruct (analyzeWebsiteBody_trace E url w w1 r evs Hrun)
    as [-> | [[Hr [Hpre _]] | [d [rows [mail [Hd [Hp [-> Hmail]]]]]]]].
  - destruct (succeeded r); [rewrite app_nil_r; apply TraceSkipped |].
    apply TraceSkippedUnwritten.
  - rewrite Hr. now apply TraceFailed.
  - replace ((EvDetect url (Ok true) :: d ++ analyzedEvents rows ++
              EvWriteRecords rows :: mail) ++
             (if succeeded r then [] else [EvWriteRecords [errorRow url]]))
      with (EvDetect url (Ok true) :: d ++ analyzedEvents rows ++
            EvWriteRecords rows ::
            (mail ++ if succeeded r then [] else [EvWriteRecords [errorRow url]]))
      by (cbn [app]; repeat rewrite <- app_assoc; reflexivity).
    apply TraceAnalyzed; [exact Hd | exact Hp |].
    destruct Hmail as [[-> Hrows] | [Hne ->]]; destruct (succeeded r); cbn [app].
    + apply EmailNone. now apply Hrows.
    + apply EmailUnreached.
    + now apply EmailSent.
    + now apply EmailFailed.
Qed.

(* ===================================================================== *)
(** * The rows of a site *)

Lemma rowsWritten_app (a b : list event) :
  rowsWritten (a ++ b) = rowsWritten a ++ rowsWritten b.
Proof. unfold rowsWritten. apply flat_map_app. Qed.

Lemma rowsWritten_notWrite (evs : list event) :
  Forall notWrite evs -> rowsWritten evs = [].
Proof.
  induction 1 as [| ev r Hev _ IH]; [reflexivity |].
  destruct ev; simpl in *; try assumption. contradiction.
Qed.

Lemma rowsWritten_email (url : string) (rows : list row) (mail : list event) :
  email_trace url rows mail ->
  (rowsWritten mail = [] \/ rowsWritten mail = [errorRow url]) /\
  forall u ok, ~ In (EvAnalyze u ok) mail.
Proof.
  intros [| Hnil | Hne | Hne].
  - split; [now right |]. intros u ok [H | []]. discriminate.
  - split; [now left | intros u ok []].
  - split; [now left |]. intros u ok [H | []]. discriminate.
  - split; [now right |]. intros u ok [H | [H | []]]; discriminate.
Qed.

Lemma discoveryEvent_not_analyze (evs : list event) (u : string) (ok : bool) :
  Forall discoveryEvent evs -> ~ In (EvAnalyze u ok) evs.
Proof.
  intros Hall Hin. rewrite Forall_forall in Hall. exact (Hall _ Hin).
Qed.

Lemma analyzedEvents_ok (rows : list row) (u : string) :
  ~ In (EvAnalyze u false) (analyzedEvents rows).
Proof.
  unfold analyzedEvents. intros Hin. apply in_map_iff in Hin.
  destruct Hin as [r [Heq _]]. discriminate.
Qed.

(** C2, as the code has it. When the analysis of a selected page throws,
    whatever rows the pages before it produced are dropped: the only row
    written for the site is the single [Error] row of the [catch]. *)
Theorem failed_page_only_error_row (E : Env) (url pageUrl : string) (w : World E) :
  In (EvAnalyze pageUrl false) (events (analyzeWebsite E url w)) ->
  rowsWritten (events (analyzeWebsite E url w)) = [errorRow url].
Proof.
  pose proof (analyzeWebsite_trace E url w) as Ht.
  destruct Ht as [| | pre Hpre | discovery rows mail Hd Hrows Hmail]; intros Hin.
  - destruct Hin as [H | [H | []]]; discriminate.
  - destruct Hin as [H | [H | [H | []]]]; discriminate.
  - rewrite rowsWritten_app, (rowsWritten_notWrite pre Hpre). reflexivity.
  - exfalso. destruct Hin as [H | Hin]; [discriminate |].
    apply in_app_or in Hin. destruct Hin as [Hin | Hin].
    { exact (discoveryEvent_not_analyze _ _ _ Hd Hin). }
    apply in_app_or in Hin. destruct Hin as [Hin | [H | Hin]].
    + exact (analyzedEvents_ok _ _ Hin).
    + discriminate.
    + exact (proj2 (rowsWritten_email url rows mail Hmail) _ _ Hin).
Qed.

Lemma failed_page_only_error_row_witness :
  In (EvAnalyze "https://a.test/faq" false)
     (events (analyzeWebsite (scriptedEnv brokenDeepSite) "https://a.test/" tt)) /\
  rowsWritten (events (analyzeWebsite (scriptedEnv brokenDeepSite) "https://a.test/" tt))
    = [errorRow "https://a.test/"].
Proof.
  split.
  - vm_compute. right. right. right. right. left. reflexivity.
  - apply (failed_page_only_error_row (scriptedEnv brokenDeepSite)
             "https://a.test/" "https://a.test/faq" tt).
    vm_compute. right. right. right. right. left. reflexivity.
Defined.

(** C2, as the specification states it, fails: on [brokenMidSite] the
    homepage slot is analyzed and its row pushed, the analysis of the mid
    page throws, and the row of the homepage slot is not written. *)
Lemma partial_rows_not_written :
  exists (st : site_state) (r : row),
    result (analyzePage (scriptedEnv brokenMidSite) "https://a.test/home" true
              {| results := []; lowestSSRPage := None |}
              (Some "https://a.test/a", "Homepage") tt) = Ok st /\
    results st = [r] /\
    In (EvAnalyze "https://a.test/a" true)
       (events (analyzeWebsite (scriptedEnv brokenMidSite) "https://a.test/home" tt)) /\
    In (EvAnalyze "https://a.test/b" false)
       (events (analyzeWebsite (scriptedEnv brokenMidSite) "https://a.test/home" tt)) /\
    ~ In r (rowsWritten
              (events (analyzeWebsite (scriptedEnv brokenMidSite)
                         "https://a.test/home" tt))).
Proof.
  eexists. eexists. split; [vm_compute; reflexivity |].
  split; [reflexivity |].
  split; [vm_compute; tauto |].
  split; [vm_compute; tauto |].
  vm_compute. intros [H | []]. discriminate.
Qed.

(** C3. [noLinksSite] passes the detection, its three sitemap fetches fail
    and its rendered homepage has no root-relative anchor, in the fallback
    of discovery and again at line 319. The guard of line 320 skips the page
    loop and has no [else], line 348 hands the empty list to the report
    writer, no email is made and nothing throws: the run returns and no row
    is written for the site. *)
Theorem no_links_no_row :
  analyzeWebsite (scriptedEnv noLinksSite) "https://a.test/home" tt =
    (Ok tt, tt,
     [EvDetect "https://a.test/home" (Ok true);
      EvGet "https://a.test/sitemap.xml" false;
      EvGet "https://a.test/sitemap" false;
      EvGet "https://a.test/site-map" false;
      EvScrape "https://a.test" true; EvScrape "https://a.test" true;
      EvWriteRecords []]) /\
  rowsWritten
    (events (analyzeWebsite (scriptedEnv noLinksSite) "https://a.test/home" tt)) = [].
Proof. split; reflexivity. Qed.

(* ===================================================================== *)
(** * The word diff *)

Lemma setOf_fold (items acc : list string) :
  NoDup acc ->
  let s := fold_left
             (fun acc x => if existsb (String.eqb x) acc then acc else acc ++ [x])
             items acc in
  NoDup s /\ forall x, In x s <-> In x acc \/ In x items.
Proof.
  revert acc. induction items as [| y r IH]; intros acc Hacc; simpl.
  - split; [assumption | intros x; tauto].
  - destruct (existsb (String.eqb y) acc) eqn:Hy.
    + apply existsb_eqb_In in Hy.
      destruct (IH acc Hacc) as [Hnd Hin]. split; [exact Hnd |].
      intros x. rewrite (Hin x). split; [tauto |].
      intros [H | [<- | H]]; tauto.
    + assert (Hn : ~ In y acc).
      { intros H. apply existsb_eqb_In in H. congruence. }
      assert (Hacc' : NoDup (acc ++ [y])).
      { apply NoDup_app; [assumption | repeat constructor; simpl; tauto |].
        intros x Hx [<- | []]. contradiction. }
      destruct (IH (acc ++ [y]) Hacc') as [Hnd Hin]. split; [exact Hnd |].
      intros x. rewrite (Hin x), in_app_iff. simpl. tauto.
Qed.

Lemma setOf_NoDup (items : list string) : NoDup (setOf items).
Proof. apply (setOf_fold items []). constructor. Qed.

Lemma setOf_In (items : list string) (x : string) :
  In x (setOf items) <-> In x items.
Proof.
  destruct (setOf_fold items [] (NoDup_nil _)) as [_ H].
  unfold setOf. rewrite (H x). simpl. tauto.
Qed.

Lemma getOwn_In_keys (o : jsobject) (k : string) (v : jsval) :
  getOwn o k = Some v -> In k (keys o).
Proof.
  induction o as [| [k' v'] r IH]; simpl; [discriminate |].
  destruct (String.eqb_spec k' k) as [-> | _]; [now left |].
  intros H. right. apply IH, H.
Qed.

(** [(counts[w] || 0) > 0] holds exactly when [w] has a positive own count,
    and [counts[w] || 0] is then that count. *)
Lemma count_positive (counts : jsobject) (w : string) :
  gtZero (orZero (getProp counts w)) = (0 <? frequency counts w)%N /\
  (gtZero (orZero (getProp counts w)) = true ->
   orZero (getProp counts w) = VNum (frequency counts w)).
Proof.
  unfold getProp, frequency.
  destruct (getOwn counts w) as [[n | k | |] |].
  - split; [reflexivity | intros _; reflexivity].
  - split; [reflexivity | discriminate].
  - split; [reflexivity | discriminate].
  - split; [reflexivity | discriminate].
  - destruct (existsb (String.eqb w) objectPrototypeKeys); simpl;
      (split; [reflexivity | discriminate]).
Qed.

Lemma frequency_positive_key (counts : jsobject) (w : string) :
  (0 < frequency counts w)%N -> In w (keys counts).
Proof.
  unfold frequency. destruct (getOwn counts w) as [v |] eqn:Hown.
  - intros _. exact (getOwn_In_keys _ _ _ Hown).
  - intros H. now apply N.lt_irrefl in H.
Qed.

Lemma flat_map_at_most_one {A B} (key : B -> A) (f : A -> list B) (l : list A) :
  (forall a b, In b (f a) -> key b = a) ->
  (forall a, NoDup (map key (f a))) ->
  NoDup l -> NoDup (map key (flat_map f l)).
Proof.
  intros Hkey Hone. induction 1 as [| a r Ha Hr IH]; simpl; [constructor |].
  rewrite map_app. apply NoDup_app; [apply Hone | exact IH |].
  intros k Hk1 Hk2.
  apply in_map_iff in Hk1. destruct Hk1 as [b1 [<- Hb1]].
  apply in_map_iff in Hk2. destruct Hk2 as [b2 [Heq Hb2]].
  apply in_flat_map in Hb2. destruct Hb2 as [a2 [Ha2 Hb2]].
  rewrite (Hkey _ _ Hb1) in Heq. rewrite (Hkey _ _ Hb2) in Heq.
  subst a2. contradiction.
Qed.

(** The diff over two objects, in terms of the counts they hold as own
    numeric properties ([frequency]): [wordData] has one entry at most per
    word, and an entry [d] is in it exactly when the count of its word in
    the scripting-enabled object is positive, its weight is that count, and
    its colour is the visible-to-both green when the count of the word in
    the no-scripting object is positive and the grey otherwise. *)
Lemma wordData_entries (userWordCounts googleWordCounts : jsobject) :
  NoDup (map word (wordData userWordCounts googleWordCounts)) /\
  forall d : word_datum,
    In d (wordData userWordCounts googleWordCounts) <->
    (0 < frequency userWordCounts (word d))%N /\
    weight d = VNum (frequency userWordCounts (word d)) /\
    color d = if (0 <? frequency googleWordCounts (word d))%N
              then "#4CAF50" else "#808080".
Proof.
  unfold wordData. split.
  - apply flat_map_at_most_one; [| | apply setOf_NoDup].
    + intros w b. destruct (gtZero _); [| intros []].
      intros [<- | []]. reflexivity.
    + intros w. destruct (gtZero _); simpl; repeat constructor. simpl. tauto.
  - intros d. rewrite in_flat_map. split.
    + intros [w [_ Hd]].
      destruct (count_positive userWordCounts w) as [Hgt Hval].
      destruct (count_positive googleWordCounts w) as [Hg _].
      destruct (gtZero (orZero (getProp userWordCounts w))) eqn:Hpos;
        [| destruct Hd].
      destruct Hd as [<- | []]. simpl.
      split; [apply N.ltb_lt; now rewrite <- Hgt |].
      split; [now apply Hval |]. now rewrite Hg.
    + intros [Hpos [Hw Hc]]. exists (word d). split.
      * apply setOf_In, in_app_iff. left.
        now apply frequency_positive_key.
      * destruct (count_positive userWordCounts (word d)) as [Hgt Hval].
        destruct (count_positive googleWordCounts (word d)) as [Hg _].
        apply N.ltb_lt in Hpos. rewrite Hgt, Hpos.
        rewrite Hval by now rewrite Hgt. rewrite Hg.
        left. destruct d as [dw dweight dcolor]. simpl in *.
        now rewrite Hw, Hc.
Qed.

(** The counts of [generateWordFrequencies] on the example of the
    specification, and the diff against an empty no-scripting text. *)
Example wordData_quick_fox :
  wordData (generateWordFrequencies "The Quick Fox runs and jumps")
           (generateWordFrequencies "") =
    [{| word := "quick"; weight := VNum 1; color := "#808080" |};
     {| word := "fox"; weight := VNum 1; color := "#808080" |};
     {| word := "runs"; weight := VNum 1; color := "#808080" |};
     {| word := "jumps"; weight := VNum 1; color := "#808080" |}].
Proof. reflexivity. Qed.

(** C8. The word [constructor] occurs once in the scripting-enabled text
    [constructor pattern] and passes the filter of lines 220-223, but line
    225 finds the inherited [Object] function under its name: what is
    stored is a text, not a count, the test of line 414 fails on it, and
    the diff has no entry for the word. *)
Theorem wordData_constructor :
  occurrences "constructor pattern" "constructor" = 1%nat /\
  keepWord "constructor" = true /\
  generateWordFrequencies "constructor pattern" =
    [("constructor", VText 1); ("pattern", VNum 1)] /\
  wordData (generateWordFrequencies "constructor pattern")
           (generateWordFrequencies "loading") =
    [{| word := "pattern"; weight := VNum 1; color := "#808080" |}].
Proof. repeat split. Qed.

(* ===================================================================== *)
(** * Binary64 rounding stays below a representable bound *)

Lemma digits2_pos_bounds (p : positive) :
  (2 ^ (Zpos (digits2_pos p) - 1) <= Zpos p < 2 ^ Zpos (digits2_pos p))%Z.
Proof.
  induction p as [p IH | p IH |]; simpl digits2_pos.
  - rewrite Pos2Z.inj_succ.
    replace (Z.succ (Zpos (digits2_pos p)) - 1)%Z
      with (Z.succ (Zpos (digits2_pos p) - 1))%Z by lia.
    rewrite !Z.pow_succ_r by lia. lia.
  - rewrite Pos2Z.inj_succ.
    replace (Z.succ (Zpos (digits2_pos p)) - 1)%Z
      with (Z.succ (Zpos (digits2_pos p) - 1))%Z by lia.
    rewrite !Z.pow_succ_r by lia. lia.
  - simpl. lia.
Qed.

(** A non-negative [m] below [2^k] has [k] binary digits at most. *)
Lemma Zdigits2_le (m k : Z) :
  (0 <= m -> 0 <= k -> m < 2 ^ k -> Zdigits2 m <= k)%Z.
Proof.
  intros Hm Hk Hlt. destruct m as [| p | p]; simpl; [assumption | | lia].
  destruct (digits2_pos_bounds p) as [Hlo _].
  destruct (Z_le_gt_dec (Zpos (digits2_pos p)) k) as [Hle | Hgt]; [assumption |].
  exfalso.
  assert (2 ^ k <= 2 ^ (Zpos (digits2_pos p) - 1))%Z
    by (apply Z.pow_le_mono_r; lia).
  lia.
Qed.

Lemma iter_pos_nat {A} (f : A -> A) (p : positive) (x : A) :
  iter_pos f p x = Nat.iter (Pos.to_nat p) f x.
Proof.
  revert x. induction p as [p IH | p IH |]; intros x; simpl iter_pos.
  - rewrite !IH, Pos2Nat.inj_xI.
    replace (S (2 * Pos.to_nat p)) with (Pos.to_nat p + (Pos.to_nat p + 1))%nat by lia.
    rewrite !Nat.iter_add. reflexivity.
  - rewrite !IH, Pos2Nat.inj_xO.
    replace (2 * Pos.to_nat p)%nat with (Pos.to_nat p + Pos.to_nat p)%nat by lia.
    rewrite Nat.iter_add. reflexivity.
  - reflexivity.
Qed.

Lemma shr_1_spec (mrs : shr_record) :
  (0 <= shr_m mrs)%Z ->
  shr_m (shr_1 mrs) = (shr_m mrs / 2)%Z /\
  inexact (shr_1 mrs) = Z.odd (shr_m mrs) || inexact mrs.
Proof.
  destruct mrs as [m r s]. unfold inexact. simpl.
  intros Hm. destruct m as [| [p | p |] | p]; simpl; try lia.
  - split; [reflexivity | reflexivity].
  - split; [| reflexivity]. rewrite Pos2Z.inj_xI.
    apply (Z.div_unique _ 2 _ 1); lia.
  - split; [| reflexivity]. rewrite Pos2Z.inj_xO.
    apply (Z.div_unique _ 2 _ 0); lia.
  - split; reflexivity.
Qed.

Lemma iter_shr_1_spec (n : nat) (mrs : shr_record) :
  (0 <= shr_m mrs)%Z ->
  shr_m (Nat.iter n shr_1 mrs) = (shr_m mrs / 2 ^ Z.of_nat n)%Z /\
  (inexact (Nat.iter n shr_1 mrs) = false <->
   inexact mrs = false /\ (shr_m mrs mod 2 ^ Z.of_nat n = 0)%Z).
Proof.
  intros Hm. induction n as [| n [IHm IHi]].
  - simpl. rewrite Z.div_1_r, Z.mod_1_r. tauto.
  - change (Nat.iter (S n) shr_1 mrs) with (shr_1 (Nat.iter n shr_1 mrs)).
    assert (Hpos : (0 < 2 ^ Z.of_nat n)%Z) by (apply Z.pow_pos_nonneg; lia).
    assert (H0 : (0 <= shr_m (Nat.iter n shr_1 mrs))%Z).
    { rewrite IHm. apply Z.div_pos; lia. }
    destruct (shr_1_spec _ H0) as [Hm1 Hi1].
    rewrite Nat2Z.inj_succ, Z.pow_succ_r by lia.
    split.
    + rewrite Hm1, IHm, Z.div_div by lia. f_equal. lia.
    + rewrite Hi1, orb_false_iff, IHi, IHm.
      rewrite (Z.mul_comm 2), Z.rem_mul_r by lia.
      pose proof (Z.mod_pos_bound (shr_m mrs) (2 ^ Z.of_nat n) Hpos).
      pose proof (Z.mod_pos_bound (shr_m mrs / 2 ^ Z.of_nat n) 2 ltac:(lia)).
      rewrite <- Z.negb_even, negb_false_iff, Z.even_spec.
      split.
      * intros [Heven [Hi Hmod]]. split; [assumption |].
        destruct Heven as [k Hk].
        assert (Hz : ((shr_m mrs / 2 ^ Z.of_nat n) mod 2 = 0)%Z)
          by (rewrite Hk, Z.mul_comm; apply Z.mod_mul; lia).
        rewrite Hmod, Hz. lia.
      * intros [Hi Hsum]. 
        assert (Hr : (shr_m mrs mod 2 ^ Z.of_nat n = 0)%Z) by nia.
        assert (Hq : ((shr_m mrs / 2 ^ Z.of_nat n) mod 2 = 0)%Z) by nia.
        split; [| tauto].
        exists (shr_m mrs / 2 ^ Z.of_nat n / 2)%Z.
        pose proof (Z.div_mod (shr_m mrs / 2 ^ Z.of_nat n) 2 ltac:(lia)). lia.
Qed.

Lemma loc_of_shr_record_exact (mrs : shr_record) :
  loc_of_shr_record mrs = loc_Exact <-> inexact mrs = false.
Proof.
  destruct mrs as [m [|] [|]]; unfold inexact; simpl; split;
    intros H; try reflexivity; discriminate.
Qed.

Lemma shr_record_of_loc_spec (m : Z) (l : location) :
  shr_m (shr_record_of_loc m l) = m /\
  (inexact (shr_record_of_loc m l) = false <-> l = loc_Exact).
Proof.
  destruct l as [| []]; unfold inexact; simpl; split; try reflexivity;
    split; intros H; try reflexivity; discriminate.
Qed.

(** [shr_fexp] divides the mantissa by a power of two and stays exact only
    when it was exact and nothing was shifted out. *)
Lemma shr_fexp_spec (m e : Z) (l : location) :
  (0 <= m)%Z ->
  let n := Z.max 0 (fexp prec emax (Zdigits2 m + e) - e) in
  let run := shr_fexp prec emax m e l in
  snd run = (e + n)%Z /\
  shr_m (fst run) = (m / 2 ^ n)%Z /\
  (loc_of_shr_record (fst run) = loc_Exact <->
   l = loc_Exact /\ (m mod 2 ^ n = 0)%Z).
Proof.
  intros Hm n run. subst n run. unfold shr_fexp, shr.
  destruct (shr_record_of_loc_spec m l) as [Hrm Hri].
  destruct (fexp prec emax (Zdigits2 m + e) - e)%Z as [| p | p] eqn:Hn.
  - simpl. rewrite Z.add_0_r, Z.div_1_r, Z.mod_1_r, Hrm.
    rewrite loc_of_shr_record_exact, Hri. tauto.
  - rewrite Z.max_r by lia. cbn [fst snd].
    rewrite iter_pos_nat.
    destruct (iter_shr_1_spec (Pos.to_nat p) (shr_record_of_loc m l))
      as [Hsm Hsi]; [rewrite Hrm; assumption |].
    rewrite positive_nat_Z in Hsm, Hsi. rewrite Hrm in Hsm, Hsi.
    rewrite loc_of_shr_record_exact, Hsi, Hri. tauto.
  - rewrite Z.max_l by lia. simpl.
    rewrite Z.add_0_r, Z.div_1_r, Z.mod_1_r, Hrm.
    rewrite loc_of_shr_record_exact, Hri. tauto.
Qed.

Section Below.

Variables C c : Z.
Hypothesis C_fits : (0 < C < 2 ^ prec)%Z.
Hypothesis c_range : (emin prec emax <= c <= emax - prec)%Z.

Lemma below_digits (m e : Z) (l : location) :
  below C c m e l -> (Zdigits2 m + e - prec <= c)%Z.
Proof.
  intros [[Hm [He Hle]] _].
  assert (Hp : (0 < 2 ^ (c - e))%Z) by (apply Z.pow_pos_nonneg; lia).
  assert (Hlt : (m < 2 ^ (prec + (c - e)))%Z).
  { rewrite Z.pow_add_r by (unfold prec; lia). nia. }
  pose proof (Zdigits2_le m (prec + (c - e)) Hm ltac:(unfold prec; lia) Hlt).
  lia.
Qed.

Lemma shr_fexp_below (m e : Z) (l : location) :
  below C c m e l ->
  below C c (shr_m (fst (shr_fexp prec emax m e l)))
            (snd (shr_fexp prec emax m e l))
            (loc_of_shr_record (fst (shr_fexp prec emax m e l))).
Proof.
  intros Hb. pose proof (below_digits m e l Hb) as Hdig.
  destruct Hb as [[Hm [He Hle]] Hlt].
  destruct (shr_fexp_spec m e l Hm) as [He' [Hm' Hl']].
  set (n := Z.max 0 (fexp prec emax (Zdigits2 m + e) - e)) in *.
  assert (Hn : (0 <= n /\ e + n <= c)%Z).
  { subst n. unfold fexp. lia. }
  assert (Hpn : (0 < 2 ^ n)%Z) by (apply Z.pow_pos_nonneg; lia).
  assert (Hsplit : (C * 2 ^ (c - e) = C * 2 ^ (c - (e + n)) * 2 ^ n)%Z).
  { rewrite <- Z.mul_assoc, <- Z.pow_add_r by lia. do 2 f_equal. lia. }
  rewrite He', Hm'.
  assert (Hq : (m / 2 ^ n <= C * 2 ^ (c - (e + n)))%Z).
  { rewrite <- (Z.div_mul (C * 2 ^ (c - (e + n))) (2 ^ n)) by lia.
    apply Z.div_le_mono; lia. }
  split.
  - split; [apply Z.div_pos; lia |]. split; [lia | exact Hq].
  - intros Hloc.
    destruct (Z.eq_dec (m / 2 ^ n) (C * 2 ^ (c - (e + n)))) as [Heq | Hne];
      [| lia].
    exfalso. apply Hloc. apply Hl'.
    pose proof (Z.mul_div_le m (2 ^ n) Hpn) as Hfloor.
    assert (Hmeq : (m = C * 2 ^ (c - (e + n)) * 2 ^ n)%Z) by nia.
    split.
    + destruct l as [| cmp]; [reflexivity |].
      assert (m < C * 2 ^ (c - e))%Z by (apply Hlt; discriminate). lia.
    + rewrite Hmeq. apply Z.mod_mul. lia.
Qed.

Lemma round_nearest_even_below (m e : Z) (l : location) :
  below C c m e l -> below C c (round_nearest_even m l) e loc_Exact.
Proof.
  intros [[Hm [He Hle]] Hlt].
  assert (Hr : (m <= round_nearest_even m l <= m + 1)%Z).
  { unfold round_nearest_even.
    destruct l as [| []]; try destruct (Z.even m); lia. }
  split; [| intros H; now elim H].
  destruct l as [| cmp].
  - simpl. lia.
  - assert (m < C * 2 ^ (c - e))%Z by (apply Hlt; discriminate). lia.
Qed.

(** Rounding to nearest does not step over [C * 2^c]. *)
Lemma binary_round_aux_below (s : bool) (m e : Z) (l : location) :
  below C c m e l ->
  binary_round_aux prec emax s m e l = S754_zero s \/
  exists m' e',
    binary_round_aux prec emax s m e l = S754_finite s m' e' /\
    (e' <= c)%Z /\ (Zpos m' <= C * 2 ^ (c - e'))%Z.
Proof.
  intros Hb. unfold binary_round_aux.
  pose proof (shr_fexp_below m e l Hb) as H1.
  destruct (shr_fexp prec emax m e l) as [mrs1 e1]. cbn [fst snd] in H1.
  pose proof (shr_fexp_below _ _ _ (round_nearest_even_below _ _ _ H1)) as H2.
  destruct (shr_fexp prec emax
              (round_nearest_even (shr_m mrs1) (loc_of_shr_record mrs1))
              e1 loc_Exact) as [mrs2 e2].
  cbn [fst snd] in H2. destruct H2 as [[Hm2 [He2 Hle2]] _].
  destruct (shr_m mrs2) as [| m' | m'].
  - now left.
  - right. exists m', e2.
    destruct (Z.leb_spec e2 (emax - prec)) as [_ | Hgt]; [| lia].
    repeat split; assumption.
  - lia.
Qed.

End Below.

(* ===================================================================== *)
(** * Text lengths as Numbers *)

Lemma pos_iter_xO (p k : positive) :
  Zpos (Pos.iter xO p k) = (Zpos p * 2 ^ Zpos k)%Z /\
  Zpos (digits2_pos (Pos.iter xO p k)) = (Zpos (digits2_pos p) + Zpos k)%Z.
Proof.
  induction k as [| k [IHv IHd]] using Pos.peano_ind.
  - simpl. split; lia.
  - rewrite Pos.iter_succ. cbn [digits2_pos].
    rewrite Pos2Z.inj_xO, !Pos2Z.inj_succ, IHv, IHd.
    rewrite Z.pow_succ_r by lia. split; lia.
Qed.

(** A mantissa of 53 digits at an exponent in range is left as it is. *)
Lemma binary_round_aux_canonical (s : bool) (m : positive) (e : Z) :
  Zpos (digits2_pos m) = prec ->
  (emin prec emax <= e <= emax - prec)%Z ->
  binary_round_aux prec emax s (Zpos m) e loc_Exact = S754_finite s m e.
Proof.
  intros Hd He. unfold binary_round_aux, shr_fexp.
  cbn [Zdigits2 shr_record_of_loc]. rewrite Hd.
  replace (fexp prec emax (prec + e) - e)%Z with 0%Z by (unfold fexp; lia).
  cbn [shr shr_m loc_of_shr_record round_nearest_even Zdigits2 shr_record_of_loc].
  rewrite Hd.
  replace (fexp prec emax (prec + e) - e)%Z with 0%Z by (unfold fexp; lia).
  cbn [shr shr_m].
  destruct (Z.leb_spec e (emax - prec)); [reflexivity | lia].
Qed.

(** The Number of a positive integer below [2^53]: that integer, written
    with a mantissa of 53 digits. *)
Lemma numberOfZ_normal (n : Z) :
  (0 < n < 2 ^ 53)%Z ->
  exists m e,
    numberOfZ n = S754_finite false m e /\
    (-52 <= e <= 0)%Z /\
    Zpos m = (n * 2 ^ (- e))%Z /\
    Zpos (digits2_pos m) = prec.
Proof.
  intros [Hpos Hlt]. destruct n as [| p | p]; try lia.
  unfold numberOfZ, binary_normalize, binary_round.
  pose proof (Zdigits2_le (Zpos p) 53 ltac:(lia) ltac:(lia) Hlt) as Hd.
  cbn [Zdigits2] in Hd.
  assert (Hd1 : (1 <= Zpos (digits2_pos p))%Z) by lia.
  replace (fexp prec emax (Zpos (digits2_pos p) + 0))
    with (Zpos (digits2_pos p) - 53)%Z by (unfold fexp, emin, prec, emax; lia).
  unfold shl_align.
  destruct (Zpos (digits2_pos p) - 53 - 0)%Z as [| k | k] eqn:Hk; try lia.
  - exists p, 0%Z. rewrite binary_round_aux_canonical;
      unfold emin, prec, emax; try lia.
    repeat split; try lia.
  - destruct (pos_iter_xO p k) as [Hv Hdig].
    exists (Pos.iter xO p k), (Zpos (digits2_pos p) - 53)%Z.
    rewrite binary_round_aux_canonical;
      unfold emin, prec, emax; try lia.
    repeat split; try lia.
    rewrite Hv. do 2 f_equal. lia.
Qed.

Lemma new_location_zero (nb : Z) : new_location nb 0 = loc_Exact.
Proof.
  unfold new_location, new_location_even, new_location_odd.
  destruct (Z.even nb); reflexivity.
Qed.

(** [a / b] for text lengths with [a <= 2^c * b]: zero or a Number of at
    most [2^c]. *)
Lemma numDiv_below (a b c : Z) :
  (0 < a < 2 ^ 53)%Z -> (0 < b < 2 ^ 53)%Z -> (0 <= c <= 53)%Z ->
  (a <= 2 ^ c * b)%Z ->
  numDiv (numberOfZ a) (numberOfZ b) = S754_zero false \/
  exists m e,
    numDiv (numberOfZ a) (numberOfZ b) = S754_finite false m e /\
    (e <= c)%Z /\ (Zpos m <= 1 * 2 ^ (c - e))%Z.
Proof.
  intros Ha Hb Hc Hab.
  destruct (numberOfZ_normal a Ha) as [ma [ea [-> [Hea [Hma Hda]]]]].
  destruct (numberOfZ_normal b Hb) as [mb [eb [-> [Heb [Hmb Hdb]]]]].
  unfold numDiv, SFdiv, SFdiv_core_binary. cbn [Zdigits2 xorb].
  rewrite Hda, Hdb.
  replace (Z.min (fexp prec emax (prec + ea - (prec + eb))) (ea - eb))
    with (ea - eb - 53)%Z by (unfold fexp, emin, prec, emax; lia).
  replace (ea - eb - (ea - eb - 53))%Z with 53%Z by lia.
  rewrite Z.shiftl_mul_pow2 by lia.
  pose proof (Z_div_mod (Zpos ma * 2 ^ 53) (Zpos mb) ltac:(lia)) as Hdiv.
  destruct (Z.div_eucl (Zpos ma * 2 ^ 53) (Zpos mb)) as [q r].
  destruct Hdiv as [Heq Hr].
  apply binary_round_aux_below;
    [unfold prec; lia | unfold emin, prec, emax; lia |].
  assert (Hpa : (0 < 2 ^ (- ea))%Z) by (apply Z.pow_pos_nonneg; lia).
  assert (Hpb : (0 < 2 ^ (- eb))%Z) by (apply Z.pow_pos_nonneg; lia).
  assert (Hpc : (0 < 2 ^ c)%Z) by (apply Z.pow_pos_nonneg; lia).
  assert (Hbound : (Zpos ma * 2 ^ 53 <= 1 * 2 ^ (c - (ea - eb - 53)) * Zpos mb)%Z).
  { rewrite Hma, Hmb.
    replace (c - (ea - eb - 53))%Z with (c + (- ea) + 53 + eb)%Z by lia.
    replace (1 * 2 ^ (c + - ea + 53 + eb) * (b * 2 ^ (- eb)))%Z
      with (b * (2 ^ (c + - ea + 53 + eb) * 2 ^ (- eb)))%Z by ring.
    rewrite <- Z.pow_add_r by lia.
    replace (c + - ea + 53 + eb + - eb)%Z with (c + - ea + 53)%Z by lia.
    rewrite !Z.pow_add_r by lia.
    assert (0 < 2 ^ 53)%Z by lia. nia. }
  split.
  - split; [nia |]. split; [lia | nia].
  - intros Hloc.
    assert (Hr0 : r <> 0%Z).
    { intros ->. apply Hloc. apply new_location_zero. }
    nia.
Qed.

(** [x * 100] for a Number [x] of at most [2^c]: zero or at most
    [100 * 2^c]. *)
Lemma numMul_hundred_below (m : positive) (e c : Z) :
  (0 <= c <= 53)%Z -> (e <= c)%Z -> (Zpos m <= 1 * 2 ^ (c - e))%Z ->
  numMul (S754_finite false m e) (numberOfZ 100) = S754_zero false \/
  exists m' e',
    numMul (S754_finite false m e) (numberOfZ 100) = S754_finite false m' e' /\
    (e' <= c + 2)%Z /\ (Zpos m' <= 25 * 2 ^ (c + 2 - e'))%Z.
Proof.
  intros Hc He Hm.
  change (numberOfZ 100) with (S754_finite false 7036874417766400 (-46)).
  unfold numMul, SFmul. cbn [xorb].
  apply binary_round_aux_below;
    [unfold prec; lia | unfold emin, prec, emax; lia |].
  assert (Hp : (0 < 2 ^ (c - e))%Z) by (apply Z.pow_pos_nonneg; lia).
  split; [| intros H; now elim H].
  split; [lia |]. split; [lia |].
  replace (c + 2 - (e + -46))%Z with (48 + (c - e))%Z by lia.
  rewrite Z.pow_add_r, Pos2Z.inj_mul by lia.
  change (2 ^ 48)%Z with 281474976710656%Z. nia.
Qed.

(** [x.toFixed(2)] for a Number [x] of at most [100 * 2^c]. *)
Lemma toFixed2_below (m : positive) (e c : Z) :
  (0 <= c <= 53)%Z -> (e <= c + 2)%Z -> (Zpos m <= 25 * 2 ^ (c + 2 - e))%Z ->
  exists n,
    toFixed2 (S754_finite false m e) = Decimal false n /\
    (0 <= n <= 10000 * 2 ^ c)%Z.
Proof.
  intros Hc He Hm. unfold toFixed2, atLeast1e21, nearestHundredths.
  assert (Hpc : (0 < 2 ^ c <= 2 ^ 53)%Z).
  { split; [apply Z.pow_pos_nonneg; lia | apply Z.pow_le_mono_r; lia]. }
  destruct e as [| k | k].
  - rewrite Z.sub_0_r, Z.pow_add_r in Hm by lia.
    change (2 ^ 0)%Z with 1%Z. change (2 ^ 2)%Z with 4%Z in Hm.
    destruct (Z.leb_spec (10 ^ 21) (Zpos m * 1)) as [Hbig | _];
      [change (10 ^ 21)%Z with 1000000000000000000000%Z in Hbig;
       change (2 ^ 53)%Z with 9007199254740992%Z in Hpc; lia |].
    eexists. split; [reflexivity | lia].
  - assert (Hsplit : (25 * 2 ^ (c + 2) = 25 * 2 ^ (c + 2 - Zpos k) * 2 ^ Zpos k)%Z).
    { rewrite <- Z.mul_assoc, <- Z.pow_add_r by lia. do 2 f_equal. lia. }
    assert (Hpk : (0 < 2 ^ Zpos k)%Z) by (apply Z.pow_pos_nonneg; lia).
    rewrite Z.pow_add_r in Hsplit by lia. change (2 ^ 2)%Z with 4%Z in Hsplit.
    assert (Hv : (Zpos m * 2 ^ Zpos k <= 100 * 2 ^ c)%Z) by nia.
    destruct (Z.leb_spec (10 ^ 21) (Zpos m * 2 ^ Zpos k)) as [Hbig | _];
      [change (10 ^ 21)%Z with 1000000000000000000000%Z in Hbig;
       change (2 ^ 53)%Z with 9007199254740992%Z in Hpc; lia |].
    eexists. split; [reflexivity | nia].
  - assert (Hpk : (0 < 2 ^ Zpos k)%Z) by (apply Z.pow_pos_nonneg; lia).
    replace (c + 2 - Zneg k)%Z with (c + 2 + Zpos k)%Z in Hm by lia.
    rewrite !Z.pow_add_r in Hm by lia. change (2 ^ 2)%Z with 4%Z in Hm.
    destruct (Z.leb_spec (10 ^ 21 * 2 ^ Zpos k) (Zpos m)) as [Hbig | _];
      [change (10 ^ 21)%Z with 1000000000000000000000%Z in Hbig;
       change (2 ^ 53)%Z with 9007199254740992%Z in Hpc; nia |].
    eexists. split; [reflexivity |].
    rewrite Z.pow_add_r by lia. change (2 ^ 1)%Z with 2%Z.
    split; [apply Z.div_pos; lia |].
    apply Z.lt_succ_r. apply Z.div_lt_upper_bound; [lia | nia].
Qed.

(* ===================================================================== *)
(** * The SSR percentage *)

(** [(a / b * 100).toFixed(2)] for text lengths with [a <= 2^c * b]. *)
Lemma percentage_below (a b c : Z) :
  (0 <= a < 2 ^ 53)%Z -> (0 < b < 2 ^ 53)%Z -> (0 <= c <= 53)%Z ->
  (a <= 2 ^ c * b)%Z ->
  exists n,
    toFixed2 (numMul (numDiv (numberOfZ a) (numberOfZ b)) (numberOfZ 100))
      = Decimal false n /\
    (0 <= n <= 10000 * 2 ^ c)%Z.
Proof.
  intros Ha Hb Hc Hab.
  assert (Hpc : (0 < 2 ^ c)%Z) by (apply Z.pow_pos_nonneg; lia).
  assert (Hzero : exists n,
             toFixed2 (numMul (S754_zero false) (numberOfZ 100)) = Decimal false n /\
             (0 <= n <= 10000 * 2 ^ c)%Z).
  { exists 0%Z. split; [reflexivity | lia]. }
  assert (Hquot : numDiv (numberOfZ a) (numberOfZ b) = S754_zero false \/
                  exists m e,
                    numDiv (numberOfZ a) (numberOfZ b) = S754_finite false m e /\
                    (e <= c)%Z /\ (Zpos m <= 1 * 2 ^ (c - e))%Z).
  { destruct (Z.eq_dec a 0) as [-> | Hne].
    - left. destruct (numberOfZ_normal b Hb) as [mb [eb [-> _]]]. reflexivity.
    - apply numDiv_below; lia. }
  destruct Hquot as [-> | [m [e [-> [He Hm]]]]]; [exact Hzero |].
  destruct (numMul_hundred_below m e c Hc He Hm) as [-> | [m' [e' [-> [He' Hm']]]]].
  - exists 0%Z. split; [reflexivity | lia].
  - apply toFixed2_below; assumption.
Qed.

(** C1, as the code has it. For captures whose texts are JavaScript strings
    (shorter than [2^53]): when the scripting-enabled text is empty the
    result is the Number [0]; otherwise it is the two-decimal text of a
    value that is never NaN nor negative, and that is at most [100.00]
    whenever the no-scripting text is not longer than the scripting-enabled
    text. *)
Theorem calculateSSRPercentage_range (E : Env) (initialHtml finalHtml : string) :
  (Z.of_nat (String.length (extractText E initialHtml)) < 2 ^ 53)%Z ->
  (Z.of_nat (String.length (extractText E finalHtml)) < 2 ^ 53)%Z ->
  (String.length (extractText E finalHtml) = 0%nat ->
   calculateSSRPercentage E initialHtml finalHtml = SsrNumber (S754_zero false)) /\
  ((0 < String.length (extractText E finalHtml))%nat ->
   exists n,
     calculateSSRPercentage E initialHtml finalHtml = SsrString (Decimal false n) /\
     (0 <= n)%Z /\
     ((String.length (extractText E initialHtml)
       <= String.length (extractText E finalHtml))%nat -> (n <= 10000)%Z)).
Proof.
  unfold calculateSSRPercentage.
  set (a := String.length (extractText E initialHtml)).
  set (b := String.length (extractText E finalHtml)).
  intros Ha Hb. split.
  - intros ->. reflexivity.
  - intros Hpos. destruct (Nat.eqb_spec b 0) as [Hz | _]; [lia |].
    destruct (le_dec a b) as [Hle | Hgt].
    + destruct (percentage_below (Z.of_nat a) (Z.of_nat b) 0) as [n [-> Hn]];
        try lia.
      exists n. change (2 ^ 0)%Z with 1%Z in Hn.
      split; [reflexivity |]. split; lia.
    + destruct (percentage_below (Z.of_nat a) (Z.of_nat b) 53) as [n [-> Hn]];
        try lia.
      exists n. split; [reflexivity |]. split; [lia |]. intros Hle. lia.
Qed.

Lemma calculateSSRPercentage_range_witness :
  (Z.of_nat (String.length (extractText (scriptedEnv staticSite) "loading")) < 2 ^ 53)%Z /\
  (Z.of_nat (String.length (extractText (scriptedEnv staticSite) "loading the page")) < 2 ^ 53)%Z /\
  (0 < String.length (extractText (scriptedEnv staticSite) "loading the page"))%nat /\
  exists n,
    calculateSSRPercentage (scriptedEnv staticSite) "loading" "loading the page"
      = SsrString (Decimal false n) /\
    (0 <= n)%Z /\
    ((String.length (extractText (scriptedEnv staticSite) "loading")
      <= String.length (extractText (scriptedEnv staticSite) "loading the page"))%nat ->
     (n <= 10000)%Z).
Proof.
  split; [vm_compute; reflexivity |].
  split; [vm_compute; reflexivity |].
  split; [vm_compute; lia |].
  apply (calculateSSRPercentage_range (scriptedEnv staticSite)
           "loading" "loading the page");
    [vm_compute; reflexivity | vm_compute; reflexivity | vm_compute; lia].
Defined.

(** C1, as the specification states it, fails: a no-scripting text of 17
    characters against a scripting-enabled text of 4 gives [425.00]. *)
Lemma calculateSSRPercentage_above_100 :
  (0 < String.length (extractText (scriptedEnv staticSite) "Done"))%nat /\
  calculateSSRPercentage (scriptedEnv staticSite) "Loading your page" "Done"
    = SsrString (Decimal false 42500) /\
  ~ (42500 <= 10000)%Z.
Proof.
  split; [vm_compute; lia |]. split; [vm_compute; reflexivity | lia].
Qed.

(* ===================================================================== *)
(** * Text extraction: the whitespace of the result

    What [extractText] does after cheerio returned the text of [body]. Which
    elements that text covers is decided inside cheerio, see [bodyText]. *)

Lemma collapseSpaces_start (s : string) :
  startsWithSpace (collapseSpaces s) = startsWithSpace s.
Proof.
  induction s as [| c r IH]; [reflexivity |].
  cbn [collapseSpaces]. destruct (is_space c) eqn:Hc.
  - destruct r as [| d r']; [now simpl; rewrite Hc |].
    destruct (is_space d) eqn:Hd.
    + rewrite IH. simpl. now rewrite Hc, Hd.
    + simpl. now rewrite Hc.
  - simpl. reflexivity.
Qed.

Lemma collapseSpaces_spaced (s : string) : spaced (collapseSpaces s) = true.
Proof.
  induction s as [| c r IH]; [reflexivity |].
  cbn [collapseSpaces]. destruct (is_space c) eqn:Hc.
  - destruct r as [| d r']; [reflexivity |].
    destruct (is_space d) eqn:Hd; [exact IH |].
    cbn [spaced]. rewrite IH, collapseSpaces_start. simpl. rewrite Hd.
    reflexivity.
  - cbn [spaced]. now rewrite Hc, IH.
Qed.

Lemma spaced_cons (c : ascii) (r : string) :
  spaced (String c r) =
  (negb (is_space c) || (Ascii.eqb c " " && negb (startsWithSpace r)))
  && spaced r.
Proof. reflexivity. Qed.

Lemma spaced_tail (c : ascii) (r : string) :
  spaced (String c r) = true -> spaced r = true.
Proof. cbn [spaced]. intros H. now apply andb_true_iff in H. Qed.

Lemma trimStart_spaced (s : string) :
  spaced s = true ->
  spaced (trimStart s) = true /\ startsWithSpace (trimStart s) = false.
Proof.
  induction s as [| c r IH]; intros Hs; [split; reflexivity |].
  cbn [trimStart]. destruct (is_space c) eqn:Hc.
  - apply IH. exact (spaced_tail _ _ Hs).
  - split; [exact Hs | exact Hc].
Qed.

Lemma trimEnd_head (s : string) (d : ascii) (t : string) :
  trimEnd s = String d t -> exists r, s = String d r.
Proof.
  destruct s as [| c r]; [discriminate |]. cbn [trimEnd].
  destruct (trimEnd r); [destruct (is_space c) |]; intros H;
    try discriminate; injection H as <- _; now exists r.
Qed.

Lemma trimEnd_spaced (s : string) :
  spaced s = true ->
  spaced (trimEnd s) = true /\ endsWithSpace (trimEnd s) = false /\
  (startsWithSpace s = false -> startsWithSpace (trimEnd s) = false).
Proof.
  induction s as [| c r IH]; intros Hs; [repeat split; reflexivity |].
  pose proof (spaced_tail _ _ Hs) as Hr.
  destruct (IH Hr) as [IHs [IHe _]].
  cbn [trimEnd]. destruct (trimEnd r) as [| d t] eqn:Ht.
  - destruct (is_space c) eqn:Hc.
    + repeat split; reflexivity || (simpl; congruence).
    + repeat split; simpl; rewrite ?Hc; reflexivity || tauto.
  - destruct (trimEnd_head r d t Ht) as [r' ->].
    split; [| split].
    + rewrite spaced_cons in Hs |- *. rewrite IHs, andb_true_r.
      apply andb_true_iff in Hs. exact (proj1 Hs).
    + exact IHe.
    + simpl. tauto.
Qed.

(** The text [extractText] returns is normalized, whatever cheerio gave. *)
Lemma extractText_normalized (E : Env) (html : string) :
  normalized (extractText E html) = true.
Proof.
  unfold extractText, trim, normalized.
  destruct (trimStart_spaced _ (collapseSpaces_spaced (bodyText E html)))
    as [Hs Hstart].
  destruct (trimEnd_spaced _ Hs) as [Hs' [Hend Hkeep]].
  now rewrite (Hkeep Hstart), Hend, Hs'.
Qed.

Lemma collapseSpaces_ink (s : string) : inkOf (collapseSpaces s) = inkOf s.
Proof.
  induction s as [| c r IH]; [reflexivity |].
  cbn [collapseSpaces inkOf]. destruct (is_space c) eqn:Hc.
  - destruct r as [| d r']; [reflexivity |].
    destruct (is_space d) eqn:Hd; [exact IH |].
    cbn [inkOf] in IH |- *. rewrite Hd in IH |- *. simpl is_space.
    exact IH.
  - cbn [inkOf]. now rewrite Hc, IH.
Qed.

Lemma trimStart_ink (s : string) : inkOf (trimStart s) = inkOf s.
Proof.
  induction s as [| c r IH]; [reflexivity |].
  cbn [trimStart]. destruct (is_space c) eqn:Hc; [| reflexivity].
  cbn [inkOf]. now rewrite Hc.
Qed.

Lemma trimEnd_ink (s : string) : inkOf (trimEnd s) = inkOf s.
Proof.
  induction s as [| c r IH]; [reflexivity |].
  cbn [trimEnd]. destruct (trimEnd r) as [| d t].
  - simpl in IH. destruct (is_space c) eqn:Hc; simpl; rewrite Hc, <- IH;
      reflexivity.
  - change (inkOf (String c (String d t)))
      with (if is_space c then inkOf (String d t)
            else String c (inkOf (String d t))).
    rewrite IH. reflexivity.
Qed.

(** Only whitespace is removed: the other characters are those of the
    text cheerio gave, in order. *)
Lemma extractText_ink (E : Env) (html : string) :
  inkOf (extractText E html) = inkOf (bodyText E html).
Proof.
  unfold extractText, trim.
  now rewrite trimEnd_ink, trimStart_ink, collapseSpaces_ink.
Qed.

(* ===================================================================== *)
(** * Page selection: what is selected *)

Lemma nth_error_defined {A} (l : list A) (i : nat) :
  (i < List.length l)%nat -> exists x, nth_error l i = Some x /\ In x l.
Proof.
  intros Hi. destruct (nth_error l i) as [x |] eqn:Hx.
  - exists x. split; [reflexivity | exact (nth_error_In _ _ Hx)].
  - apply nth_error_None in Hx. lia.
Qed.

Lemma half_lt (n : nat) : (0 < n -> n / 2 < n)%nat.
Proof. intros Hn. apply Nat.div_lt; lia. Qed.

(** X1. Given one or two candidate URLs, [selectPages] returns the first
    one alone: a single slot, and it is defined. *)
Theorem selectPages_one_or_two (urls : list string) :
  (0 < List.length urls < 3)%nat ->
  exists home, nth_error urls 0 = Some home /\ selectPages urls = [Some home].
Proof.
  intros [Hpos Hlt]. rewrite (selectPages_short urls Hlt).
  destruct urls as [| home rest]; [simpl in Hpos; lia |].
  exists home. split; reflexivity.
Qed.

Lemma selectPages_one_or_two_witness :
  exists home,
    nth_error ["https://a.test/"; "https://a.test/blog"] 0 = Some home /\
    selectPages ["https://a.test/"; "https://a.test/blog"] = [Some home].
Proof.
  apply (selectPages_one_or_two ["https://a.test/"; "https://a.test/blog"]).
  simpl. lia.
Defined.

(** X2. Given three candidate URLs or more, [selectPages] returns three
    slots that are all defined: the first candidate, and two URLs taken
    from the candidates. *)
Theorem selectPages_three_candidates (urls : list string) :
  (3 <= List.length urls)%nat ->
  exists home mid deep,
    selectPages urls = [Some home; Some mid; Some deep] /\
    nth_error urls 0 = Some home /\ In mid urls /\ In deep urls.
Proof.
  intros Hlen. unfold selectPages.
  destruct (Nat.ltb_spec (List.length urls) 3) as [Hlt | _]; [lia |].
  destruct (nth_error_defined urls 0 ltac:(lia)) as [home [Hhome _]].
  assert (Hrel : forall i, (i < List.length (filter isSEORelevantPage urls))%nat ->
                 exists x, nth_error (filter isSEORelevantPage urls) i = Some x /\
                           In x urls).
  { intros i Hi. destruct (nth_error_defined _ i Hi) as [x [Hx Hin]].
    exists x. split; [exact Hx |]. apply filter_In in Hin. tauto. }
  assert (Hmid : exists mid,
            (if (0 <? List.length (filter isSEORelevantPage urls))%nat
             then nth_error (filter isSEORelevantPage urls)
                            (List.length (filter isSEORelevantPage urls) / 2)
             else nth_error urls (List.length urls / 2)) = Some mid /\
            In mid urls).
  { destruct (Nat.ltb_spec 0 (List.length (filter isSEORelevantPage urls))).
    - apply Hrel. now apply half_lt.
    - apply nth_error_defined. apply half_lt. lia. }
  assert (Hdeep : exists deep,
            (if (1 <? List.length (filter isSEORelevantPage urls))%nat
             then nth_error (filter isSEORelevantPage urls)
                            (List.length (filter isSEORelevantPage urls) - 1)
             else nth_error urls (List.length urls - 1)) = Some deep /\
            In deep urls).
  { destruct (Nat.ltb_spec 1 (List.length (filter isSEORelevantPage urls))).
    - apply Hrel. lia.
    - apply nth_error_defined. lia. }
  destruct Hmid as [mid [-> Hmid]]. destruct Hdeep as [deep [-> Hdeep]].
  exists home, mid, deep. rewrite Hhome. repeat split; assumption.
Qed.

Lemma selectPages_three_candidates_witness :
  exists home mid deep,
    selectPages ["https://a.test/"; "https://a.test/about"; "https://a.test/faq"]
      = [Some home; Some mid; Some deep] /\
    nth_error ["https://a.test/"; "https://a.test/about"; "https://a.test/faq"] 0
      = Some home /\
    In mid ["https://a.test/"; "https://a.test/about"; "https://a.test/faq"] /\
    In deep ["https://a.test/"; "https://a.test/about"; "https://a.test/faq"].
Proof.
  apply (selectPages_three_candidates
           ["https://a.test/"; "https://a.test/about"; "https://a.test/faq"]).
  simpl. lia.
Defined.

(** X3. Given three candidates or more of which exactly one is
    SEO-relevant, the mid page is that URL, while the deep page is the last
    URL of the whole list, relevant or not. *)
Theorem selectPages_one_relevant (urls : list string) (page : string) :
  (3 <= List.length urls)%nat ->
  filter isSEORelevantPage urls = [page] ->
  selectPages urls =
    [nth_error urls 0; Some page; nth_error urls (List.length urls - 1)].
Proof.
  intros Hlen Hrel. unfold selectPages.
  destruct (Nat.ltb_spec (List.length urls) 3) as [Hlt | _]; [lia |].
  rewrite Hrel. reflexivity.
Qed.

Lemma selectPages_one_relevant_witness :
  selectPages ["https://a.test/"; "https://a.test/blog"; "https://a.test/about";
               "https://a.test/faq"] =
    [Some "https://a.test/"; Some "https://a.test/blog"; Some "https://a.test/faq"].
Proof.
  apply (selectPages_one_relevant
           ["https://a.test/"; "https://a.test/blog"; "https://a.test/about";
            "https://a.test/faq"] "https://a.test/blog");
    [simpl; lia | reflexivity].
Defined.

(** X4. Given three candidates or more of which two or more are
    SEO-relevant, the mid page and the deep page are both SEO-relevant: the
    middle one and the last one of the relevant candidates. *)
Theorem selectPages_relevant_first (urls : list string) :
  (3 <= List.length urls)%nat ->
  (2 <= List.length (filter isSEORelevantPage urls))%nat ->
  exists mid deep,
    selectPages urls = [nth_error urls 0; Some mid; Some deep] /\
    isSEORelevantPage mid = true /\ isSEORelevantPage deep = true /\
    nth_error (filter isSEORelevantPage urls)
              (List.length (filter isSEORelevantPage urls) / 2) = Some mid /\
    nth_error (filter isSEORelevantPage urls)
              (List.length (filter isSEORelevantPage urls) - 1) = Some deep.
Proof.
  intros Hlen Hrel. unfold selectPages.
  destruct (Nat.ltb_spec (List.length urls) 3) as [Hlt | _]; [lia |].
  destruct (Nat.ltb_spec 0 (List.length (filter isSEORelevantPage urls)));
    [| lia].
  destruct (Nat.ltb_spec 1 (List.length (filter isSEORelevantPage urls)));
    [| lia].
  destruct (nth_error_defined (filter isSEORelevantPage urls)
              (List.length (filter isSEORelevantPage urls) / 2))
    as [mid [Hmid Hin1]]; [apply half_lt; lia |].
  destruct (nth_error_defined (filter isSEORelevantPage urls)
              (List.length (filter isSEORelevantPage urls) - 1))
    as [deep [Hdeep Hin2]]; [lia |].
  exists mid, deep. rewrite Hmid, Hdeep.
  apply filter_In in Hin1. apply filter_In in Hin2. tauto.
Qed.

Lemma selectPages_relevant_first_witness :
  exists mid deep,
    selectPages ["https://a.test/"; "https://a.test/blog"; "https://a.test/shop";
                 "https://a.test/news"; "https://a.test/faq"]
      = [nth_error ["https://a.test/"; "https://a.test/blog"; "https://a.test/shop";
                    "https://a.test/news"; "https://a.test/faq"] 0;
         Some mid; Some deep] /\
    isSEORelevantPage mid = true /\ isSEORelevantPage deep = true /\
    nth_error (filter isSEORelevantPage
                 ["https://a.test/"; "https://a.test/blog"; "https://a.test/shop";
                  "https://a.test/news"; "https://a.test/faq"])
              (List.length (filter isSEORelevantPage
                 ["https://a.test/"; "https://a.test/blog"; "https://a.test/shop";
                  "https://a.test/news"; "https://a.test/faq"]) / 2) = Some mid /\
    nth_error (filter isSEORelevantPage
                 ["https://a.test/"; "https://a.test/blog"; "https://a.test/shop";
                  "https://a.test/news"; "https://a.test/faq"])
              (List.length (filter isSEORelevantPage
                 ["https://a.test/"; "https://a.test/blog"; "https://a.test/shop";
                  "https://a.test/news"; "https://a.test/faq"]) - 1) = Some deep.
Proof.
  apply (selectPages_relevant_first
           ["https://a.test/"; "https://a.test/blog"; "https://a.test/shop";
            "https://a.test/news"; "https://a.test/faq"]);
    [simpl; lia | vm_compute; lia].
Defined.

(* ===================================================================== *)
(** * SEO relevance *)

Lemma lower_char_idempotent (c : ascii) : lower_char (lower_char c) = lower_char c.
Proof.
  destruct c as [[|] [|] [|] [|] [|] [|] [|] [|]]; vm_compute; reflexivity.
Qed.

Lemma prefix_ci_app (p post : string) : prefix_ci p (p ++ post) = true.
Proof.
  induction p as [| c p IH]; [reflexivity |].
  simpl. now rewrite Ascii.eqb_refl, IH.
Qed.

Lemma contains_ci_app (p pre post : string) :
  contains_ci p (pre ++ p ++ post) = true.
Proof.
  induction pre as [| c pre IH].
  - simpl. destruct (p ++ post)%string eqn:Heq;
      simpl; rewrite <- Heq, prefix_ci_app; reflexivity.
  - cbn [append contains_ci]. rewrite IH. apply orb_true_r.
Qed.

Lemma prefix_ci_toLowerCase (p s : string) :
  prefix_ci p (toLowerCase s) = prefix_ci p s.
Proof.
  revert s. induction p as [| a p IH]; intros [| b s]; try reflexivity.
  simpl. now rewrite lower_char_idempotent, IH.
Qed.

Lemma contains_ci_toLowerCase (p s : string) :
  contains_ci p (toLowerCase s) = contains_ci p s.
Proof.
  induction s as [| b s IH].
  - reflexivity.
  - change (toLowerCase (String b s)) with (String (lower_char b) (toLowerCase s)).
    cbn [contains_ci].
    change (String (lower_char b) (toLowerCase s)) with (toLowerCase (String b s)).
    now rewrite prefix_ci_toLowerCase, IH.
Qed.

Lemma isSEORelevantPage_toLowerCase (url : string) :
  isSEORelevantPage (toLowerCase url) = isSEORelevantPage url.
Proof.
  unfold isSEORelevantPage. induction seoKeywords as [| k ks IH];
    [reflexivity |].
  simpl. now rewrite contains_ci_toLowerCase, IH.
Qed.

(** X5. A URL is SEO-relevant as soon as one of the keywords occurs
    anywhere in it, be it in the host name or in the query. *)
Theorem isSEORelevantPage_keyword_anywhere (k pre post : string) :
  In k seoKeywords -> isSEORelevantPage (pre ++ k ++ post) = true.
Proof.
  intros Hk. unfold isSEORelevantPage. apply existsb_exists.
  exists k. split; [exact Hk | apply contains_ci_app].
Qed.

Lemma isSEORelevantPage_keyword_anywhere_witness :
  isSEORelevantPage ("https://" ++ "shop" ++ ".a.test/about") = true.
Proof.
  apply (isSEORelevantPage_keyword_anywhere "shop" "https://" ".a.test/about").
  simpl. tauto.
Defined.

(** X6. Two URLs that differ in letter case only are classified alike. *)
Theorem isSEORelevantPage_ignores_case (u v : string) :
  toLowerCase u = toLowerCase v ->
  isSEORelevantPage u = isSEORelevantPage v.
Proof.
  intros H.
  rewrite <- (isSEORelevantPage_toLowerCase u), <- (isSEORelevantPage_toLowerCase v).
  now rewrite H.
Qed.

Lemma isSEORelevantPage_ignores_case_witness :
  isSEORelevantPage "https://a.test/BLOG/Post" =
  isSEORelevantPage "https://a.test/blog/post".
Proof.
  apply (isSEORelevantPage_ignores_case "https://a.test/BLOG/Post"
           "https://a.test/blog/post").
  reflexivity.
Defined.

(* ===================================================================== *)
(** * Link discovery: the other paths *)

Lemma firstSeen_fresh (seen l : list string) :
  NoDup l -> (forall x, In x l -> ~ In x seen) -> firstSeen seen l = l.
Proof.
  revert seen. induction l as [| y r IH]; intros seen Hnd Hfresh;
    [reflexivity |].
  inversion Hnd as [| y' r' Hy Hr]; subst. simpl.
  destruct (existsb (String.eqb y) seen) eqn:Hseen.
  - apply existsb_eqb_In in Hseen. exfalso.
    exact (Hfresh y (or_introl eq_refl) Hseen).
  - f_equal. apply IH; [exact Hr |].
    intros x Hx Hin. apply in_app_or in Hin. destruct Hin as [Hin | [<- | []]].
    + exact (Hfresh x (or_intror Hx) Hin).
    + contradiction.
Qed.

(** X7. The filter of lines 59 and 80 returns a list without duplicates
    that has the members of its input and the same first element, and it
    leaves its own output unchanged. *)
Theorem uniqueLinks_keeps_first (arr : list string) :
  NoDup (uniqueLinks arr) /\
  (forall x, In x (uniqueLinks arr) <-> In x arr) /\
  hd_error (uniqueLinks arr) = hd_error arr /\
  uniqueLinks (uniqueLinks arr) = uniqueLinks arr.
Proof.
  split; [apply uniqueLinks_NoDup |].
  split; [apply uniqueLinks_In |].
  split.
  - rewrite uniqueLinks_firstSeen. destruct arr; reflexivity.
  - rewrite (uniqueLinks_firstSeen (uniqueLinks arr)).
    apply firstSeen_fresh; [apply uniqueLinks_NoDup | intros x _ []].
Qed.

(** X8. [scrapeInternalLinks] renders the page once. When the rendering
    returns, the links are the anchors without duplicates, the first anchor
    first; when it throws, so does [scrapeInternalLinks]. *)
Theorem scrapeInternalLinks_outcome (E : Env) (url : string) (w : World E) :
  (forall anchors w',
     renderedAnchors E url w = (Ok anchors, w') ->
     exists links,
       scrapeInternalLinks E url w = (Ok links, w', [EvScrape url true]) /\
       NoDup links /\ (forall x, In x links <-> In x anchors) /\
       hd_error links = hd_error anchors) /\
  (forall error w',
     renderedAnchors E url w = (Throw error, w') ->
     scrapeInternalLinks E url w = (Throw error, w', [EvScrape url false])).
Proof.
  unfold scrapeInternalLinks, bind, call, ret. split.
  - intros anchors w' ->. exists (uniqueLinks anchors).
    split; [reflexivity |]. split; [apply uniqueLinks_NoDup |].
    split; [apply uniqueLinks_In |].
    rewrite uniqueLinks_firstSeen. destruct anchors; reflexivity.
  - intros error w' ->. reflexivity.
Qed.

(** X9. When the three sitemap fetches throw, [fetchSitemap] gives what
    [scrapeInternalLinks] gives on the homepage, after the three failed
    fetches in the order [/sitemap.xml], [/sitemap], [/site-map]. *)
Theorem fetchSitemap_all_fetches_fail (E : Env) (url u1 u2 u3 e1 e2 e3 : string)
    (w w1 w2 w3 : World E) :
  resolveURL E "/sitemap.xml" (if endsWithSlash url then sliceDropLast url else url)
    = Ok u1 ->
  resolveURL E "/sitemap" (if endsWithSlash url then sliceDropLast url else url)
    = Ok u2 ->
  resolveURL E "/site-map" (if endsWithSlash url then sliceDropLast url else url)
    = Ok u3 ->
  httpGet E u1 w = (Throw e1, w1) ->
  httpGet E u2 w1 = (Throw e2, w2) ->
  httpGet E u3 w2 = (Throw e3, w3) ->
  fetchSitemap E url w =
    (result (scrapeInternalLinks E url w3),
     snd (fst (scrapeInternalLinks E url w3)),
     [EvGet u1 false; EvGet u2 false; EvGet u3 false] ++
     events (scrapeInternalLinks E url w3)).
Proof.
  intros Hu1 Hu2 Hu3 Hg1 Hg2 Hg3.
  unfold fetchSitemap, fetchSitemapFrom, tryCatch, trySitemapPath.
  unfold bind, pure, fetchWithJitter, call.
  change ("/" ++ "sitemap.xml")%string with "/sitemap.xml".
  change ("/" ++ "sitemap")%string with "/sitemap".
  change ("/" ++ "site-map")%string with "/site-map".
  rewrite Hu1, Hg1, Hu2, Hg2, Hu3, Hg3.
  unfold result, events.
  destruct (scrapeInternalLinks E url w3) as [[r w4] ev]. reflexivity.
Qed.

Lemma fetchSitemap_all_fetches_fail_witness :
  fetchSitemap (scriptedEnv noLinksSite) "https://a.test" tt =
    (result (scrapeInternalLinks (scriptedEnv noLinksSite) "https://a.test" tt),
     snd (fst (scrapeInternalLinks (scriptedEnv noLinksSite) "https://a.test" tt)),
     [EvGet "https://a.test/sitemap.xml" false; EvGet "https://a.test/sitemap" false;
      EvGet "https://a.test/site-map" false] ++
     events (scrapeInternalLinks (scriptedEnv noLinksSite) "https://a.test" tt)).
Proof.
  apply (fetchSitemap_all_fetches_fail (scriptedEnv noLinksSite) "https://a.test"
           "https://a.test/sitemap.xml" "https://a.test/sitemap"
           "https://a.test/site-map" "404" "404" "404" tt tt tt tt);
    reflexivity.
Defined.

(** X10. A [/sitemap.xml] that is fetched but from which line 51 cannot
    read the locations (a sitemap index, a [urlset] without [url], an entry
    without [loc]) is given up: discovery goes on with [/sitemap] and
    [/site-map] as if the fetch had failed. *)
Theorem fetchSitemap_unreadable_xml (E : Env) (url u1 data error : string)
    (parsed : xml_result) (w w1 : World E) :
  resolveURL E "/sitemap.xml" (if endsWithSlash url then sliceDropLast url else url)
    = Ok u1 ->
  httpGet E u1 w = (Ok data, w1) ->
  parseXml E data = Ok parsed ->
  sitemapLinks parsed = Throw error ->
  fetchSitemap E url w =
    (let '(r, w', evs) :=
       fetchSitemapFrom E url (if endsWithSlash url then sliceDropLast url else url)
                        ["sitemap"; "site-map"] w1 in
     (r, w', EvGet u1 true :: evs)).
Proof.
  intros Hu1 Hg1 Hparse Hlinks.
  unfold fetchSitemap. cbn [fetchSitemapFrom]. unfold tryCatch at 1.
  unfold trySitemapPath at 1. unfold bind, pure, fetchWithJitter, call.
  change ("/" ++ "sitemap.xml")%string with "/sitemap.xml".
  rewrite Hu1, Hg1. cbn [String.eqb Ascii.eqb Bool.eqb].
  rewrite Hparse, Hlinks. reflexivity.
Qed.

Lemma fetchSitemap_unreadable_xml_witness :
  fetchSitemap (scriptedEnv sitemapIndexSite) "https://a.test" tt =
    (let '(r, w', evs) :=
       fetchSitemapFrom (scriptedEnv sitemapIndexSite) "https://a.test"
         "https://a.test" ["sitemap"; "site-map"] tt in
     (r, w', EvGet "https://a.test/sitemap.xml" true :: evs)).
Proof.
  apply (fetchSitemap_unreadable_xml (scriptedEnv sitemapIndexSite)
           "https://a.test" "https://a.test/sitemap.xml"
           "https://a.test/sitemap.xml" "TypeError" XmlOther tt tt);
    reflexivity.
Defined.

(** X11. An HTML page at [/sitemap] counts as a success whatever it
    holds: when it has no root-relative anchor, [fetchSitemap] returns the
    empty list, and neither [/site-map] nor the rendering fallback is
    tried. *)
Theorem fetchSitemap_html_without_anchors (E : Env) (url u2 data error : string)
    (w w1 w2 : World E) (ev1 : list event) :
  trySitemapPath E url (if endsWithSlash url then sliceDropLast url else url)
                 "sitemap.xml" w = (Throw error, w1, ev1) ->
  resolveURL E "/sitemap" (if endsWithSlash url then sliceDropLast url else url)
    = Ok u2 ->
  httpGet E u2 w1 = (Ok data, w2) ->
  anchorsOf E data = [] ->
  fetchSitemap E url w = (Ok [], w2, ev1 ++ [EvGet u2 true]).
Proof.
  intros Hxml Hu2 Hg2 Hanchors.
  unfold fetchSitemap. cbn [fetchSitemapFrom]. unfold tryCatch at 1.
  rewrite Hxml. unfold tryCatch at 1. unfold trySitemapPath at 1.
  unfold bind, pure, fetchWithJitter, call, ret.
  change ("/" ++ "sitemap")%string with "/sitemap".
  rewrite Hu2, Hg2. cbn [String.eqb Ascii.eqb Bool.eqb].
  rewrite Hanchors. reflexivity.
Qed.

Lemma fetchSitemap_html_without_anchors_witness :
  fetchSitemap (scriptedEnv emptyHtmlSitemapSite) "https://a.test" tt =
    (Ok [], tt,
     [EvGet "https://a.test/sitemap.xml" false] ++
     [EvGet "https://a.test/sitemap" true]).
Proof.
  apply (fetchSitemap_html_without_anchors (scriptedEnv emptyHtmlSitemapSite)
           "https://a.test" "https://a.test/sitemap" "https://a.test/sitemap"
           "404" tt tt tt);
    reflexivity.
Defined.

Lemma trySitemapPath_one_get (E : Env) (url baseUrl path : string) (w : World E) :
  events (trySitemapPath E url baseUrl path w) = [] \/
  exists u ok, events (trySitemapPath E url baseUrl path w) = [EvGet u ok].
Proof.
  unfold trySitemapPath, bind, pure, fetchWithJitter, call, ret, events.
  destruct (resolveURL E ("/" ++ path)%string baseUrl) as [sitemapUrl | err];
    [| now left].
  destruct (httpGet E sitemapUrl w) as [[data | err] w1]; simpl;
    [| right; exists sitemapUrl, false; reflexivity].
  right. exists sitemapUrl, true.
  destruct (String.eqb path "sitemap.xml").
  - destruct (parseXml E data) as [parsed | err]; simpl; [| reflexivity].
    destruct (sitemapLinks parsed); reflexivity.
  - destruct (mapOutcome _ (anchorsOf E data)); reflexivity.
Qed.

Lemma fetchSitemapFrom_effort (E : Env) (url baseUrl : string)
    (paths : list string) (w : World E) :
  exists gets tail,
    events (fetchSitemapFrom E url baseUrl paths w) = gets ++ tail /\
    (List.length gets <= List.length paths)%nat /\
    Forall (fun ev => exists u ok, ev = EvGet u ok) gets /\
    (tail = [] \/ exists ok, tail = [EvScrape url ok]) /\
    (forall error,
       result (fetchSitemapFrom E url baseUrl paths w) = Throw error ->
       tail = [EvScrape url false]).
Proof.
  revert w. induction paths as [| path rest IH]; intros w.
  - cbn [fetchSitemapFrom]. exists [].
    unfold scrapeInternalLinks, bind, call, ret, events, result.
    destruct (renderedAnchors E url w) as [[anchors | err] w1]; simpl.
    + exists [EvScrape url true]. repeat split; eauto. discriminate.
    + exists [EvScrape url false]. repeat split; eauto.
  - cbn [fetchSitemapFrom]. unfold tryCatch.
    pose proof (trySitemapPath_one_get E url baseUrl path w) as Hget.
    destruct (trySitemapPath E url baseUrl path w) as [[[links | err] w1] ev1];
      unfold events, result in *; simpl in *.
    + exists ev1, []. rewrite app_nil_r. split; [reflexivity |].
      destruct Hget as [-> | [u [ok ->]]]; simpl; repeat split;
        try lia; try (now left); try discriminate; repeat constructor; eauto.
    + destruct (IH w1) as [gets [tail [Hev [Hlen [Hgets [Htail Hthrow]]]]]].
      destruct (fetchSitemapFrom E url baseUrl rest w1) as [[r w2] ev2].
      simpl in *. subst ev2. exists (ev1 ++ gets), tail.
      split; [now rewrite app_assoc |].
      destruct Hget as [-> | [u [ok ->]]]; simpl; repeat split;
        try lia; try assumption.
      constructor; eauto.
Qed.

(** X12. [fetchSitemap] fetches three addresses at most and renders the
    homepage once at most, after the fetches. When it throws, the rendering
    is what threw. *)
Theorem fetchSitemap_effort (E : Env) (url : string) (w : World E) :
  exists gets tail,
    events (fetchSitemap E url w) = gets ++ tail /\
    (List.length gets <= 3)%nat /\
    Forall (fun ev => exists u ok, ev = EvGet u ok) gets /\
    (tail = [] \/ exists ok, tail = [EvScrape url ok]) /\
    (forall error,
       result (fetchSitemap E url w) = Throw error ->
       tail = [EvScrape url false]).
Proof.
  unfold fetchSitemap.
  exact (fetchSitemapFrom_effort E url _ ["sitemap.xml"; "sitemap"; "site-map"] w).
Qed.

Lemma fetchSitemapFrom_html_NoDup (E : Env) (url baseUrl : string)
    (paths : list string) (w w' : World E) (links : list string)
    (evs : list event) :
  ~ In "sitemap.xml" paths ->
  fetchSitemapFrom E url baseUrl paths w = (Ok links, w', evs) -> NoDup links.
Proof.
  revert w evs. induction paths as [| path rest IH]; intros w evs Hnot.
  - cbn [fetchSitemapFrom]. apply scrapeInternalLinks_NoDup.
  - cbn [fetchSitemapFrom]. unfold tryCatch.
    destruct (trySitemapPath E url baseUrl path w) as [[[found | err] w1] ev1] eqn:Htry.
    + intros H. injection H as -> _ _.
      apply (trySitemapPath_html_NoDup E url baseUrl path w w1 links ev1);
        [| exact Htry].
      intros ->. apply Hnot. now left.
    + destruct (fetchSitemapFrom E url baseUrl rest w1) as [[r w2] ev2] eqn:Hrest.
      intros H. injection H as -> -> _.
      apply (IH w1 ev2); [| exact Hrest].
      intros Hin. apply Hnot. now right.
Qed.

(** X13. Unless they come from [/sitemap.xml], the links [fetchSitemap]
    returns have no duplicate: when the XML strategy threw, whichever of the
    HTML strategies or the rendering fallback answers has deduplicated. *)
Theorem fetchSitemap_NoDup_without_xml (E : Env) (url error : string)
    (w w1 w' : World E) (ev1 evs : list event) (links : list string) :
  trySitemapPath E url (if endsWithSlash url then sliceDropLast url else url)
                 "sitemap.xml" w = (Throw error, w1, ev1) ->
  fetchSitemap E url w = (Ok links, w', evs) ->
  NoDup links.
Proof.
  intros Hxml. unfold fetchSitemap.
  change (fetchSitemapFrom E url
            (if endsWithSlash url then sliceDropLast url else url)
            ["sitemap.xml"; "sitemap"; "site-map"] w)
    with (tryCatch
            (trySitemapPath E url
               (if endsWithSlash url then sliceDropLast url else url)
               "sitemap.xml")
            (fun _ => fetchSitemapFrom E url
               (if endsWithSlash url then sliceDropLast url else url)
               ["sitemap"; "site-map"]) w).
  unfold tryCatch. rewrite Hxml.
  destruct (fetchSitemapFrom E url _ ["sitemap"; "site-map"] w1)
    as [[r w2] ev2] eqn:Hrest.
  intros H. injection H as -> -> _.
  apply (fetchSitemapFrom_html_NoDup E url
           (if endsWithSlash url then sliceDropLast url else url)
           ["sitemap"; "site-map"] w1 w' links ev2); [| exact Hrest].
  intros [H | [H | []]]; discriminate.
Qed.

Lemma fetchSitemap_NoDup_without_xml_witness :
  NoDup ["https://a.test/a"; "https://a.test/b"; "https://a.test/c"].
Proof.
  apply (fetchSitemap_NoDup_without_xml (scriptedEnv brokenMidSite)
           "https://a.test" "404" tt tt tt
           [EvGet "https://a.test/sitemap.xml" false]
           [EvGet "https://a.test/sitemap.xml" false;
            EvGet "https://a.test/sitemap" true]);
    reflexivity.
Defined.

(* ===================================================================== *)
(** * Binary64 rounding stays above a representable bound *)

Lemma Zdigits2_lower (m : Z) : (0 < m -> 2 ^ (Zdigits2 m - 1) <= m)%Z.
Proof.
  intros Hm. destruct m as [| p | p]; try lia.
  apply (digits2_pos_bounds p).
Qed.

Section Above.

Variables C c : Z.
Hypothesis C_fits : (0 < C < 2 ^ prec)%Z.
Hypothesis c_range : (emin prec emax <= c)%Z.

Lemma above_positive (m e : Z) : (0 <= m)%Z -> above C c m e -> (0 < m)%Z.
Proof.
  intros Hm [Hle Hgt]. destruct (Z_le_gt_dec e c) as [He | He].
  - assert (0 < 2 ^ (c - e))%Z by (apply Z.pow_pos_nonneg; lia).
    specialize (Hle He). nia.
  - specialize (Hgt ltac:(lia)). destruct (Z.eq_dec m 0) as [-> | Hne]; lia.
Qed.

Lemma above_mono (m m' e : Z) :
  (m <= m')%Z -> above C c m e -> above C c m' e.
Proof.
  intros Hm [Hle Hgt]. split.
  - intros He. specialize (Hle He). lia.
  - intros He. specialize (Hgt He).
    assert (0 < 2 ^ (e - c))%Z by (apply Z.pow_pos_nonneg; lia). nia.
Qed.

Lemma shr_fexp_above (m e : Z) (l : location) :
  (0 <= m)%Z -> above C c m e ->
  above C c (shr_m (fst (shr_fexp prec emax m e l)))
            (snd (shr_fexp prec emax m e l)).
Proof.
  intros Hm Hab. pose proof (above_positive m e Hm Hab) as Hpos.
  destruct (shr_fexp_spec m e l Hm) as [He' [Hm' _]].
  set (n := Z.max 0 (fexp prec emax (Zdigits2 m + e) - e)) in *.
  rewrite He', Hm'.
  assert (Hn : (0 <= n)%Z) by (subst n; lia).
  assert (Hpn : (0 < 2 ^ n)%Z) by (apply Z.pow_pos_nonneg; lia).
  destruct (Z.eq_dec n 0) as [Hz | Hnz].
  { rewrite Hz, Z.add_0_r, Z.div_1_r. exact Hab. }
  assert (He1 : (e + n = fexp prec emax (Zdigits2 m + e))%Z) by (subst n; lia).
  destruct Hab as [Hle Hgt]. split.
  - intros Hc. assert (He : (e <= c)%Z) by lia. specialize (Hle He).
    assert (Hsplit : (C * 2 ^ (c - e) = C * 2 ^ (c - (e + n)) * 2 ^ n)%Z).
    { rewrite <- Z.mul_assoc, <- Z.pow_add_r by lia. do 2 f_equal. lia. }
    rewrite <- (Z.div_mul (C * 2 ^ (c - (e + n))) (2 ^ n)) by lia.
    apply Z.div_le_mono; lia.
  - intros Hc.
    assert (Hnorm : (e + n = Zdigits2 m + e - prec)%Z).
    { rewrite He1 in Hc |- *. unfold fexp in *. lia. }
    assert (Hd : (n = Zdigits2 m - prec)%Z) by lia.
    pose proof (Zdigits2_lower m Hpos) as Hlow.
    assert (Hq : (2 ^ (prec - 1) <= m / 2 ^ n)%Z).
    { replace (Zdigits2 m - 1)%Z with ((prec - 1) + n)%Z in Hlow by lia.
      rewrite Z.pow_add_r in Hlow by (unfold prec; lia).
      rewrite <- (Z.div_mul (2 ^ (prec - 1)) (2 ^ n)) by lia.
      apply Z.div_le_mono; lia. }
    assert (Hp : (2 <= 2 ^ (e + n - c))%Z).
    { change 2%Z with (2 ^ 1)%Z at 1. apply Z.pow_le_mono_r; lia. }
    assert (Hprec : (2 ^ prec = 2 * 2 ^ (prec - 1))%Z).
    { reflexivity. }
    assert (0 < 2 ^ (prec - 1))%Z by (apply Z.pow_pos_nonneg; unfold prec; lia).
    nia.
Qed.

Lemma round_nearest_even_ge (m : Z) (l : location) :
  (m <= round_nearest_even m l)%Z.
Proof.
  unfold round_nearest_even.
  destruct l as [| []]; try destruct (Z.even m); lia.
Qed.

(** Rounding to nearest does not step below [C * 2^c]. *)
Lemma binary_round_aux_above (s : bool) (m e : Z) (l : location) :
  (0 <= m)%Z -> above C c m e ->
  binary_round_aux prec emax s m e l <> S754_zero s /\
  forall m' e',
    binary_round_aux prec emax s m e l = S754_finite s m' e' ->
    above C c (Zpos m') e'.
Proof.
  intros Hm Hab. unfold binary_round_aux.
  pose proof (shr_fexp_above m e l Hm Hab) as H1.
  destruct (shr_fexp_spec m e l Hm) as [_ [Hm1 _]].
  destruct (shr_fexp prec emax m e l) as [mrs1 e1]. cbn [fst snd] in *.
  assert (Hm1' : (0 <= shr_m mrs1)%Z).
  { rewrite Hm1. apply Z.div_pos; [lia |]. apply Z.pow_pos_nonneg; lia. }
  pose proof (round_nearest_even_ge (shr_m mrs1) (loc_of_shr_record mrs1)) as Hr.
  pose proof (above_mono _ _ _ Hr H1) as H1'.
  assert (Hr0 : (0 <= round_nearest_even (shr_m mrs1) (loc_of_shr_record mrs1))%Z)
    by lia.
  pose proof (shr_fexp_above _ e1 loc_Exact Hr0 H1') as H2.
  destruct (shr_fexp_spec _ e1 loc_Exact Hr0) as [_ [Hm2 _]].
  destruct (shr_fexp prec emax
              (round_nearest_even (shr_m mrs1) (loc_of_shr_record mrs1))
              e1 loc_Exact) as [mrs2 e2].
  cbn [fst snd] in *.
  assert (Hm2' : (0 <= shr_m mrs2)%Z).
  { rewrite Hm2. apply Z.div_pos; [lia |]. apply Z.pow_pos_nonneg; lia. }
  pose proof (above_positive _ _ Hm2' H2) as Hpos.
  destruct (shr_m mrs2) as [| p | p]; try lia.
  destruct (e2 <=? emax - prec)%Z.
  - split; [discriminate |]. intros m' e' H. injection H as <- <-. exact H2.
  - split; discriminate.
Qed.

End Above.

(* ===================================================================== *)
(** * The SSR percentage: the lower side and the edges *)

(** [a / b] for text lengths with [b <= a]: a Number of [1] at least. *)
Lemma numDiv_above (a b : Z) :
  (0 < a < 2 ^ 53)%Z -> (0 < b < 2 ^ 53)%Z -> (b <= a)%Z ->
  numDiv (numberOfZ a) (numberOfZ b) <> S754_zero false /\
  forall m e,
    numDiv (numberOfZ a) (numberOfZ b) = S754_finite false m e ->
    above 1 0 (Zpos m) e.
Proof.
  intros Ha Hb Hab.
  destruct (numberOfZ_normal a Ha) as [ma [ea [-> [Hea [Hma Hda]]]]].
  destruct (numberOfZ_normal b Hb) as [mb [eb [-> [Heb [Hmb Hdb]]]]].
  unfold numDiv, SFdiv, SFdiv_core_binary. cbn [Zdigits2 xorb].
  rewrite Hda, Hdb.
  replace (Z.min (fexp prec emax (prec + ea - (prec + eb))) (ea - eb))
    with (ea - eb - 53)%Z by (unfold fexp, emin, prec, emax; lia).
  replace (ea - eb - (ea - eb - 53))%Z with 53%Z by lia.
  rewrite Z.shiftl_mul_pow2 by lia.
  pose proof (Z_div_mod (Zpos ma * 2 ^ 53) (Zpos mb) ltac:(lia)) as Hdiv.
  destruct (Z.div_eucl (Zpos ma * 2 ^ 53) (Zpos mb)) as [q r].
  destruct Hdiv as [Heq Hr].
  assert (Hpa : (0 < 2 ^ (- ea))%Z) by (apply Z.pow_pos_nonneg; lia).
  assert (Hpb : (0 < 2 ^ (- eb))%Z) by (apply Z.pow_pos_nonneg; lia).
  assert (Hbound : (1 * 2 ^ (0 - (ea - eb - 53)) * Zpos mb <= Zpos ma * 2 ^ 53)%Z).
  { rewrite Hma, Hmb.
    replace (0 - (ea - eb - 53))%Z with (- ea + 53 + eb)%Z by lia.
    replace (1 * 2 ^ (- ea + 53 + eb) * (b * 2 ^ (- eb)))%Z
      with (b * (2 ^ (- ea + 53 + eb) * 2 ^ (- eb)))%Z by ring.
    rewrite <- Z.pow_add_r by lia.
    replace (- ea + 53 + eb + - eb)%Z with (- ea + 53)%Z by lia.
    rewrite !Z.pow_add_r by lia.
    assert (0 < 2 ^ 53)%Z by lia. nia. }
  assert (Hq : (1 * 2 ^ (0 - (ea - eb - 53)) <= q)%Z) by nia.
  assert (0 < 2 ^ (0 - (ea - eb - 53)))%Z by (apply Z.pow_pos_nonneg; lia).
  apply binary_round_aux_above;
    [unfold prec; lia | unfold emin, prec, emax; lia | lia |].
  split; [intros _; exact Hq | lia].
Qed.

(** [x * 100] for a Number [x] of [1] at least: [100] at least. *)
Lemma numMul_hundred_above (m : positive) (e : Z) :
  above 1 0 (Zpos m) e ->
  numMul (S754_finite false m e) (numberOfZ 100) <> S754_zero false /\
  forall m' e',
    numMul (S754_finite false m e) (numberOfZ 100) = S754_finite false m' e' ->
    above 25 2 (Zpos m') e'.
Proof.
  intros [Hle Hgt].
  change (numberOfZ 100) with (S754_finite false 7036874417766400 (-46)).
  unfold numMul, SFmul. cbn [xorb].
  apply binary_round_aux_above;
    [unfold prec; lia | unfold emin, prec, emax; lia | lia |].
  rewrite Pos2Z.inj_mul. split.
  - intros He.
    replace (2 - (e + -46))%Z with (48 - e)%Z by lia.
    destruct (Z_le_gt_dec e 0) as [He0 | He0].
    + specialize (Hle He0).
      replace (48 - e)%Z with (48 + (0 - e))%Z by lia.
      rewrite Z.pow_add_r by lia.
      change (2 ^ 48)%Z with 281474976710656%Z. nia.
    + assert (2 ^ (48 - e) <= 2 ^ 48)%Z by (apply Z.pow_le_mono_r; lia).
      change (2 ^ 48)%Z with 281474976710656%Z in *. nia.
  - intros He.
    assert (0 < 2 ^ (e + -46 - 2))%Z by (apply Z.pow_pos_nonneg; lia). nia.
Qed.

Lemma nearestHundredths_above (m : positive) (e : Z) :
  above 25 2 (Zpos m) e -> (10000 <= nearestHundredths m e)%Z.
Proof.
  intros [Hle Hgt]. unfold nearestHundredths. destruct e as [| k | k].
  - specialize (Hle ltac:(lia)). change (2 ^ (2 - 0))%Z with 4%Z in Hle.
    change (2 ^ 0)%Z with 1%Z. lia.
  - destruct (Z_le_gt_dec (Zpos k) 2) as [Hk | Hk].
    + specialize (Hle Hk).
      assert (Hs : (2 ^ (2 - Zpos k) * 2 ^ Zpos k = 4)%Z).
      { rewrite <- Z.pow_add_r by lia.
        replace (2 - Zpos k + Zpos k)%Z with 2%Z by lia. reflexivity. }
      assert (0 < 2 ^ Zpos k)%Z by (apply Z.pow_pos_nonneg; lia). nia.
    + specialize (Hgt ltac:(lia)).
      assert (Hs : (2 ^ Zpos k = 2 ^ (Zpos k - 2) * 4)%Z).
      { change 4%Z with (2 ^ 2)%Z. rewrite <- Z.pow_add_r by lia.
        f_equal. lia. }
      rewrite Hs. nia.
  - specialize (Hle ltac:(lia)).
    replace (2 - Zneg k)%Z with (2 + Zpos k)%Z in Hle by lia.
    rewrite Z.pow_add_r in Hle by lia. change (2 ^ 2)%Z with 4%Z in Hle.
    assert (0 < 2 ^ Zpos k)%Z by (apply Z.pow_pos_nonneg; lia).
    rewrite Z.pow_add_r by lia. change (2 ^ 1)%Z with 2%Z.
    apply Z.div_le_lower_bound; lia.
Qed.

(** [(a / b * 100).toFixed(2)] for text lengths with [b <= a]. *)
Lemma percentage_above (a b n : Z) :
  (0 < a < 2 ^ 53)%Z -> (0 < b < 2 ^ 53)%Z -> (b <= a)%Z ->
  toFixed2 (numMul (numDiv (numberOfZ a) (numberOfZ b)) (numberOfZ 100))
    = Decimal false n ->
  (10000 <= n)%Z.
Proof.
  intros Ha Hb Hab.
  destruct (numDiv_above a b Ha Hb Hab) as [Hnz Hdiv].
  assert (Habove : (a <= 2 ^ 53 * b)%Z) by nia.
  destruct (numDiv_below a b 53 Ha Hb ltac:(lia) Habove)
    as [Hz | [m [e [Hq [He Hm]]]]]; [contradiction |].
  rewrite Hq. specialize (Hdiv m e Hq).
  destruct (numMul_hundred_above m e Hdiv) as [Hnz' Hmul].
  destruct (numMul_hundred_below m e 53 ltac:(lia) He Hm)
    as [Hz | [m' [e' [Hp _]]]]; [contradiction |].
  rewrite Hp. specialize (Hmul m' e' Hp).
  unfold toFixed2. destruct (atLeast1e21 m' e'); [discriminate |].
  intros H. injection H as <-. now apply nearestHundredths_above.
Qed.

(** X14. When the no-scripting text is as long as the scripting-enabled
    text or longer, the percentage is the two-decimal text of a value of
    [100.00] at least, and it is exactly [100.00] when the two texts have
    the same length. *)
Theorem calculateSSRPercentage_at_least_100 (E : Env) (initialHtml finalHtml : string) :
  (Z.of_nat (String.length (extractText E initialHtml)) < 2 ^ 53)%Z ->
  (0 < String.length (extractText E finalHtml))%nat ->
  (String.length (extractText E finalHtml)
   <= String.length (extractText E initialHtml))%nat ->
  exists n,
    calculateSSRPercentage E initialHtml finalHtml = SsrString (Decimal false n) /\
    (10000 <= n)%Z /\
    (String.length (extractText E initialHtml)
     = String.length (extractText E finalHtml) -> n = 10000%Z).
Proof.
  unfold calculateSSRPercentage.
  set (a := String.length (extractText E initialHtml)).
  set (b := String.length (extractText E finalHtml)).
  intros Ha Hpos Hle.
  destruct (Nat.eqb_spec b 0) as [Hz | _]; [lia |].
  destruct (percentage_below (Z.of_nat a) (Z.of_nat b) 53) as [n [Hn Hr]];
    try lia.
  exists n. split; [now rewrite Hn |].
  assert (Hlow : (10000 <= n)%Z).
  { apply (percentage_above (Z.of_nat a) (Z.of_nat b) n); try lia. exact Hn. }
  split; [exact Hlow |]. intros Heq.
  destruct (percentage_below (Z.of_nat a) (Z.of_nat b) 0) as [n' [Hn' Hr']];
    try lia.
  rewrite Hn in Hn'. injection Hn' as <-.
  change (2 ^ 0)%Z with 1%Z in Hr'. lia.
Qed.

Lemma calculateSSRPercentage_at_least_100_witness :
  exists n,
    calculateSSRPercentage (scriptedEnv staticSite) "Loading your page" "Done"
      = SsrString (Decimal false n) /\
    (10000 <= n)%Z /\
    (String.length (extractText (scriptedEnv staticSite) "Loading your page")
     = String.length (extractText (scriptedEnv staticSite) "Done") -> n = 10000%Z).
Proof.
  apply (calculateSSRPercentage_at_least_100 (scriptedEnv staticSite)
           "Loading your page" "Done");
    [vm_compute; reflexivity | vm_compute; lia | vm_compute; lia].
Defined.

(* ===================================================================== *)
(** * Text extraction: edges *)

Lemma collapseSpaces_length (s : string) :
  (String.length (collapseSpaces s) <= String.length s)%nat.
Proof.
  induction s as [| c r IH]; [simpl; lia |].
  cbn [collapseSpaces]. destruct (is_space c).
  - destruct r as [| d r']; [simpl; lia |].
    destruct (is_space d); cbn [String.length] in *; lia.
  - cbn [String.length]. lia.
Qed.

Lemma trimStart_length (s : string) :
  (String.length (trimStart s) <= String.length s)%nat.
Proof.
  induction s as [| c r IH]; [simpl; lia |].
  cbn [trimStart]. destruct (is_space c); cbn [String.length] in *; lia.
Qed.

Lemma trimEnd_length (s : string) :
  (String.length (trimEnd s) <= String.length s)%nat.
Proof.
  induction s as [| c r IH]; [simpl; lia |].
  cbn [trimEnd]. destruct (trimEnd r) as [| d t].
  - destruct (is_space c); cbn [String.length] in *; lia.
  - cbn [String.length] in *. lia.
Qed.

(** X15. [extractText] only removes whitespace from the text cheerio
    gave: the result does not start or end with whitespace, each
    whitespace character in it is a single space between two other
    characters, the characters that are not whitespace are kept in order,
    and the result is not longer than the text it came from. *)
Theorem extractText_only_whitespace_removed (E : Env) (html : string) :
  normalized (extractText E html) = true /\
  inkOf (extractText E html) = inkOf (bodyText E html) /\
  (String.length (extractText E html) <= String.length (bodyText E html))%nat.
Proof.
  split; [apply extractText_normalized |].
  split; [apply extractText_ink |].
  unfold extractText, trim.
  pose proof (trimEnd_length (trimStart (collapseSpaces (bodyText E html)))).
  pose proof (trimStart_length (collapseSpaces (bodyText E html))).
  pose proof (collapseSpaces_length (bodyText E html)).
  lia.
Qed.

Lemma spaced_collapseSpaces (s : string) :
  spaced s = true -> collapseSpaces s = s.
Proof.
  induction s as [| c r IH]; [reflexivity |].
  intros Hs. rewrite spaced_cons in Hs. apply andb_true_iff in Hs.
  destruct Hs as [Hc Hr]. specialize (IH Hr).
  cbn [collapseSpaces]. destruct (is_space c) eqn:Hsp.
  - simpl in Hc. apply andb_true_iff in Hc. destruct Hc as [Heq Hnext].
    apply Ascii.eqb_eq in Heq. subst c.
    destruct r as [| d r']; [reflexivity |].
    simpl in Hnext. apply negb_true_iff in Hnext. rewrite Hnext.
    now rewrite IH.
  - now rewrite IH.
Qed.

Lemma trimStart_id (s : string) : startsWithSpace s = false -> trimStart s = s.
Proof. destruct s as [| c r]; [reflexivity |]. simpl. now intros ->. Qed.

Lemma trimEnd_cons (c : ascii) (r : string) :
  trimEnd (String c r) =
  match trimEnd r with
  | EmptyString => if is_space c then EmptyString else String c EmptyString
  | r' => String c r'
  end.
Proof. reflexivity. Qed.

Lemma trimEnd_id (s : string) : endsWithSpace s = false -> trimEnd s = s.
Proof.
  induction s as [| c r IH]; [reflexivity |].
  destruct r as [| d t].
  - simpl. now intros ->.
  - intros H. change (endsWithSpace (String c (String d t)))
      with (endsWithSpace (String d t)) in H.
    rewrite trimEnd_cons, (IH H). reflexivity.
Qed.

(** X16. A body text that is normalized already is returned as it is:
    extracting is the identity on its own results. *)
Theorem extractText_of_normalized (E : Env) (html : string) :
  normalized (bodyText E html) = true ->
  extractText E html = bodyText E html.
Proof.
  unfold normalized, extractText, trim. intros H.
  apply andb_true_iff in H. destruct H as [H Hs].
  apply andb_true_iff in H. destruct H as [Hstart Hend].
  apply negb_true_iff in Hstart. apply negb_true_iff in Hend.
  rewrite (spaced_collapseSpaces _ Hs), (trimStart_id _ Hstart).
  apply trimEnd_id, Hend.
Qed.

Lemma extractText_of_normalized_witness :
  extractText (scriptedEnv staticSite) "Hello world" = "Hello world".
Proof.
  apply (extractText_of_normalized (scriptedEnv staticSite) "Hello world").
  reflexivity.
Defined.

Lemma normalized_no_ink (s : string) :
  normalized s = true -> inkOf s = EmptyString -> s = EmptyString.
Proof.
  destruct s as [| c r]; [reflexivity |].
  unfold normalized. cbn [startsWithSpace inkOf]. intros H.
  destruct (is_space c); [discriminate | discriminate].
Qed.

Lemma extractText_empty (E : Env) (html : string) :
  extractText E html = EmptyString <-> inkOf (bodyText E html) = EmptyString.
Proof.
  rewrite <- extractText_ink. split.
  - intros ->. reflexivity.
  - apply normalized_no_ink, extractText_normalized.
Qed.

Lemma length_zero_empty (s : string) : String.length s = 0%nat <-> s = EmptyString.
Proof. destruct s; simpl; split; intros H; try reflexivity; discriminate. Qed.

(** X17. [calculateSSRPercentage] returns the Number [0] exactly when the
    body text of the scripting-enabled capture has nothing but whitespace
    in it. *)
Theorem calculateSSRPercentage_zero_iff (E : Env) (initialHtml finalHtml : string) :
  calculateSSRPercentage E initialHtml finalHtml = SsrNumber (S754_zero false) <->
  inkOf (bodyText E finalHtml) = EmptyString.
Proof.
  rewrite <- extractText_empty, <- length_zero_empty.
  unfold calculateSSRPercentage.
  destruct (Nat.eqb_spec (String.length (extractText E finalHtml)) 0) as [Hz | Hnz].
  - tauto.
  - split; [discriminate | intros H; contradiction].
Qed.

(** X18. When the no-scripting body text has nothing but whitespace and
    the scripting-enabled one has more, the result is the text [0.00], not
    the Number [0]. *)
Theorem calculateSSRPercentage_empty_initial (E : Env) (initialHtml finalHtml : string) :
  inkOf (bodyText E initialHtml) = EmptyString ->
  inkOf (bodyText E finalHtml) <> EmptyString ->
  (Z.of_nat (String.length (extractText E finalHtml)) < 2 ^ 53)%Z ->
  calculateSSRPercentage E initialHtml finalHtml = SsrString (Decimal false 0).
Proof.
  intros Hi Hf Hlen. apply extractText_empty in Hi.
  rewrite <- extractText_empty, <- length_zero_empty in Hf.
  unfold calculateSSRPercentage. rewrite Hi.
  destruct (Nat.eqb_spec (String.length (extractText E finalHtml)) 0) as [Hz | _];
    [contradiction |].
  destruct (numberOfZ_normal (Z.of_nat (String.length (extractText E finalHtml))))
    as [m [e [-> _]]]; [lia |].
  reflexivity.
Qed.

Lemma calculateSSRPercentage_empty_initial_witness :
  calculateSSRPercentage (scriptedEnv staticSite) "  " "Hello world"
    = SsrString (Decimal false 0).
Proof.
  apply (calculateSSRPercentage_empty_initial (scriptedEnv staticSite)
           "  " "Hello world");
    [reflexivity | discriminate | vm_compute; reflexivity].
Defined.

(* ===================================================================== *)
(** * Word frequencies *)

Lemma getOwn_setProp (o : jsobject) (k k' : string) (v : jsval) :
  getOwn (setProp o k v) k' = if String.eqb k k' then Some v else getOwn o k'.
Proof.
  induction o as [| [k0 v0] r IH]; simpl.
  - destruct (String.eqb k k'); reflexivity.
  - destruct (String.eqb_spec k0 k) as [-> | Hne]; simpl.
    + destruct (String.eqb k k'); reflexivity.
    + rewrite IH. destruct (String.eqb_spec k0 k') as [-> | Hne'];
        [| reflexivity].
      destruct (String.eqb_spec k k') as [-> | _]; [congruence | reflexivity].
Qed.

Lemma keys_setProp (o : jsobject) (k : string) (v : jsval) :
  keys (setProp o k v) = if existsb (String.eqb k) (keys o) then keys o
                         else keys o ++ [k].
Proof.
  induction o as [| [k0 v0] r IH]; [reflexivity |].
  cbn [setProp keys map fst existsb].
  destruct (String.eqb_spec k0 k) as [-> | Hne].
  - rewrite String.eqb_refl. reflexivity.
  - destruct (String.eqb_spec k k0) as [-> | _]; [congruence |].
    cbn [orb map fst]. fold (keys (setProp r k v)). rewrite IH.
    fold (keys r). destruct (existsb (String.eqb k) (keys r)); reflexivity.
Qed.

Lemma keys_setProp_NoDup (o : jsobject) (k : string) (v : jsval) :
  NoDup (keys o) -> NoDup (keys (setProp o k v)).
Proof.
  intros Hnd. rewrite keys_setProp.
  destruct (existsb (String.eqb k) (keys o)) eqn:Hk; [exact Hnd |].
  apply NoDup_app; [exact Hnd | repeat constructor; simpl; tauto |].
  intros x Hx [Heq | []]. subst x.
  assert (existsb (String.eqb k) (keys o) = true) by now apply existsb_eqb_In.
  congruence.
Qed.

Lemma keys_getOwn (o : jsobject) (k : string) :
  In k (keys o) <-> getOwn o k <> None.
Proof.
  induction o as [| [k0 v0] r IH]; simpl.
  - split; [tauto | intros H; now elim H].
  - destruct (String.eqb_spec k0 k) as [-> | Hne].
    + split; [discriminate | tauto].
    + rewrite <- IH. split; [intros [H | H]; [congruence | exact H] | tauto].
Qed.

(** Among the words line 221-223 keep, [Object.prototype] has one name. *)
Lemma kept_prototype_key (w : string) :
  keepWord w = true ->
  existsb (String.eqb w) objectPrototypeKeys = String.eqb w "constructor".
Proof.
  intros Hkeep. unfold objectPrototypeKeys. cbn [existsb].
  destruct (String.eqb_spec w "constructor") as [-> | _]; [reflexivity |].
  repeat match goal with
         | |- context [String.eqb w ?name] =>
             destruct (String.eqb_spec w name) as [-> | _];
             [vm_compute in Hkeep; discriminate |]
         end.
  reflexivity.
Qed.

Lemma count_occ_snoc (ws : list string) (w k : string) :
  count_occ string_dec (ws ++ [w]) k =
  (count_occ string_dec ws k + if String.eqb w k then 1 else 0)%nat.
Proof.
  rewrite count_occ_app. f_equal. simpl.
  destruct (string_dec w k) as [-> | Hne].
  - now rewrite String.eqb_refl.
  - destruct (String.eqb_spec w k); [congruence | reflexivity].
Qed.

(** What the object of line 216 holds after the words [ws]. *)
Lemma wordCounts_fold (ws pre : list string) (o : jsobject) :
  (forall k,
     getOwn o k =
     if keepWord k && (0 <? count_occ string_dec pre k)%nat
     then Some (storedCount k (count_occ string_dec pre k)) else None) ->
  forall k,
    getOwn
      (fold_left
         (fun wordCounts word =>
            if keepWord word
            then setProp wordCounts word (plusOne (orZero (getProp wordCounts word)))
            else wordCounts)
         ws o) k =
    if keepWord k && (0 <? count_occ string_dec (pre ++ ws) k)%nat
    then Some (storedCount k (count_occ string_dec (pre ++ ws) k)) else None.
Proof.
  revert pre o. induction ws as [| w ws IH]; intros pre o Ho k.
  - rewrite app_nil_r. apply Ho.
  - cbn [fold_left].
    replace (pre ++ w :: ws) with ((pre ++ [w]) ++ ws)
      by (rewrite <- app_assoc; reflexivity).
    apply IH. clear k. intros k. rewrite count_occ_snoc.
    destruct (keepWord w) eqn:Hw.
    + rewrite getOwn_setProp. destruct (String.eqb_spec w k) as [-> | Hne].
      * rewrite Hw. unfold getProp. rewrite Ho, Hw. cbn [andb].
        destruct (count_occ string_dec pre k) as [| c] eqn:Hc.
        -- cbn [Nat.ltb Nat.leb Nat.add]. rewrite (kept_prototype_key k Hw).
           unfold storedCount.
           destruct (String.eqb k "constructor"); reflexivity.
        -- replace (0 <? S c)%nat with true by reflexivity.
           replace (0 <? S c + 1)%nat with true
             by (symmetry; apply Nat.ltb_lt; lia).
           unfold storedCount.
           destruct (String.eqb k "constructor"); cbn [orZero plusOne].
           ++ do 2 f_equal. lia.
           ++ do 2 f_equal. lia.
      * rewrite Ho, Nat.add_0_r. reflexivity.
    + rewrite Ho. destruct (String.eqb_spec w k) as [-> | Hne].
      * rewrite Hw. reflexivity.
      * rewrite Nat.add_0_r. reflexivity.
Qed.

Lemma generateWordFrequencies_getOwn (text w : string) :
  getOwn (generateWordFrequencies text) w =
  if keepWord w && (0 <? occurrences text w)%nat
  then Some (storedCount w (occurrences text w)) else None.
Proof.
  unfold generateWordFrequencies, occurrences.
  apply (wordCounts_fold _ [] []). intros k. simpl.
  now rewrite andb_false_r.
Qed.

Lemma wordCounts_fold_NoDup (ws : list string) (o : jsobject) :
  NoDup (keys o) ->
  NoDup (keys
    (fold_left
       (fun wordCounts word =>
          if keepWord word
          then setProp wordCounts word (plusOne (orZero (getProp wordCounts word)))
          else wordCounts)
       ws o)).
Proof.
  revert o. induction ws as [| w ws IH]; intros o Ho; [exact Ho |].
  cbn [fold_left]. apply IH.
  destruct (keepWord w); [now apply keys_setProp_NoDup | exact Ho].
Qed.

(** X19. The frequency [generateWordFrequencies] records for a word is the
    number of times the word occurs among the pieces of the lower-cased
    text, provided the word is kept (3 to 14 lower-case letters, no stop
    word) and is not [constructor]; for every other word it is [0]. *)
Theorem generateWordFrequencies_counts (text w : string) :
  frequency (generateWordFrequencies text) w =
  if keepWord w && negb (String.eqb w "constructor")
  then N.of_nat (occurrences text w) else 0%N.
Proof.
  unfold frequency. rewrite generateWordFrequencies_getOwn.
  destruct (keepWord w); [| reflexivity]. cbn [andb].
  destruct (Nat.ltb_spec 0 (occurrences text w)) as [Hpos | Hz].
  - unfold storedCount. destruct (String.eqb w "constructor"); reflexivity.
  - replace (occurrences text w) with 0%nat by lia.
    destruct (String.eqb w "constructor"); reflexivity.
Qed.

(** X20. The keys of the object [generateWordFrequencies] returns are
    distinct, and they are the kept words that occur in the text. *)
Theorem generateWordFrequencies_keys (text : string) :
  NoDup (keys (generateWordFrequencies text)) /\
  forall w,
    In w (keys (generateWordFrequencies text)) <->
    keepWord w = true /\ (0 < occurrences text w)%nat.
Proof.
  split.
  - unfold generateWordFrequencies. apply wordCounts_fold_NoDup. constructor.
  - intros w. rewrite keys_getOwn, generateWordFrequencies_getOwn.
    destruct (keepWord w); cbn [andb].
    + destruct (Nat.ltb_spec 0 (occurrences text w)) as [Hpos | Hz].
      * split; [tauto | discriminate].
      * split; [intros H; now elim H | lia].
    + split; [intros H; now elim H | intros [H _]; discriminate].
Qed.

(** X21. From two texts to the word cloud: every entry of the diff of
    their frequency maps is a kept word other than [constructor], weighs
    the number of its occurrences in the scripting-enabled text, which is
    not [0], and is green exactly when the word occurs in the no-scripting
    text as well. *)
Theorem wordData_of_texts (userText googleText : string) (d : word_datum) :
  In d (wordData (generateWordFrequencies userText)
                 (generateWordFrequencies googleText)) ->
  keepWord (word d) = true /\ word d <> "constructor" /\
  (0 < occurrences userText (word d))%nat /\
  weight d = VNum (N.of_nat (occurrences userText (word d))) /\
  color d = if (0 <? occurrences googleText (word d))%nat
            then "#4CAF50" else "#808080".
Proof.
  unfold wordData. rewrite in_flat_map. intros [w [_ Hd]].
  destruct (count_positive (generateWordFrequencies userText) w) as [Hgt Hval].
  destruct (count_positive (generateWordFrequencies googleText) w) as [Hg _].
  destruct (gtZero (orZero (getProp (generateWordFrequencies userText) w))) eqn:Hpos;
    [| destruct Hd].
  destruct Hd as [<- | []]. cbn [word weight color].
  rewrite (Hval eq_refl), Hg. symmetry in Hgt. apply N.ltb_lt in Hgt.
  unfold frequency in *. rewrite !generateWordFrequencies_getOwn in *.
  destruct (keepWord w); cbn [andb] in *; [| now apply N.lt_irrefl in Hgt].
  destruct (Nat.ltb_spec 0 (occurrences userText w)) as [Hu | Hu];
    [| now apply N.lt_irrefl in Hgt].
  unfold storedCount in *.
  destruct (String.eqb_spec w "constructor") as [-> | Hne];
    [now apply N.lt_irrefl in Hgt |].
  repeat split; try assumption.
  destruct (Nat.ltb_spec 0 (occurrences googleText w)) as [Hgo | Hgo];
    [| reflexivity].
  replace (0 <? N.of_nat (occurrences googleText w))%N with true
    by (symmetry; apply N.ltb_lt; lia).
  reflexivity.
Qed.

Lemma wordData_of_texts_witness :
  keepWord "fox" = true /\ "fox" <> "constructor" /\
  (0 < occurrences "The Quick Fox runs, fox!" "fox")%nat /\
  VNum 2 = VNum (N.of_nat (occurrences "The Quick Fox runs, fox!" "fox")) /\
  "#4CAF50" = if (0 <? occurrences "loading fox" "fox")%nat
              then "#4CAF50" else "#808080".
Proof.
  apply (wordData_of_texts "The Quick Fox runs, fox!" "loading fox"
           {| word := "fox"; weight := VNum 2; color := "#4CAF50" |}).
  vm_compute. tauto.
Defined.

(** X30. From two texts to the word cloud, the words: the diff has one
    entry per kept word other than [constructor] that occurs in the
    scripting-enabled text, and no other entry; a word of the no-scripting
    text alone has none. *)
Theorem wordData_words (userText googleText : string) :
  NoDup (map word (wordData (generateWordFrequencies userText)
                            (generateWordFrequencies googleText))) /\
  forall w,
    In w (map word (wordData (generateWordFrequencies userText)
                             (generateWordFrequencies googleText))) <->
    keepWord w = true /\ w <> "constructor" /\
    (0 < occurrences userText w)%nat.
Proof.
  destruct (wordData_entries (generateWordFrequencies userText)
                             (generateWordFrequencies googleText))
    as [Hone Hentries].
  split; [exact Hone |]. intros w.
  assert (Hfreq : (0 < frequency (generateWordFrequencies userText) w)%N <->
                  keepWord w = true /\ w <> "constructor" /\
                  (0 < occurrences userText w)%nat).
  { unfold frequency. rewrite generateWordFrequencies_getOwn.
    destruct (keepWord w); cbn [andb].
    2: { split; [intros H; now apply N.lt_irrefl in H |].
         intros [H _]. discriminate. }
    destruct (Nat.ltb_spec 0 (occurrences userText w)) as [Hpos | Hz].
    2: { split; [intros H; now apply N.lt_irrefl in H | lia]. }
    unfold storedCount.
    destruct (String.eqb_spec w "constructor") as [-> | Hne].
    - split; [intros H; now apply N.lt_irrefl in H |].
      intros [_ [H _]]. now elim H.
    - split; [tauto | intros _; lia]. }
  rewrite <- Hfreq, in_map_iff. split.
  - intros [d [<- Hd]]. now apply Hentries in Hd.
  - intros Hpos.
    exists {| word := w;
              weight := VNum (frequency (generateWordFrequencies userText) w);
              color := if (0 <? frequency (generateWordFrequencies googleText) w)%N
                       then "#4CAF50" else "#808080" |}.
    split; [reflexivity |]. apply Hentries. cbn [word weight color].
    repeat split. exact Hpos.
Qed.

(* ===================================================================== *)
(** * The page loop *)

Lemma numLt_irrefl (x : spec_float) : numLt x x = false.
Proof.
  unfold numLt, SFltb, SFcompare.
  destruct x as [[|] | [|] | | [|] m e]; try reflexivity;
    rewrite Z.compare_refl;
    change (Pos.compare_cont Eq m m) with (Pos.compare m m);
    rewrite Pos.compare_refl; reflexivity.
Qed.

Lemma numLt_finite (s1 s2 : bool) (m1 m2 : positive) (e1 e2 : Z) :
  numLt (S754_finite s1 m1 e1) (S754_finite s2 m2 e2) = true <->
  (s1 = true /\ s2 = false) \/
  (s1 = false /\ s2 = false /\ (e1 < e2 \/ e1 = e2 /\ Zpos m1 < Zpos m2)%Z) \/
  (s1 = true /\ s2 = true /\ (e2 < e1 \/ e1 = e2 /\ Zpos m2 < Zpos m1)%Z).
Proof.
  unfold numLt, SFltb, SFcompare.
  change (Pos.compare_cont Eq m1 m2) with (Pos.compare m1 m2).
  destruct s1, s2; destruct (Z.compare_spec e1 e2) as [He | He | He];
    destruct (Pos.compare_spec m1 m2) as [Hm | Hm | Hm]; simpl; split;
    try discriminate; try reflexivity; intros Hx;
    try (right; right; repeat split; lia);
    try (right; left; repeat split; lia);
    try (left; split; reflexivity);
    try (destruct Hx as [[? ?] | [[? [? ?]] | [? [? ?]]]]; try discriminate; lia).
Qed.

Lemma numLt_trans (x y z : spec_float) :
  numLt x y = true -> numLt y z = true -> numLt x z = true.
Proof.
  destruct x as [sx | sx | | sx mx ex], y as [sy | sy | | sy my ey],
           z as [sz | sz | | sz mz ez];
    try (intros H1 H2; rewrite numLt_finite in *;
         destruct H1 as [[? ?] | [[? [? ?]] | [? [? ?]]]];
         destruct H2 as [[? ?] | [[? [? ?]] | [? [? ?]]]];
         subst; try discriminate;
         first [ left; split; reflexivity
               | right; left; repeat split; lia
               | right; right; repeat split; lia ]);
    unfold numLt, SFltb, SFcompare;
    repeat match goal with s : bool |- _ => destruct s end;
    try discriminate; try reflexivity.
Qed.

Lemma lowestOf_analyzePage (E : Env) (baseUrl : string) (isReact : bool)
    (st st' : site_state) (entry : option string * string)
    (w w' : World E) (evs : list event) :
  lowestOf st ->
  analyzePage E baseUrl isReact st entry w = (Ok st', w', evs) ->
  lowestOf st'.
Proof.
  intros Hlow. destruct entry as [slot depth]. unfold analyzePage.
  destruct slot as [pageUrl |];
    [| unfold ret; intros H; injection H as <- _ _; exact Hlow].
  destruct (truthy (Some pageUrl));
    [| unfold ret; intros H; injection H as <- _ _; exact Hlow].
  unfold analyzeSSR. unfold bind, call, ret. cbv beta.
  destruct (renderTwice E pageUrl w) as [[cap | err] w1]; [| discriminate].
  cbv beta iota. intros H. injection H as <- _ _.
  unfold lowestOf in *. cbn [lowestSSRPage results].
  destruct (lowestSSRPage st) as [lowest |] eqn:Hl.
  - destruct Hlow as [[r0 [Hin0 [Hu0 Hp0]]] Hmin].
    destruct (numLt _ (parseFloat (low_ssrPercentage lowest))) eqn:Hcmp.
    + cbn [low_url low_ssrPercentage]. split.
      * eexists. split; [apply in_or_app; right; left; reflexivity |].
        split; reflexivity.
      * intros r v Hin Hv. apply in_app_or in Hin.
        destruct Hin as [Hin | [<- | []]].
        -- destruct (numLt (parseFloat v) _) eqn:Hlt; [| reflexivity].
           pose proof (numLt_trans _ _ _ Hlt Hcmp) as Ht.
           specialize (Hmin r v Hin Hv). congruence.
        -- cbn [ssrPercentage] in Hv. injection Hv as <-. apply numLt_irrefl.
    + split.
      * exists r0. split; [apply in_or_app; now left | now split].
      * intros r v Hin Hv. apply in_app_or in Hin.
        destruct Hin as [Hin | [<- | []]].
        -- exact (Hmin r v Hin Hv).
        -- cbn [ssrPercentage] in Hv. injection Hv as <-. exact Hcmp.
  - rewrite Hlow. cbn [app low_url low_ssrPercentage]. split.
    + eexists. split; [left; reflexivity | split; reflexivity].
    + intros r v [<- | []] Hv. cbn [ssrPercentage] in Hv.
      injection Hv as <-. apply numLt_irrefl.
Qed.

Lemma lowestOf_forEach (E : Env) (baseUrl : string) (isReact : bool)
    (entries : list (option string * string)) (st st' : site_state)
    (w w' : World E) (evs : list event) :
  lowestOf st ->
  forEach (analyzePage E baseUrl isReact) entries st w = (Ok st', w', evs) ->
  lowestOf st'.
Proof.
  revert st w w' evs.
  induction entries as [| entry rest IH]; intros st w w' evs Hlow.
  - cbn [forEach]. unfold ret. intros H. injection H as <- _ _. exact Hlow.
  - cbn [forEach]. unfold bind at 1.
    destruct (analyzePage E baseUrl isReact st entry w) as [[[st1 | err] w1] ev1] eqn:H1;
      [| discriminate].
    pose proof (lowestOf_analyzePage E baseUrl isReact st st1 entry w w1 ev1 Hlow H1)
      as Hlow1.
    destruct (forEach (analyzePage E baseUrl isReact) rest st1 w1)
      as [[[st2 | err] w2] ev2] eqn:H2; [| discriminate].
    intros H. injection H as <- _ _.
    exact (IH st1 w1 w2 ev2 Hlow1 H2).
Qed.

(** X22. After the page loop returned, [lowestSSRPage] is one of the pages
    it analyzed, and none of the analyzed pages has a percentage that
    [parseFloat] reads as lower; it is unset only when no page was
    analyzed. *)
Theorem analyzePages_lowest (E : Env) (baseUrl : string) (isReact : bool)
    (selection : list (option string)) (st : site_state)
    (w w' : World E) (evs : list event) :
  analyzePages E baseUrl isReact selection
    {| results := []; lowestSSRPage := None |} w = (Ok st, w', evs) ->
  lowestOf st.
Proof.
  unfold analyzePages. apply lowestOf_forEach. reflexivity.
Qed.

Lemma analyzePages_lowest_witness : lowestOf twoPagesState.
Proof.
  apply (analyzePages_lowest (scriptedEnv twoRelevantSite) "https://a.test/" true
           [Some "https://a.test/"; Some "https://a.test/blog/1"]
           twoPagesState tt tt twoPagesEvents).
  vm_compute. reflexivity.
Defined.

(** X23. When the page loop returns, it has added one row per slot of the
    selection that is a non-empty URL, in the order Homepage, Mid, Deep,
    each with the URL of its slot, the base URL and the detection result of
    the site and a computed percentage. *)
Theorem analyzePages_rows (E : Env) (site : string) (detected : bool)
    (selection : list (option string)) (st st' : site_state)
    (w w' : World E) (evs : list event) :
  analyzePages E site detected selection st w = (Ok st', w', evs) ->
  exists rows,
    results st' = results st ++ rows /\
    map (fun r => (analyzedUrl r, depth r)) rows = analyzable selection /\
    Forall (fun r => baseUrl r = site /\ isReact r = detected /\
                     exists v, ssrPercentage r = Pct v) rows /\
    evs = analyzedEvents rows.
Proof.
  unfold analyzePages, analyzable. intros Hrun.
  pose proof (forEach_rows E site detected
                [(element selection 0, "Homepage"); (element selection 1, "Mid");
                 (element selection 2, "Deep")] st w) as H.
  rewrite Hrun in H. exact H.
Qed.

(** X24. When the page loop throws, the page whose analysis threw is the
    next non-empty slot after the pages analyzed so far; the slots after it
    are not attempted. *)
Theorem analyzePages_stops_at_failure (E : Env) (site error : string)
    (detected : bool) (selection : list (option string)) (st : site_state)
    (w w' : World E) (evs : list event) :
  analyzePages E site detected selection st w = (Throw error, w', evs) ->
  exists before pageUrl depth after,
    analyzable selection = before ++ (pageUrl, depth) :: after /\
    evs = map (fun p => EvAnalyze (fst p) true) before ++
          [EvAnalyze pageUrl false].
Proof.
  unfold analyzePages, analyzable. intros Hrun.
  pose proof (forEach_rows E site detected
                [(element selection 0, "Homepage"); (element selection 1, "Mid");
                 (element selection 2, "Deep")] st w) as H.
  rewrite Hrun in H. exact H.
Qed.

Lemma analyzePages_rows_witness :
  exists rows,
    results twoPagesState = [] ++ rows /\
    map (fun r => (analyzedUrl r, depth r)) rows =
      analyzable [Some "https://a.test/"; Some "https://a.test/blog/1"] /\
    Forall (fun r => baseUrl r = "https://a.test/" /\ isReact r = true /\
                     exists v, ssrPercentage r = Pct v) rows /\
    twoPagesEvents = analyzedEvents rows.
Proof.
  apply (analyzePages_rows (scriptedEnv twoRelevantSite) "https://a.test/" true
           [Some "https://a.test/"; Some "https://a.test/blog/1"]
           {| results := []; lowestSSRPage := None |} twoPagesState tt tt
           twoPagesEvents).
  vm_compute. reflexivity.
Defined.

Lemma analyzePages_stops_at_failure_witness :
  exists before pageUrl depth after,
    analyzable [Some "https://a.test/"; Some "https://a.test/docs";
                Some "https://a.test/faq"]
      = before ++ (pageUrl, depth) :: after /\
    [EvAnalyze "https://a.test/" true; EvAnalyze "https://a.test/docs" true;
     EvAnalyze "https://a.test/faq" false]
      = map (fun p => EvAnalyze (fst p) true) before ++ [EvAnalyze pageUrl false].
Proof.
  apply (analyzePages_stops_at_failure (scriptedEnv brokenDeepSite)
           "https://a.test/" "net::ERR_FAILED" true
           [Some "https://a.test/"; Some "https://a.test/docs";
            Some "https://a.test/faq"]
           {| results := []; lowestSSRPage := None |} tt tt).
  vm_compute. reflexivity.
Defined.

(* ===================================================================== *)
(** * The batch and the email step *)

Lemma analyzedEvents_no_email (rows : list row) (u : string) (ok : bool) :
  ~ In (EvEmail u ok) (analyzedEvents rows).
Proof.
  unfold analyzedEvents. intros Hin. apply in_map_iff in Hin.
  destruct Hin as [r [Heq _]]. discriminate.
Qed.

(** Up to the write of line 348: no email is sent, and the rows handed
    to the writer are the rows of the analyzed pages. *)
Lemma up_to_write (url : string) (d : list event) (rows : list row)
    (mail : list event) :
  Forall discoveryEvent d ->
  EvDetect url (Ok true) :: d ++ analyzedEvents rows ++ EvWriteRecords rows :: mail
    = (EvDetect url (Ok true) :: d ++ analyzedEvents rows ++ [EvWriteRecords rows])
      ++ mail /\
  rowsWritten (EvDetect url (Ok true) :: d ++ analyzedEvents rows ++
               [EvWriteRecords rows]) = rows /\
  forall u ok,
    ~ In (EvEmail u ok)
         (EvDetect url (Ok true) :: d ++ analyzedEvents rows ++
          [EvWriteRecords rows]).
Proof.
  intros Hd. split; [| split].
  - cbn [app]. repeat rewrite <- app_assoc. reflexivity.
  - change (EvDetect url (Ok true) :: d ++ analyzedEvents rows ++
            [EvWriteRecords rows])
      with ([EvDetect url (Ok true)] ++ d ++ analyzedEvents rows ++
            [EvWriteRecords rows]).
    repeat rewrite rowsWritten_app.
    rewrite (rowsWritten_notWrite d (discoveryEvent_notWrite _ Hd)).
    rewrite (rowsWritten_notWrite _ (analyzedEvents_notWrite rows)).
    simpl. now rewrite app_nil_r.
  - intros u ok [H | Hin]; [discriminate |].
    apply in_app_or in Hin. destruct Hin as [Hin | Hin].
    { exact (discoveryEvent_no_email _ _ _ Hd Hin). }
    apply in_app_or in Hin. destruct Hin as [Hin | [H | []]].
    + exact (analyzedEvents_no_email _ _ _ Hin).
    + discriminate.
Qed.

(** X25. When the email step of a site throws, the rows of its analyzed
    pages were written already and the [catch] adds an [Error] row: the site
    appears in the report with its page rows, of which there is one at
    least, followed by the row of a failed site. *)
Theorem analyzeWebsite_email_failure (E : Env) (url : string) (w : World E) :
  In (EvEmail url false) (events (analyzeWebsite E url w)) ->
  exists rows,
    rows <> [] /\ Forall (pageRow url) rows /\
    rowsWritten (events (analyzeWebsite E url w)) = rows ++ [errorRow url].
Proof.
  rewrite analyzeWebsite_events.
  destruct (analyzeWebsiteBody E url w) as [[r w1] evs] eqn:Hrun.
  unfold events, result. cbn [fst snd].
  destruct (analyzeWebsiteBody_trace E url w w1 r evs Hrun)
    as [-> | [[Hr [_ Hquiet]] | [d [rows [mail [Hd [Hp [-> Hmail]]]]]]]];
    intros Hin.
  - exfalso. apply in_app_or in Hin.
    destruct Hin as [[H | [H | []]] | Hin]; try discriminate.
    destruct (succeeded r); [destruct Hin |].
    destruct Hin as [H | []]. discriminate.
  - exfalso. rewrite Hr in Hin. apply in_app_or in Hin.
    destruct Hin as [Hin | [H | []]]; [| discriminate].
    exact (Hquiet _ _ Hin).
  - destruct (up_to_write url d rows mail Hd) as [Hsplit [Hrows Hnone]].
    rewrite Hsplit in *. clear Hsplit.
    destruct Hmail as [[-> _] | [Hne ->]]; destruct (succeeded r).
    + exfalso. rewrite !app_nil_r in Hin. exact (Hnone _ _ Hin).
    + exfalso. rewrite app_nil_r in Hin. apply in_app_or in Hin.
      destruct Hin as [Hin | [H | []]]; [| discriminate].
      exact (Hnone _ _ Hin).
    + exfalso. rewrite app_nil_r in Hin. apply in_app_or in Hin.
      destruct Hin as [Hin | [H | []]]; [| discriminate].
      exact (Hnone _ _ Hin).
    + exists rows. split; [exact Hne |]. split; [exact Hp |].
      rewrite !rowsWritten_app, Hrows. simpl. now rewrite app_nil_r.
Qed.

Lemma analyzeWebsite_email_failure_witness :
  exists rows,
    rows <> [] /\ Forall (pageRow "https://a.test/") rows /\
    rowsWritten (events (analyzeWebsite (scriptedEnv emailFailsSite)
                           "https://a.test/" tt))
      = rows ++ [errorRow "https://a.test/"].
Proof.
  apply (analyzeWebsite_email_failure (scriptedEnv emailFailsSite)
           "https://a.test/" tt).
  vm_compute. tauto.
Defined.

Lemma site_trace_baseUrl (url : string) (evs : list event) :
  site_trace url evs -> Forall (fun r => baseUrl r = url) (rowsWritten evs).
Proof.
  intros [| | pre Hpre | discovery rows mail Hd Hrows Hmail].
  - repeat constructor.
  - repeat constructor.
  - rewrite rowsWritten_app, (rowsWritten_notWrite pre Hpre).
    repeat constructor.
  - change (EvDetect url (Ok true) :: discovery ++ analyzedEvents rows ++
            EvWriteRecords rows :: mail)
      with ([EvDetect url (Ok true)] ++ discovery ++ analyzedEvents rows ++
            [EvWriteRecords rows] ++ mail).
    repeat rewrite rowsWritten_app.
    rewrite (rowsWritten_notWrite discovery (discoveryEvent_notWrite _ Hd)).
    rewrite (rowsWritten_notWrite _ (analyzedEvents_notWrite rows)).
    simpl. rewrite app_nil_r. apply Forall_app. split.
    + eapply Forall_impl; [| exact Hrows]. intros r Hr. exact (proj1 Hr).
    + destruct Hmail; repeat constructor.
Qed.

(** A site returns unless the write of its [Error] row throws. *)
Lemma analyzeWebsite_returns (E : Env) (url : string) (w : World E) :
  reportWritable E -> result (analyzeWebsite E url w) = Ok tt.
Proof.
  intros Hwrite. unfold analyzeWebsite, tryCatch, result.
  destruct (analyzeWebsiteBody E url w) as [[[[] | err] w1] ev1];
    [reflexivity |].
  unfold writeRecords, call.
  destruct (Hwrite [errorRow url] w1) as [w2 ->]. reflexivity.
Qed.

(** The loop of lines 394-396 runs the sites in order and stops at the
    first one that throws. *)
Lemma processWebsites_site_traces (E : Env) (websites : list string) (w : World E) :
  exists visited rest traces,
    websites = visited ++ rest /\
    Forall2 site_trace visited traces /\
    events (processWebsites E websites w) = List.concat traces /\
    (result (processWebsites E websites w) = Ok tt -> rest = []).
Proof.
  unfold processWebsites. revert w.
  induction websites as [| url rest IH]; intros w.
  - exists [], [], []. repeat split; constructor.
  - cbn [forEach]. unfold bind.
    pose proof (analyzeWebsite_trace E url w) as Htrace.
    destruct (analyzeWebsite E url w) as [[[[] | err] w1] ev1];
      unfold events in Htrace; cbn [snd] in Htrace.
    + destruct (IH w1) as [visited [rest' [traces [Hsplit [Hall [Hev Hres]]]]]].
      destruct (forEach _ rest tt w1) as [[r w2] ev2].
      unfold events, result in *. cbn [fst snd] in *.
      exists (url :: visited), rest', (ev1 :: traces).
      split; [now rewrite Hsplit |]. split; [now constructor |].
      split; [cbn [List.concat]; now rewrite Hev | exact Hres].
    + exists [url], rest, [ev1]. unfold events, result. cbn [fst snd].
      split; [reflexivity |]. split; [repeat constructor; exact Htrace |].
      split; [cbn [List.concat]; now rewrite app_nil_r | discriminate].
Qed.

Lemma processWebsites_returns (E : Env) (websites : list string) (w : World E) :
  reportWritable E -> result (processWebsites E websites w) = Ok tt.
Proof.
  intros Hwrite. unfold processWebsites. revert w.
  induction websites as [| url rest IH]; intros w; [reflexivity |].
  cbn [forEach]. unfold bind.
  pose proof (analyzeWebsite_returns E url w Hwrite) as Hsite.
  destruct (analyzeWebsite E url w) as [[r w1] ev1].
  unfold result in Hsite. simpl in Hsite. subst r.
  specialize (IH w1).
  destruct (forEach _ rest tt w1) as [[r w2] ev2].
  exact IH.
Qed.

(** X26. As long as the report can be written, the batch never stops at a
    site: whatever the sites do, the loop returns, and its trace is the
    traces of the sites one after the other in the order of the input, each
    of one of the shapes of a site. *)
Theorem processWebsites_runs_every_site (E : Env) (websites : list string)
    (w : World E) :
  reportWritable E ->
  result (processWebsites E websites w) = Ok tt /\
  exists traces,
    Forall2 site_trace websites traces /\
    events (processWebsites E websites w) = List.concat traces.
Proof.
  intros Hwrite.
  pose proof (processWebsites_returns E websites w Hwrite) as Hret.
  split; [exact Hret |].
  destruct (processWebsites_site_traces E websites w)
    as [visited [rest [traces [Hsplit [Hall [Hev Hres]]]]]].
  rewrite (Hres Hret), app_nil_r in Hsplit. subst visited.
  exists traces. split; assumption.
Qed.

Lemma processWebsites_runs_every_site_witness :
  result (processWebsites (scriptedEnv brokenDeepSite)
            ["https://a.test/"; "https://a.test/"] tt) = Ok tt /\
  exists traces,
    Forall2 site_trace ["https://a.test/"; "https://a.test/"] traces /\
    events (processWebsites (scriptedEnv brokenDeepSite)
              ["https://a.test/"; "https://a.test/"] tt) = List.concat traces.
Proof.
  apply (processWebsites_runs_every_site (scriptedEnv brokenDeepSite)
           ["https://a.test/"; "https://a.test/"] tt).
  intros records []. exists tt. reflexivity.
Defined.

(** The condition is needed: when the report cannot be written, the write
    of the first site throws, the write of its [Error] row in the [catch]
    throws too, and the second site is never visited. *)
Example processWebsites_stops_at_failed_write :
  processWebsites (readOnlyReport staticSite)
    ["https://a.test/"; "https://b.test/"] tt =
  (Throw "EACCES", tt,
   [EvDetect "https://a.test/" (Ok false);
    EvWriteRecords [notApplicableRow "https://a.test/" false];
    EvWriteRecords [errorRow "https://a.test/"]]).
Proof. reflexivity. Qed.

(** X27. Every row of the report carries one of the input sites as its
    [baseUrl]: the batch writes no row for an address that was not given,
    whatever the sites link to or redirect to. *)
Theorem processWebsites_rows_of_inputs (E : Env) (websites : list string)
    (w : World E) :
  Forall (fun r => In (baseUrl r) websites)
         (rowsWritten (events (processWebsites E websites w))).
Proof.
  destruct (processWebsites_site_traces E websites w)
    as [visited [rest [traces [-> [Hall [-> _]]]]]].
  clear w. induction Hall as [| url trace visited traces Htrace _ IH].
  - constructor.
  - cbn [List.concat]. rewrite rowsWritten_app. apply Forall_app. split.
    + eapply Forall_impl; [| exact (site_trace_baseUrl url trace Htrace)].
      intros r Hr. left. now symmetry.
    + eapply Forall_impl; [| exact IH]. intros r Hr. now right.
Qed.

(* ===================================================================== *)
(** * The name of the email file *)

Lemma list_ascii_of_string_app (a b : string) :
  list_ascii_of_string (a ++ b) = list_ascii_of_string a ++ list_ascii_of_string b.
Proof.
  induction a as [| c a IH]; [reflexivity |]. simpl. now rewrite IH.
Qed.

Lemma length_append (a b : string) :
  String.length (a ++ b) = (String.length a + String.length b)%nat.
Proof.
  induction a as [| c a IH]; [reflexivity |]. simpl. now rewrite IH.
Qed.

Lemma lower_char_plain (c : ascii) :
  is_plain (lower_char (if is_alnum c then c else "_"%char)) = true.
Proof.
  destruct c as [[] [] [] [] [] [] [] []]; reflexivity.
Qed.

Lemma slug_plain (s : string) :
  Forall (fun c => is_plain c = true)
         (list_ascii_of_string (toLowerCase (replaceNonAlnum s))).
Proof.
  induction s as [| c r IH]; [constructor |].
  cbn [replaceNonAlnum toLowerCase list_ascii_of_string].
  constructor; [apply lower_char_plain | exact IH].
Qed.

Lemma slug_length (s : string) :
  String.length (toLowerCase (replaceNonAlnum s)) = String.length s.
Proof.
  induction s as [| c r IH]; [reflexivity |]. simpl. now rewrite IH.
Qed.

Lemma digit_plain (c : ascii) : is_digit c = true -> is_plain c = true.
Proof.
  intros H. unfold is_plain. rewrite H. now rewrite orb_true_r.
Qed.

(** X28. The name of the email file is made of lower-case letters, digits,
    [_] and the [.] of its extension only, whatever the address of the site
    holds: a [/], a [:], a [..] or a capital of the address never reaches
    the file system. The slug in it is as long as the address. *)
Theorem fileName_plain (baseUrl stamp : string) :
  Forall (fun c => is_digit c = true) (list_ascii_of_string stamp) ->
  Forall (fun c => is_plain c = true) (list_ascii_of_string (fileName baseUrl stamp)) /\
  String.length (fileName baseUrl stamp)
    = (String.length baseUrl + String.length stamp + 12)%nat.
Proof.
  intros Hstamp. unfold fileName. split.
  - rewrite !list_ascii_of_string_app.
    apply Forall_app. split; [repeat constructor |].
    apply Forall_app. split; [apply slug_plain |].
    apply Forall_app. split; [repeat constructor |].
    apply Forall_app. split; [| repeat constructor].
    eapply Forall_impl; [| exact Hstamp]. intros c. apply digit_plain.
  - rewrite !length_append, slug_length.
    cbn [String.length]. lia.
Qed.

Lemma fileName_plain_witness :
  Forall (fun c => is_plain c = true)
         (list_ascii_of_string (fileName "https://A.test/../x" "1700000000000")) /\
  String.length (fileName "https://A.test/../x" "1700000000000")
    = (String.length "https://A.test/../x" + String.length "1700000000000" + 12)%nat.
Proof.
  apply (fileName_plain "https://A.test/../x" "1700000000000").
  repeat constructor.
Defined.

(* ===================================================================== *)
(** * The sites that get no row *)

Lemma forEach_nothing (E : Env) (site : string) (detected : bool)
    (entries : list (option string * string)) (st : site_state) (w : World E) :
  passing entries = [] ->
  forEach (analyzePage E site detected) entries st w = (Ok st, w, []).
Proof.
  induction entries as [| [slot label] rest IH]; intros Hnone; [reflexivity |].
  rewrite passing_cons in Hnone. cbn [forEach]. unfold bind at 1.
  unfold analyzePage at 1.
  destruct slot as [pageUrl |].
  - destruct (truthy (Some pageUrl)); [discriminate |].
    unfold ret at 1. now rewrite (IH Hnone).
  - unfold ret at 1. now rewrite (IH Hnone).
Qed.

Lemma analyzePages_nothing (E : Env) (site : string) (detected : bool)
    (selection : list (option string)) (st : site_state) (w : World E) :
  analyzable selection = [] ->
  analyzePages E site detected selection st w = (Ok st, w, []).
Proof. intros Hnone. unfold analyzePages. now apply forEach_nothing. Qed.

(** Lines 292-346 select the pages from the candidate links and analyze
    them; the guard of line 320 changes nothing, the page loop does
    nothing on the selection of no link. *)
Lemma analyzeSelected_candidates (E : Env) (site homepageUrl : string)
    (detected : bool) (sitemapUrls : list string) (st : site_state)
    (w : World E) :
  analyzeSelected E site detected homepageUrl sitemapUrls st w =
  (links <- candidateLinks E homepageUrl sitemapUrls ;;
   analyzePages E site detected (selectPages links) st) w.
Proof.
  unfold analyzeSelected, candidateLinks.
  destruct (2 <? List.length sitemapUrls)%nat.
  - unfold bind, ret.
    destruct (analyzePages E site detected (selectPages sitemapUrls) st w)
      as [[r w1] ev1]. reflexivity.
  - unfold bind.
    destruct (scrapeInternalLinks E homepageUrl w) as [[[links | err] w1] ev1];
      [| reflexivity].
    destruct links as [| l links]; reflexivity.
Qed.

Lemma candidateLinks_events (E : Env) (homepageUrl : string)
    (sitemapUrls : list string) (w : World E) :
  Forall discoveryEvent (events (candidateLinks E homepageUrl sitemapUrls w)).
Proof.
  unfold candidateLinks. destruct (2 <? List.length sitemapUrls)%nat.
  - constructor.
  - apply scrapeInternalLinks_events.
Qed.

Lemma analyzeSelected_no_rows (E : Env) (site homepageUrl : string)
    (detected : bool) (sitemapUrls : list string) (st0 st : site_state)
    (w w' : World E) (evs : list event) :
  analyzeSelected E site detected homepageUrl sitemapUrls st0 w = (Ok st, w', evs) ->
  results st0 = [] -> results st = [] ->
  exists links,
    candidateLinks E homepageUrl sitemapUrls w = (Ok links, w', evs) /\
    analyzable (selectPages links) = [] /\ st = st0.
Proof.
  rewrite analyzeSelected_candidates. unfold bind.
  destruct (candidateLinks E homepageUrl sitemapUrls w)
    as [[[links | err] w1] ev1]; [| discriminate].
  destruct (analyzable (selectPages links)) as [| p rest] eqn:Hsel.
  - rewrite (analyzePages_nothing E site detected _ st0 w1 Hsel).
    intros H _ _. injection H as <- <- <-. rewrite app_nil_r.
    exists links. repeat split; assumption.
  - unfold analyzePages.
    pose proof (forEach_rows E site detected
                  [(element (selectPages links) 0, "Homepage");
                   (element (selectPages links) 1, "Mid");
                   (element (selectPages links) 2, "Deep")] st0 w1) as Hrows.
    destruct (forEach _ _ st0 w1) as [[[st' | err] w2] ev2]; [| discriminate].
    intros H Hstart Hend. injection H as <- <- <-. exfalso.
    destruct Hrows as [rows [Hr [Hm _]]].
    rewrite Hstart, Hend in Hr. cbn [app] in Hr. subst rows.
    unfold analyzable in Hsel. rewrite Hsel in Hm. discriminate.
Qed.

Lemma silent_run (E : Env) (url : string) (w : World E) :
  silent E url w ->
  exists w' evs,
    analyzeWebsiteBody E url w = (Ok tt, w', evs) /\ rowsWritten evs = [].
Proof.
  intros [w1 [parsedUrl [sitemapUrls [w2 [ev2 [links [w3 [ev3 [w4
          [Hdetect [Hparse [Hfetch [Hlinks [Hnone Hwrite]]]]]]]]]]]]]].
  pose proof (fetchSitemap_events E
                (fst parsedUrl ++ "//" ++ snd parsedUrl)%string w1) as Hd2.
  pose proof (candidateLinks_events E
                (fst parsedUrl ++ "//" ++ snd parsedUrl)%string sitemapUrls w2)
    as Hd3.
  rewrite Hfetch in Hd2. rewrite Hlinks in Hd3.
  unfold events in Hd2, Hd3. cbn [snd] in Hd2, Hd3.
  exists w4, (EvDetect url (Ok true) :: ev2 ++ ev3 ++ [EvWriteRecords []]).
  split.
  - unfold analyzeWebsiteBody. unfold bind at 1. unfold call at 1.
    rewrite Hdetect. cbn [negb].
    unfold bind at 1. unfold getHomepageUrl at 1. unfold bind at 1, pure at 1.
    rewrite Hparse. cbn [ret]. unfold bind at 1. rewrite Hfetch.
    unfold bind at 1. rewrite analyzeSelected_candidates. unfold bind at 1.
    rewrite Hlinks.
    rewrite (analyzePages_nothing E url true _ _ w3 Hnone).
    unfold bind, writeRecords, call. cbn [results lowestSSRPage emailLowest ret].
    rewrite Hwrite. cbn [app]. rewrite !app_nil_r. reflexivity.
  - change (EvDetect url (Ok true) :: ev2 ++ ev3 ++ [EvWriteRecords []])
      with ([EvDetect url (Ok true)] ++ ev2 ++ ev3 ++ [EvWriteRecords []]).
    rewrite !rowsWritten_app.
    rewrite (rowsWritten_notWrite ev2 (discoveryEvent_notWrite _ Hd2)).
    rewrite (rowsWritten_notWrite ev3 (discoveryEvent_notWrite _ Hd3)).
    reflexivity.
Qed.

Lemma body_no_row (E : Env) (url : string) (w w' : World E) (evs : list event) :
  analyzeWebsiteBody E url w = (Ok tt, w', evs) ->
  rowsWritten evs = [] ->
  silent E url w.
Proof.
  unfold analyzeWebsiteBody. unfold bind at 1. unfold call at 1.
  destruct (detectAt E url w) as [[[|] | err] w1] eqn:Hdetect; cbn [negb].
  2: { destruct (writeRecords_run E [notApplicableRow url false] w1)
         as [r2 [w2 ->]].
       intros H. injection H as _ _ <-. discriminate. }
  2: { discriminate. }
  unfold bind at 1. unfold getHomepageUrl at 1. unfold bind at 1, pure at 1.
  destruct (parseURL E url) as [parsedUrl | err] eqn:Hparse; cbn [ret];
    [| discriminate].
  unfold bind at 1.
  destruct (fetchSitemap E _ w1) as [[[sitemapUrls | err] w2] ev2] eqn:Hfetch;
    [| discriminate].
  unfold bind at 1.
  destruct (analyzeSelected E url true _ sitemapUrls _ w2)
    as [[[st | err] w3] ev3] eqn:Hsel; [| discriminate].
  unfold bind at 1. unfold writeRecords, call.
  destruct (csvWriter E (results st) w3) as [[[] | err] w4] eqn:Hwrite;
    [| discriminate].
  destruct (emailLowest E url (lowestSSRPage st) w4) as [[r5 w5] ev5].
  intros H. injection H as _ _ <-. cbn [app].
  change (EvDetect url (Ok true) :: ev2 ++ ev3 ++ EvWriteRecords (results st) :: ev5)
    with ([EvDetect url (Ok true)] ++ ev2 ++ ev3 ++
          [EvWriteRecords (results st)] ++ ev5).
  rewrite !rowsWritten_app. cbn [rowsWritten flat_map app].
  intros Hnone.
  apply app_eq_nil in Hnone. destruct Hnone as [_ Hnone].
  apply app_eq_nil in Hnone. destruct Hnone as [_ Hnone].
  rewrite app_nil_r in Hnone.
  apply app_eq_nil in Hnone. destruct Hnone as [Hnone _].
  destruct (analyzeSelected_no_rows E url _ true sitemapUrls _ st w2 w3 ev3
              Hsel eq_refl Hnone) as [links [Hlinks [Hsel0 ->]]].
  exists w1, parsedUrl, sitemapUrls, w2, ev2, links, w3, ev3, w4.
  repeat split; assumption.
Qed.

(** X29. No row is handed to the report writer for a site exactly when
    the detection returns [true], the address of the site parses, discovery
    returns, the links to select from (those of discovery when there are
    more than two, else those scraped from the homepage) give no non-empty
    URL to analyze, as when there is no link at all, and the write of the
    empty list returns. In every other run one row at least is handed to
    the writer. *)
Theorem analyzeWebsite_no_row_iff (E : Env) (url : string) (w : World E) :
  rowsWritten (events (analyzeWebsite E url w)) = [] <-> silent E url w.
Proof.
  rewrite analyzeWebsite_events. split.
  - destruct (analyzeWebsiteBody E url w) as [[[[] | err] w1] evs] eqn:Hrun;
      unfold events, result; cbn [fst snd succeeded].
    + rewrite app_nil_r. now apply body_no_row with (w' := w1).
    + rewrite rowsWritten_app. intros H. apply app_eq_nil in H.
      destruct H as [_ H]. discriminate.
  - intros Hsilent.
    destruct (silent_run E url w Hsilent) as [w' [evs [-> Hnone]]].
    unfold events, result. cbn [fst snd succeeded]. now rewrite app_nil_r.
Qed.
